(** * PDF-to-Excel converter: extraction pipeline and syllabus classifier

    A shallow embedding of the Python sources
      - [src/core/extractor.py]        (class [PDFExtractor]),
      - [src/pdf_to_excel_app.py]      ([organize_syllabus_structure]),
      - [src/syllabus_pdf_converter.py] ([extract_syllabus_structure]),
      - [src/enhanced_pdf_converter.py] ([is_text_based]),
    together with the properties of the header sanitizer, the type detector,
    the completeness reconciliation, the consolidator and the classifier.

    Conventions of the embedding.
    - A Python [str] is a list of Unicode code points ([list N]); [lit]
      turns a literal into such a list.
    - A Python [set] is a [gset]; a [list] is a [list].  Where a loop
      runs over a set, the order in which it visits the elements is left
      open: it is an argument of the embedding ([extract_visiting]).
    - A Python [float] is the rational number it stands for; an operation
      on floats rounds the exact result to the nearest binary64 number.
    - A call that can raise returns in [exc]; a [try]/[except] is a match on
      the outcome.  A loop that appends to a list which an enclosing
      [except] still sees afterwards returns the list together with the
      exception that stopped it.
    - A pandas [DataFrame] is a header (column labels) and rows of cells.
    - The PDF and OCR capabilities are data: a [Pdf] records what each call
      on each page yields. *)

From Stdlib Require Import ZArith NArith Ascii String List Lia.
From Stdlib Require Import QArith Qcanon Qround Qpower Qabs Lqa.
From Stdlib Require Import DecimalString Decimal DecimalNat.
From stdpp Require Import base list gmap sets numbers.

Local Open Scope nat_scope.

(* ================================================================== *)
(** ** Python strings *)

Abbreviation str := (list N) (only parsing).

Definition ch (a : ascii) : N := N_of_ascii a.
Arguments ch _%_char : simpl never.

Definition lit (s : string) : str := map N_of_ascii (list_ascii_of_string s).
Arguments lit _%_string : simpl never.

(** [str(n)] for a non-negative [int]. *)
Definition dec (n : nat) : str := lit (NilEmpty.string_of_uint (Nat.to_uint n)).

(** [str(z)] for an [int]. *)
Definition decZ (z : Z) : str := lit (NilEmpty.string_of_int (Z.to_int z)).

(** [c.isspace()]: the code points Python treats as whitespace, which are
    also those [str.strip()], [str.split()] and the regex class [\s] use. *)
Definition isspace (c : N) : bool :=
  ((9 <=? c) && (c <=? 13) || (28 <=? c) && (c <=? 32)
   || (c =? 133) || (c =? 160) || (c =? 5760)
   || (8192 <=? c) && (c <=? 8202)
   || (c =? 8232) || (c =? 8233) || (c =? 8239) || (c =? 8287)
   || (c =? 12288))%N.

Fixpoint lstrip (s : str) : str :=
  match s with
  | [] => []
  | c :: s' => if isspace c then lstrip s' else s
  end.

Fixpoint rstrip (s : str) : str :=
  match s with
  | [] => []
  | c :: s' =>
      match rstrip s' with
      | [] => if isspace c then [] else [c]
      | r => c :: r
      end
  end.

(** [s.strip()] *)
Definition strip (s : str) : str := rstrip (lstrip s).

(** [s.split()]: maximal runs of non-whitespace; [cur] is the run being
    read. *)
Fixpoint split_from (cur s : str) : list str :=
  match s with
  | [] => match cur with [] => [] | _ => [cur] end
  | c :: s' =>
      if isspace c
      then match cur with
           | [] => split_from [] s'
           | _ => cur :: split_from [] s'
           end
      else split_from (cur ++ [c]) s'
  end.

Definition split_ws (s : str) : list str := split_from [] s.

(** [sep.join(parts)] *)
Fixpoint join (sep : str) (parts : list str) : str :=
  match parts with
  | [] => []
  | p :: rest =>
      match rest with
      | [] => p
      | _ => p ++ sep ++ join sep rest
      end
  end.

(** [s.replace(old, new)] for one-character [old] and [new]. *)
Definition replace_char (old new : N) (s : str) : str :=
  map (fun c => if (c =? old)%N then new else c) s.

(** [s.startswith(p)] *)
Fixpoint startswith (p s : str) : bool :=
  match p, s with
  | [], _ => true
  | _ :: _, [] => false
  | a :: p', b :: s' => (a =? b)%N && startswith p' s'
  end.

(** [s.split(sep)] for a non-empty separator: [skip] counts the characters
    of a separator just recognised that are still to be passed over. *)
Fixpoint split_sep_from (sep : str) (skip : nat) (cur s : str) : list str :=
  match s with
  | [] => [cur]
  | c :: s' =>
      match skip with
      | S k => split_sep_from sep k cur s'
      | O =>
          if startswith sep s
          then cur :: split_sep_from sep (length sep - 1) [] s'
          else split_sep_from sep 0 (cur ++ [c]) s'
      end
  end.

Definition split_sep (sep s : str) : list str := split_sep_from sep 0 [] s.

(** [needle in haystack] on strings *)
Fixpoint contains (needle hay : str) : bool :=
  startswith needle hay ||
  match hay with
  | [] => false
  | _ :: hay' => contains needle hay'
  end.

(* ================================================================== *)
(** ** Exceptions *)

Inductive exn := FileNotFoundError | ValueError | TypeError | KeyError | IOError.

Inductive exc (A : Type) : Type :=
| Ok (a : A)
| Raise (e : exn).
Arguments Ok {A} a.
Arguments Raise {A} e.

#[global] Instance exc_ret : MRet exc := fun A a => Ok a.
#[global] Instance exc_bind : MBind exc := fun A B f m =>
  match m with
  | Ok a => f a
  | Raise e => Raise e
  end.

(* ================================================================== *)
(** ** HeaderSanitizer: [PDFExtractor._clean_column_names] *)

(** A raw header cell: [None], a string, or an object on which [str()]
    raises (the case the [except] branch of the source is for). *)
Inductive cell :=
| CNone
| CStr (s : str)
| CUnprintable.

(** [f"Column_{i+1}"] *)
Definition column_label (i : nat) : str := lit "Column_" ++ dec (S i).

(** [invalid_chars = ['\\', '/', '*', '?', ':', '[', ']']] *)
Definition invalid_chars : str :=
  [ch "\"; ch "/"; ch "*"; ch "?"; ch ":"; ch "["; ch "]"].

(** [for char in invalid_chars: header = header.replace(char, '_')] *)
Definition replace_invalid (header : str) : str :=
  fold_left (fun h char => replace_char char (ch "_") h) invalid_chars header.

(** The [else] branch of the cleaning, on the stripped non-empty header. *)
Definition clean_header_text (header : str) : str :=
  let header := replace_char (ch "010") (ch " ") header in
  let header := replace_char (ch "013") (ch " ") header in
  let header := join (lit " ") (split_ws header) in
  let header := replace_invalid header in
  if 50 <? length header then take 47 header ++ lit "..." else header.

(** The body of the [try] up to the comment "Handle duplicates". *)
Definition clean_header (i : nat) (header : cell) : exc str :=
  match header with
  | CNone => Ok (column_label i)
  | CStr s =>
      let header := strip s in
      match header with
      | [] => Ok (column_label i)
      | _ => Ok (clean_header_text header)
      end
  | CUnprintable => Raise TypeError
  end.

(** [while header in seen_headers: header = f"{original_header}_{counter}";
    counter += 1].  The loop leaves at the first free label; [fuel] bounds
    the number of turns and [while_seen_free] shows that the bound used by
    [dedup] is never reached with a label still taken. *)
Fixpoint while_seen (fuel : nat) (seen : gset (list N))
    (original header : str) (counter : nat) : str :=
  match fuel with
  | O => header
  | S fuel' =>
      if bool_decide (header ∈ seen)
      then while_seen fuel' seen original
             (original ++ lit "_" ++ dec counter) (S counter)
      else header
  end.

Definition dedup (seen : gset (list N)) (header : str) : str :=
  while_seen (S (size seen)) seen header header 1.

(** The [for i, header in enumerate(headers)] loop, with [seen_headers]
    threaded through. *)
Fixpoint clean_loop (i : nat) (headers : list cell) (seen : gset (list N))
    : list str :=
  match headers with
  | [] => []
  | header :: rest =>
      let h :=
        match clean_header i header with
        | Ok header => dedup seen header
        | Raise _ => dedup seen (column_label i)
        end in
      h :: clean_loop (S i) rest ({[ h ]} ∪ seen)
  end.

Definition _clean_column_names (headers : list cell) : list str :=
  clean_loop 0 headers ∅.

(** The label a cell yields before de-duplication, and the labels the
    de-duplication loop tries in turn. *)
Definition base_label (i : nat) (header : cell) : str :=
  match clean_header i header with
  | Ok h => h
  | Raise _ => column_label i
  end.

Definition candidate (original : str) (k : nat) : str :=
  match k with
  | O => original
  | S _ => original ++ lit "_" ++ dec k
  end.

(** *** Shape of a sanitized label (specification vocabulary)

    [spaced b s]: [s] has no whitespace other than single blanks between
    words, does not end in a blank and, when [b] holds, is non-empty and
    does not start with one. *)
Fixpoint spaced (after_space : bool) (s : str) : bool :=
  match s with
  | [] => negb after_space
  | c :: s' =>
      if (c =? ch " ")%N
      then negb after_space && spaced true s'
      else negb (isspace c) && spaced false s'
  end.

Definition is_invalid (c : N) : bool := existsb (N.eqb c) invalid_chars.

Definition tidy (s : str) : Prop :=
  spaced true s = true /\ Forall (fun c => is_invalid c = false) s.

(** A character that can stand inside a word of a label. *)
Definition wordchar (c : N) : Prop := isspace c = false /\ is_invalid c = false.

(* ================================================================== *)
(** ** pandas: cells and frames *)

(** What a cell of a [DataFrame] holds: an [int], a [str], or a missing
    value ([None]/[NaN]).  Coordinates, which pdfplumber reports as
    decimals and which the program only copies, are carried as [VInt]. *)
Inductive value :=
| VInt (z : Z)
| VStr (s : str)
| VNone.

#[global] Instance value_eq_dec : EqDecision value.
Proof. solve_decision. Defined.

#[global] Instance value_countable : Countable value.
Proof.
  refine (inj_countable'
    (fun v => match v with
              | VInt z => inl z
              | VStr s => inr (inl s)
              | VNone => inr (inr tt)
              end)
    (fun x => match x with
              | inl z => VInt z
              | inr (inl s) => VStr s
              | inr (inr _) => VNone
              end) _).
  by intros [].
Defined.

Record DataFrame := {
  columns : list str;
  rows : list (list value)
}.

#[global] Instance DataFrame_eq_dec : EqDecision DataFrame.
Proof. solve_decision. Defined.

(** [len(df)] *)
Definition df_len (df : DataFrame) : nat := length (rows df).

(** [name in df.columns] *)
Definition has_column (name : str) (df : DataFrame) : bool :=
  bool_decide (name ∈ columns df).

Fixpoint index_of (name : str) (cols : list str) : option nat :=
  match cols with
  | [] => None
  | c :: cols' =>
      if bool_decide (c = name) then Some 0 else S <$> index_of name cols'
  end.

(** [df[name].values] *)
Definition column_values (name : str) (df : DataFrame) : list value :=
  match index_of name (columns df) with
  | Some i => (fun row => default VNone (row !! i)) <$> rows df
  | None => []
  end.

(** [df.insert(loc, name, v)] with a scalar [v]. *)
Definition df_insert (loc : nat) (name : str) (v : value) (df : DataFrame)
    : DataFrame :=
  {| columns := take loc (columns df) ++ name :: drop loc (columns df);
     rows := (fun row => take loc row ++ v :: drop loc row) <$> rows df |}.

(** [pd.DataFrame(data, columns=cols)] on a list of rows: pandas pads the
    rows to the longest one with missing values and raises when that width
    is not the number of column labels. *)
Definition frame_of_rows (data : list (list value)) (cols : list str)
    : exc DataFrame :=
  match data with
  | [] => Ok {| columns := cols; rows := [] |}
  | _ =>
      let width := max_list (length <$> data) in
      if width =? length cols
      then Ok {| columns := cols;
                 rows := (fun row => row ++ replicate (width - length row) VNone)
                         <$> data |}
      else Raise ValueError
  end.

(** [if 'Page' not in df.columns: df.insert(0, 'Page', page_num)]
    [if 'Table_Index' not in df.columns: df.insert(1, 'Table_Index', idx)] *)
Definition add_page_and_index (page_num table_index : nat) (df : DataFrame)
    : DataFrame :=
  let df :=
    if has_column (lit "Page") df then df
    else df_insert 0 (lit "Page") (VInt (Z.of_nat page_num)) df in
  if has_column (lit "Table_Index") df then df
  else df_insert 1 (lit "Table_Index") (VInt (Z.of_nat table_index)) df.

(** The page values of a table: [table['Page'].unique()] when the table has
    a [Page] column. *)
Definition page_values (table : DataFrame) : gset value :=
  if has_column (lit "Page") table
  then list_to_set (column_values (lit "Page") table)
  else ∅.

(** [extracted_pages = set(); for table in tables: if 'Page' in
    table.columns: extracted_pages.update(table['Page'].unique())] *)
Definition pages_present (tables : list DataFrame) : gset value :=
  ⋃ (page_values <$> tables).

(* ================================================================== *)
(** ** The PDF and OCR capabilities *)

Record Word := {
  word_text : str;
  word_x0 : Z; word_top : Z; word_width : Z; word_height : Z
}.

Record Image := {
  image_x0 : Z; image_top : Z; image_width : Z; image_height : Z
}.

Record Annot := {
  annot_subtype : option str;
  annot_x0 : Z; annot_top : Z
}.

(** What the calls on one page yield.  [page.extract_tables()],
    [page.extract_text()] and OCR of the rasterised page can raise. *)
Record Page := {
  page_extract_tables : exc (list (list (list (option str))));
  page_extract_text : exc (option str);
  page_extract_words : list Word;
  page_images : list Image;
  page_annots : list Annot;
  page_image_to_string : exc str
}.

Record Pdf := {
  path_exists : bool;       (* os.path.exists(pdf_path) *)
  opens : bool;             (* pdfplumber.open(pdf_path) succeeds *)
  rasterizes : bool;        (* convert_from_path(pdf_path, ...) succeeds *)
  pdf_pages : list Page
}.

(** [pdfplumber.open(pdf_path)] followed by [pdf.pages]. *)
Definition open_pdf (d : Pdf) : exc (list Page) :=
  if opens d then Ok (pdf_pages d) else Raise IOError.

(** Truth value of an optional string: [if text]. *)
Definition truthy (text : option str) : bool :=
  match text with
  | Some (_ :: _) => true
  | _ => false
  end.

(* ================================================================== *)
(** ** TypeDetector: [PDFExtractor.is_text_based] *)

(** The [for page in pdf.pages] loop inside the [try]. *)
Fixpoint some_page_has_text (pages : list Page) : exc bool :=
  match pages with
  | [] => Ok false
  | page :: rest =>
      text ← page_extract_text page;
      match text with
      | Some t =>
          if truthy text && (50 <? length (strip t)) then Ok true
          else some_page_has_text rest
      | None => some_page_has_text rest
      end
  end.

(** The body of the [try]. *)
Definition is_text_based_try (d : Pdf) : exc bool :=
  pages ← open_pdf d; some_page_has_text pages.

Definition is_text_based (d : Pdf) : bool :=
  match is_text_based_try d with
  | Ok b => b
  | Raise _ => false
  end.

(** A page whose stripped text is longer than the threshold
    (specification vocabulary). *)
Definition long_text (page : Page) : Prop :=
  exists t, page_extract_text page = Ok (Some t) /\ 50 < length (strip t).

(** [enhanced_pdf_converter.is_text_based]: the cumulative variant. *)
Definition MIN_TEXT_LENGTH : nat := 50.

Fixpoint total_text_length (pages : list Page) (total : nat) : exc nat :=
  match pages with
  | [] => Ok total
  | page :: rest =>
      text ← page_extract_text page;
      match text with
      | Some t =>
          if truthy text then total_text_length rest (total + length (strip t))
          else total_text_length rest total
      | None => total_text_length rest total
      end
  end.

Definition enhanced_is_text_based (d : Pdf) : bool :=
  match (pages ← open_pdf d; total_text_length pages 0) with
  | Ok total => MIN_TEXT_LENGTH <? total
  | Raise _ => false
  end.

(* ================================================================== *)
(** ** ExtractionPipeline *)

Definition value_of_cell (c : option str) : value :=
  match c with
  | Some s => VStr s
  | None => VNone
  end.

Definition header_cell (c : option str) : cell :=
  match c with
  | Some s => CStr s
  | None => CNone
  end.

(** [cell is not None and str(cell).strip()] *)
Definition cell_nonblank (c : option str) : bool :=
  match c with
  | Some s => bool_decide (strip s <> [])
  | None => false
  end.

(** [row and any(cell is not None and str(cell).strip() for cell in row)] *)
Definition row_nonblank (row : list (option str)) : bool :=
  existsb cell_nonblank row.

(** [[line.strip() for line in text.split('\n') if line.strip()]] *)
Definition text_lines (text : str) : list str :=
  filter (fun line => line <> []) (strip <$> split_sep [ch "010"] text).

(** [text and text.strip()] *)
Definition has_text (text : option str) : bool :=
  match text with
  | Some t => truthy text && bool_decide (strip t <> [])
  | None => false
  end.

(** [pd.DataFrame({'Text': lines})] *)
Definition text_frame (lines : list str) : DataFrame :=
  {| columns := [lit "Text"]; rows := (fun line => [VStr line]) <$> lines |}.

(** *** Stage A, text-based: [PDFExtractor.extract_text_tables] *)

(** The body of the [try] for one table (source lines 103-137): [None] when
    the table has no non-blank row. *)
Definition table_frame (page_num table_idx : nat)
    (table : list (list (option str))) : exc (option DataFrame) :=
  let filtered_table := filter (fun row => row_nonblank row) table in
  match filtered_table with
  | [] => Ok None
  | first :: data_rows =>
      let frame : exc DataFrame :=
        match data_rows with
        | [] =>
            let headers := column_label <$> seq 0 (length first) in
            frame_of_rows [value_of_cell <$> first] headers
        | _ =>
            let cleaned_headers :=
              _clean_column_names (header_cell <$> first) in
            frame_of_rows (fmap (M:=list) value_of_cell <$> data_rows)
              cleaned_headers
        end in
      df ← frame;
      Ok (Some (add_page_and_index page_num (table_idx + 1) df))
  end.

(** [for table_idx, table in enumerate(page_tables)]: a table whose
    processing raises is skipped. *)
Fixpoint page_tables_loop (page_num table_idx : nat)
    (page_tables : list (list (list (option str))))
    (tables : list DataFrame) (tables_found : bool)
    : list DataFrame * bool :=
  match page_tables with
  | [] => (tables, tables_found)
  | table :: rest =>
      match table_frame page_num table_idx table with
      | Ok (Some df) =>
          page_tables_loop page_num (S table_idx) rest (tables ++ [df]) true
      | Ok None | Raise _ =>
          page_tables_loop page_num (S table_idx) rest tables tables_found
      end
  end.

(** The text of a page as a one-column table, when it has non-blank
    lines. *)
Definition lines_table (page_num : nat) (text : option str)
    : option DataFrame :=
  match text with
  | Some t =>
      if has_text text
      then match text_lines t with
           | [] => None
           | lines => Some (add_page_and_index page_num 1 (text_frame lines))
           end
      else None
  | None => None
  end.

(** [if not tables_found: try: ... except Exception as text_error: ...] *)
Definition page_text_table (page_num : nat) (page : Page)
    : option DataFrame :=
  match page_extract_text page with
  | Ok text => lines_table page_num text
  | Raise _ => None
  end.

Definition append_if {A} (l : list A) (x : option A) : list A :=
  match x with
  | Some a => l ++ [a]
  | None => l
  end.

(** [for page_num, page in enumerate(pdf.pages, start=1)], stopped by an
    exception of [page.extract_tables()]; the tables appended so far
    stay. *)
Fixpoint text_tables_loop (page_num : nat) (pages : list Page)
    (tables : list DataFrame) : list DataFrame * option exn :=
  match pages with
  | [] => (tables, None)
  | page :: rest =>
      match page_extract_tables page with
      | Raise e => (tables, Some e)
      | Ok page_tables =>
          let '(tables, tables_found) :=
            page_tables_loop page_num 0 page_tables tables false in
          let tables :=
            if tables_found then tables
            else append_if tables (page_text_table page_num page) in
          text_tables_loop (S page_num) rest tables
      end
  end.

(** The fallback loop of the outer [except]; it stops at the first
    exception. *)
Fixpoint fallback_text_loop (page_num : nat) (pages : list Page)
    (tables : list DataFrame) : list DataFrame :=
  match pages with
  | [] => tables
  | page :: rest =>
      match page_extract_text page with
      | Raise _ => tables
      | Ok text =>
          fallback_text_loop (S page_num) rest
            (append_if tables (lines_table page_num text))
      end
  end.

Definition fallback_text (d : Pdf) (tables : list DataFrame)
    : list DataFrame :=
  match open_pdf d with
  | Ok pages => fallback_text_loop 1 pages tables
  | Raise _ => tables
  end.

(** [pd.DataFrame({'Page': [page_num], 'Table_Index': [1],
    'Text': ['[No extractable content]']})] *)
Definition no_content_placeholder (page_num : nat) : DataFrame :=
  {| columns := [lit "Page"; lit "Table_Index"; lit "Text"];
     rows := [[VInt (Z.of_nat page_num); VInt 1;
               VStr (lit "[No extractable content]")]] |}.

(** The page numbers of [range(1, total_pages + 1)] that are not in
    [extracted_pages]. *)
Definition pages_missing (tables : list DataFrame) (total_pages : nat)
    : list nat :=
  filter (fun page_num => VInt (Z.of_nat page_num) ∉ pages_present tables)
         (seq 1 total_pages).

Definition extract_text_tables (d : Pdf) : list DataFrame :=
  let '(tables, total_pages) :=
    match open_pdf d with
    | Raise _ => (fallback_text d [], 0)
    | Ok pages =>
        match text_tables_loop 1 pages [] with
        | (tables, None) => (tables, length pages)
        | (tables, Some _) => (fallback_text d tables, length pages)
        end
    end in
  if length tables <? total_pages
  then tables ++ (no_content_placeholder <$> pages_missing tables total_pages)
  else tables.

(** *** Stage A, image-based: [PDFExtractor.extract_from_images] *)

Definition _parse_ocr_text (lines : list str) : option (list (list str)) :=
  match lines with
  | [] => None
  | _ =>
      let parsed_data :=
        filter (fun columns : list (list N) => 1 < length columns)
          ((fun line => filter (fun col => col <> [])
                          (strip <$> split_sep (lit "  ") line)) <$> lines) in
      match parsed_data with
      | [] => None
      | _ => Some parsed_data
      end
  end.

Definition ocr_frame (lines : list str) : exc DataFrame :=
  match _parse_ocr_text lines with
  | Some (headers :: data_rows) =>
      let cleaned_headers := _clean_column_names (CStr <$> headers) in
      frame_of_rows (fmap (M:=list) VStr <$> data_rows) cleaned_headers
  | _ => Ok (text_frame lines)
  end.

(** [for i, image in enumerate(images)]; any exception ends the function
    with the tables gathered so far. *)
Fixpoint images_loop (i : nat) (pages : list Page) (tables : list DataFrame)
    : list DataFrame :=
  match pages with
  | [] => tables
  | page :: rest =>
      match page_image_to_string page with
      | Raise _ => tables
      | Ok text =>
          match text_lines text with
          | [] => images_loop (S i) rest tables
          | lines =>
              match ocr_frame lines with
              | Raise _ => tables
              | Ok df =>
                  images_loop (S i) rest
                    (tables ++ [add_page_and_index (i + 1) 1 df])
              end
          end
      end
  end.

Definition extract_from_images (d : Pdf) : list DataFrame :=
  if rasterizes d then images_loop 0 (pdf_pages d) [] else [].

(** *** Stage B: [PDFExtractor.extract_all_text_comprehensive] *)

Definition text_line_frame (page_num : nat) (lines : list str) : DataFrame :=
  {| columns := [lit "Page"; lit "Content_Type"; lit "Text";
                 lit "Line_Number"; lit "Extraction_Method"];
     rows := imap (fun i line =>
                     [VInt (Z.of_nat page_num); VStr (lit "Text_Line");
                      VStr line; VInt (Z.of_nat (i + 1));
                      VStr (lit "pdfplumber_text")]) lines |}.

Definition word_frame (page_num : nat) (words : list Word) : DataFrame :=
  {| columns := [lit "Page"; lit "Content_Type"; lit "Text"; lit "X"; lit "Y";
                 lit "Width"; lit "Height"; lit "Line_Number";
                 lit "Extraction_Method"];
     rows := imap (fun i word =>
                     [VInt (Z.of_nat page_num); VStr (lit "Word");
                      VStr (word_text word);
                      VInt (word_x0 word); VInt (word_top word);
                      VInt (word_width word); VInt (word_height word);
                      VInt (Z.of_nat (i + 1));
                      VStr (lit "pdfplumber_words")]) words |}.

Definition no_text_frame (page_num : nat) : DataFrame :=
  {| columns := [lit "Page"; lit "Content_Type"; lit "Text";
                 lit "Line_Number"; lit "Extraction_Method"];
     rows := [[VInt (Z.of_nat page_num); VStr (lit "No_Text_Content");
               VStr (lit "[No text content found on this page]");
               VInt 1; VStr (lit "pdfplumber_empty")]] |}.

(** What one page contributes (source lines 516-564). *)
Definition comprehensive_page (page_num : nat) (text : option str)
    (words : list Word) : list DataFrame :=
  (match text with
   | Some t =>
       if has_text text
       then match text_lines t with
            | [] => []
            | lines => [text_line_frame page_num lines]
            end
       else []
   | None => []
   end)
  ++ (match words with
      | [] => []
      | _ => [word_frame page_num words]
      end)
  ++ (if negb (truthy text) && bool_decide (words = [])
      then [no_text_frame page_num] else []).

Fixpoint comprehensive_loop (page_num : nat) (pages : list Page)
    (tables : list DataFrame) : list DataFrame :=
  match pages with
  | [] => tables
  | page :: rest =>
      match page_extract_text page with
      | Raise _ => tables
      | Ok text =>
          comprehensive_loop (S page_num) rest
            (tables
             ++ comprehensive_page page_num text (page_extract_words page))
      end
  end.

Definition extract_all_text_comprehensive (d : Pdf) : list DataFrame :=
  match open_pdf d with
  | Ok pages => comprehensive_loop 1 pages []
  | Raise _ => []
  end.

(** *** Stage C: [PDFExtractor.extract_remaining_content] *)

(** The numbers pdfplumber reports for an image are carried as integers;
    where it reports a [float], Python prints the number with its
    fractional part ([100.0]), which the text cell below does not show.
    The number of rows and the first two cells of a row do not depend on
    it. *)
Definition image_frame (page_num : nat) (images : list Image) : DataFrame :=
  {| columns := [lit "Page"; lit "Content_Type"; lit "Text"; lit "X"; lit "Y";
                 lit "Width"; lit "Height"; lit "Extraction_Method"];
     rows := imap (fun i img =>
                     [VInt (Z.of_nat page_num); VStr (lit "Image");
                      VStr (lit "[Image " ++ dec (i + 1) ++ lit ": "
                            ++ decZ (image_width img) ++ lit "x"
                            ++ decZ (image_height img) ++ lit "]");
                      VInt (image_x0 img); VInt (image_top img);
                      VInt (image_width img); VInt (image_height img);
                      VStr (lit "pdfplumber_images")]) images |}.

Definition annotation_frame (page_num : nat) (annotations : list Annot)
    : DataFrame :=
  {| columns := [lit "Page"; lit "Content_Type"; lit "Text"; lit "X"; lit "Y";
                 lit "Extraction_Method"];
     rows := imap (fun i ann =>
                     [VInt (Z.of_nat page_num); VStr (lit "Annotation");
                      VStr (lit "[Annotation " ++ dec (i + 1) ++ lit ": "
                            ++ default (lit "Unknown") (annot_subtype ann)
                            ++ lit "]");
                      VInt (annot_x0 ann); VInt (annot_top ann);
                      VStr (lit "pdfplumber_annotations")]) annotations |}.

Definition remaining_page (page_num : nat) (page : Page) : list DataFrame :=
  (match page_images page with
   | [] => []
   | images => [image_frame page_num images]
   end)
  ++ (match page_annots page with
      | [] => []
      | annotations => [annotation_frame page_num annotations]
      end).

Definition extract_remaining_content (d : Pdf) : list DataFrame :=
  match open_pdf d with
  | Ok pages => mjoin (imap (fun i page => remaining_page (i + 1) page) pages)
  | Raise _ => []
  end.

(** *** [PDFExtractor.extract_page_content] *)

(** [pdf.pages[page_num - 1]] *)
Definition page_at (pages : list Page) (page_num : nat) : option Page :=
  match page_num with
  | O => pages !! (length pages - 1)
  | S k => pages !! k
  end.

Definition extract_page_content (d : Pdf) (page_num : nat)
    : option DataFrame :=
  match open_pdf d with
  | Raise _ => None
  | Ok pages =>
      if page_num <=? length pages
      then match page_at pages page_num with
           | None => None
           | Some page =>
               match page_extract_text page with
               | Raise _ => None
               | Ok text =>
                   let words := page_extract_words page in
                   let images := page_images page in
                   let content_data :=
                     (match text with
                      | Some t =>
                          if truthy text
                          then [[VInt (Z.of_nat page_num);
                                 VStr (lit "Remaining_Text");
                                 VStr (if 500 <? length t
                                       then take 500 t ++ lit "..." else t);
                                 VStr (lit "page_specific_text")]]
                          else []
                      | None => []
                      end)
                     ++ (match words with
                         | [] => []
                         | _ => [[VInt (Z.of_nat page_num);
                                  VStr (lit "Remaining_Words");
                                  VStr (lit "[Found " ++ dec (length words)
                                        ++ lit " words]");
                                  VStr (lit "page_specific_words")]]
                         end)
                     ++ (match images with
                         | [] => []
                         | _ => [[VInt (Z.of_nat page_num);
                                  VStr (lit "Remaining_Images");
                                  VStr (lit "[Found " ++ dec (length images)
                                        ++ lit " images]");
                                  VStr (lit "page_specific_images")]]
                         end) in
                   match content_data with
                   | [] => None
                   | _ =>
                       Some {| columns := [lit "Page"; lit "Content_Type";
                                           lit "Text"; lit "Extraction_Method"];
                               rows := content_data |}
                   end
               end
           end
      else None
  end.

(* ================================================================== *)
(** ** Consolidator: [PDFExtractor.consolidate_tables] *)

(** ['Page' in t.columns and page_num in t['Page'].values] *)
Definition on_page (page_num : nat) (t : DataFrame) : bool :=
  has_column (lit "Page") t
  && bool_decide (VInt (Z.of_nat page_num) ∈ column_values (lit "Page") t).

(** [for table in page_tables: if 'Content_Type' in table.columns:
    content_types.extend(table['Content_Type'].unique())] *)
Definition content_types_of (page_tables : list DataFrame) : list value :=
  page_tables ≫= (fun table =>
    if has_column (lit "Content_Type") table
    then remove_dups (column_values (lit "Content_Type") table)
    else []).

(** The items of [sep.join(...)] must be strings. *)
Fixpoint strings_of (items : list value) : exc (list str) :=
  match items with
  | [] => Ok []
  | VStr s :: items' => rest ← strings_of items'; Ok (s :: rest)
  | _ :: _ => Raise TypeError
  end.

(** [set(content_types)]: Python leaves the iteration order of a set
    open (for strings it changes from one run to the next); the embedding
    lists the distinct items in order of first occurrence, and the
    properties of the summary speak of the items as a set. *)
Definition distinct_types (content_types : list value) : exc (list str) :=
  strings_of (remove_dups content_types).

Definition summary_columns : list str :=
  [lit "Page"; lit "Content_Type"; lit "Text"; lit "Total_Items";
   lit "Content_Types"; lit "Extraction_Method"].

(** One turn of [for page_num in range(1, total_pages + 1)]. *)
Definition summary_row (all_tables : list DataFrame) (page_num : nat)
    : exc (list value) :=
  let page_tables := filter (fun t => on_page page_num t) all_tables in
  match page_tables with
  | [] =>
      Ok [VInt (Z.of_nat page_num); VStr (lit "Page_Summary");
          VStr (lit "Page " ++ dec page_num ++ lit ": No content extracted");
          VInt 0; VStr (lit "None"); VStr (lit "consolidated_summary")]
  | _ =>
      let total_rows := sum_list (df_len <$> page_tables) in
      types ← distinct_types (content_types_of page_tables);
      Ok [VInt (Z.of_nat page_num); VStr (lit "Page_Summary");
          VStr (lit "Page " ++ dec page_num ++ lit ": " ++ dec total_rows
                ++ lit " total items, Content types: "
                ++ join (lit ", ") types);
          VInt (Z.of_nat total_rows); VStr (join (lit ", ") types);
          VStr (lit "consolidated_summary")]
  end.

(** [pd.DataFrame(records)] on a list of dicts with the same keys: no
    column at all when the list is empty. *)
Definition frame_of_records (cols : list str) (records : list (list value))
    : DataFrame :=
  match records with
  | [] => {| columns := []; rows := [] |}
  | _ => {| columns := cols; rows := records |}
  end.

Definition consolidate_tables (all_tables : list DataFrame)
    (total_pages : nat) : exc (list DataFrame) :=
  match all_tables with
  | [] => Ok []
  | _ =>
      summary_data ← mapM (summary_row all_tables) (seq 1 total_pages);
      Ok (frame_of_records summary_columns summary_data :: all_tables)
  end.

(* ================================================================== *)
(** ** CompletenessReconciler and entry point: [PDFExtractor.extract] *)

(** The placeholder of source lines 405-410. *)
Definition empty_page_placeholder (page_num : nat) : DataFrame :=
  {| columns := [lit "Page"; lit "Content_Type"; lit "Text";
                 lit "Extraction_Status"];
     rows := [[VInt (Z.of_nat page_num); VStr (lit "Empty_Page");
               VStr (lit "[Page " ++ dec page_num
                     ++ lit " - No extractable content found]");
               VStr (lit "No_Content")]] |}.

(** [for page_num in missing_pages], the pages being visited in the order
    of the list [missing_pages].  [if page_content:] on a [DataFrame]
    raises [ValueError] (pandas refuses the truth value of a frame); on
    [None] the placeholder is appended. *)
Fixpoint cover_missing (d : Pdf) (missing_pages : list nat)
    (all_tables : list DataFrame) : exc (list DataFrame) :=
  match missing_pages with
  | [] => Ok all_tables
  | page_num :: rest =>
      match extract_page_content d page_num with
      | Some _ => Raise ValueError
      | None =>
          cover_missing d rest (all_tables ++ [empty_page_placeholder page_num])
      end
  end.

(** [total_pages] as computed at the head of [extract]. *)
Definition page_count (d : Pdf) : nat :=
  match open_pdf d with
  | Ok pages => length pages
  | Raise _ => 0
  end.

(** Steps 1 to 3: the tables gathered before reconciliation. *)
Definition gathered_tables (d : Pdf) : list DataFrame :=
  (if is_text_based d then extract_text_tables d else extract_from_images d)
  ++ extract_all_text_comprehensive d
  ++ extract_remaining_content d.

(** Step 4. *)
Definition reconcile (d : Pdf) (all_tables : list DataFrame)
    (total_pages : nat) : exc (list DataFrame) :=
  cover_missing d (pages_missing all_tables total_pages) all_tables.

Definition Qc_of_nat (n : nat) : Qc := Q2Qc (inject_Z (Z.of_nat n)).

(** *** Python floats

    A Python [float] is an IEEE 754 binary64 number, and [/] on two
    [int]s and [*] on a [float] and an [int] return the float nearest to
    the exact result, ties going to the even significand.  A finite float
    is carried by the rational number it stands for.  The operands below
    are lengths, which CPython keeps under [2 ^ 63], so the exact results
    lie far inside the range of the normal numbers and rounding is to 53
    significant bits. *)

(** The greatest [k] with [2 ^ k <= x], for a positive [x]. *)
Definition floor_log2 (x : Q) : Z :=
  let k := (Z.log2 (Qnum x) - Z.log2 (Z.pos (Qden x)))%Z in
  if Qle_bool (2 ^ k) x then k else (k - 1)%Z.

(** The integer nearest to [x]; of two that are equally near, the even
    one. *)
Definition round_half_even (x : Q) : Z :=
  let f := Qfloor x in
  match (x - inject_Z f ?= 1 # 2)%Q with
  | Lt => f
  | Eq => if Z.even f then f else (f + 1)%Z
  | Gt => (f + 1)%Z
  end.

(** The number with 53 significant bits nearest to a positive [x]. *)
Definition round_53 (x : Q) : Q :=
  let e := (floor_log2 x - 52)%Z in
  (inject_Z (round_half_even (x / 2 ^ e)) * 2 ^ e)%Q.

(** The float nearest to [x]. *)
Definition float_of (x : Qc) : Qc :=
  match (x ?= 0)%Qc with
  | Eq => 0%Qc
  | Gt => Q2Qc (round_53 x)
  | Lt => (- Q2Qc (round_53 (- x)))%Qc
  end.

(** [a / b] on two [int]s, [b] not zero. *)
Definition int_truediv (a b : nat) : Qc :=
  float_of (Qc_of_nat a / Qc_of_nat b).

(** [x * y] on floats. *)
Definition float_mul (x y : Qc) : Qc := float_of (x * y).

(** [(len(final_extracted_pages) / total_pages * 100)
     if total_pages > 0 else 100] *)
Definition score (covered total_pages : nat) : Qc :=
  if 0 <? total_pages
  then float_mul (int_truediv covered total_pages) (Qc_of_nat 100)
  else Qc_of_nat 100.

Record Result := {
  extraction_method : str;
  result_is_text_based : bool;
  tables : list DataFrame;
  total_tables : nat;
  total_rows : nat;
  total_pages : nat;
  extracted_pages : nat;
  missing_pages : nat;
  completeness_score : Qc
}.

(** [missing_pages] is a Python [set], and Python leaves open the order
    in which [for page_num in missing_pages] visits it.
    [extract_visiting visit] is the run of [extract] in which the loop
    visits the missing pages in the order [visit], a permutation of
    [pages_missing (gathered_tables d) (page_count d)]. *)
Definition extract_visiting (visit : list nat) (d : Pdf) : exc Result :=
  if negb (path_exists d) then Raise FileNotFoundError
  else
    let total_pages := page_count d in
    let is_text := is_text_based d in
    let extraction_method := if is_text then lit "pdfplumber" else lit "ocr" in
    all_tables ← cover_missing d visit (gathered_tables d);
    consolidated_tables ← consolidate_tables all_tables total_pages;
    let final_extracted_pages := pages_present consolidated_tables in
    Ok {| extraction_method := extraction_method;
          result_is_text_based := is_text;
          tables := consolidated_tables;
          total_tables := length consolidated_tables;
          total_rows := sum_list (df_len <$> consolidated_tables);
          total_pages := total_pages;
          extracted_pages := size final_extracted_pages;
          missing_pages := 0;
          completeness_score := score (size final_extracted_pages) total_pages
       |}.

(** The run that visits the missing pages in increasing order.
    [extract_order_irrelevant] shows what the other runs share with it. *)
Definition extract (d : Pdf) : exc Result :=
  extract_visiting (pages_missing (gathered_tables d) (page_count d)) d.

(* ================================================================== *)
(** ** Regular expressions: the fragment of [re] the classifier uses *)

Inductive regex :=
| Chr (p : N -> bool)            (* one character: a literal, a class, [.] *)
| Seq (r1 r2 : regex)
| Alt (r1 r2 : regex)
| Opt (r : regex)                (* [r?] *)
| Star (r : regex)               (* [r*], greedy *)
| Group (n : nat) (r : regex)    (* the [n]-th capture group *)
| Eps
| Eos.                           (* [$] *)

Definition Plus (r : regex) : regex := Seq r (Star r).

Fixpoint seqs (rs : list regex) : regex :=
  match rs with
  | [] => Eps
  | [r] => r
  | r :: rs' => Seq r (seqs rs')
  end.

Abbreviation groups := (gmap nat (list N)) (only parsing).

(** Backtracking matcher in continuation-passing style: [k] is what has to
    match after [r].  A turn of [Star] must consume input, so the number
    of turns is bounded by the length of the input. *)
Fixpoint rmatch (r : regex) (s : str) (caps : groups)
    (k : str -> groups -> option groups) : option groups :=
  match r with
  | Chr p =>
      match s with
      | c :: s' => if p c then k s' caps else None
      | [] => None
      end
  | Seq r1 r2 => rmatch r1 s caps (fun s' caps' => rmatch r2 s' caps' k)
  | Alt r1 r2 =>
      match rmatch r1 s caps k with
      | Some m => Some m
      | None => rmatch r2 s caps k
      end
  | Opt r1 =>
      match rmatch r1 s caps k with
      | Some m => Some m
      | None => k s caps
      end
  | Star r1 =>
      (fix star (turns : nat) (s : str) (caps : groups) : option groups :=
         match turns with
         | O => k s caps
         | S turns' =>
             match rmatch r1 s caps
                     (fun s' caps' =>
                        if length s' <? length s then star turns' s' caps'
                        else None) with
             | Some m => Some m
             | None => k s caps
             end
         end) (length s) s caps
  | Group n r1 =>
      rmatch r1 s caps
        (fun s' caps' => k s' (<[n := take (length s - length s') s]> caps'))
  | Eps => k s caps
  | Eos =>
      match s with
      | [] => k s caps
      | [c] => if (c =? ch "010")%N then k s caps else None
      | _ => None
      end
  end.

(** [re.match(pattern, s)]: the match is anchored at the start, which is
    also what a leading [^] asks for. *)
Definition re_match (r : regex) (s : str) : option groups :=
  rmatch r s ∅ (fun _ caps => Some caps).

(** [match.group(n)] *)
Definition group (m : groups) (n : nat) : str := default [] (m !! n).

(** Character classes.  The patterns are compiled with [re.IGNORECASE]; a
    letter then also matches its other case, and [i], [s], [k] match
    U+0130/U+0131, U+017F and U+212A.  [\d] is modelled on the ASCII
    digits. *)
Definition is_char (a : ascii) (c : N) : bool := (c =? N_of_ascii a)%N.
Arguments is_char _%_char _.

Definition ascii_lower (c : N) : N :=
  if ((65 <=? c) && (c <=? 90))%N then (c + 32)%N else c.

Definition fold_case (c : N) : N :=
  if ((c =? 304) || (c =? 305))%N then ch "i"
  else if (c =? 383)%N then ch "s"
  else if (c =? 8490)%N then ch "k"
  else ascii_lower c.

Definition is_char_i (a : ascii) (c : N) : bool :=
  (fold_case c =? fold_case (N_of_ascii a))%N.
Arguments is_char_i _%_char _.

(** [\d], on the ASCII digits.  On a [str] pattern Python's class also
    holds the decimal digits of the other scripts, which the embedding
    leaves out: a line that begins with such a digit is outside its
    scope. *)
Definition is_digit (c : N) : bool := ((48 <=? c) && (c <=? 57))%N.
Definition is_any (c : N) : bool := negb (c =? ch "010")%N.   (* [.] *)
Definition is_letter_i (c : N) : bool :=                      (* [a-z], [A-Z] *)
  let c := fold_case c in ((97 <=? c) && (c <=? 122))%N.

Definition bullet : N := 8226.   (* U+2022 *)

(** A word matched letter by letter, ignoring case. *)
Definition word_i (w : string) : regex :=
  seqs ((fun a => Chr (is_char_i a)) <$> list_ascii_of_string w).

Definition digits1 : regex := Plus (Chr is_digit).
Definition spaces0 : regex := Star (Chr isspace).
Definition spaces1 : regex := Plus (Chr isspace).
Definition rest_of_line (n : nat) : regex := Group n (Plus (Chr is_any)).

(** A pattern: the text of the Python literal, on which the source
    branches, and its reading. *)
Record Pattern := {
  pattern_source : str;
  pattern_regex : regex
}.

(* ================================================================== *)
(** ** StructureClassifier: [pdf_to_excel_app.organize_syllabus_structure] *)

Definition numbered_unit_pattern : Pattern :=
  {| pattern_source := lit "^(\d+)\.?\s*(.+)$";
     pattern_regex :=
       seqs [Group 1 digits1; Opt (Chr (is_char ".")); spaces0;
             rest_of_line 2; Eos] |}.

Definition unit_patterns : list Pattern :=
  [ numbered_unit_pattern;
    {| pattern_source := lit "^Unit\s+(\d+)[:\.]?\s*(.+)$";
       pattern_regex :=
         seqs [word_i "Unit"; spaces1; Group 1 digits1;
               Opt (Chr (fun c => is_char ":" c || is_char "." c)); spaces0;
               rest_of_line 2; Eos] |};
    {| pattern_source := lit "^([IVX]+)\.?\s*(.+)$";
       pattern_regex :=
         seqs [Group 1 (Plus (Chr (fun c => is_char_i "I" c || is_char_i "V" c
                                            || is_char_i "X" c)));
               Opt (Chr (is_char ".")); spaces0; rest_of_line 2; Eos] |};
    {| pattern_source := lit "^Chapter\s+(\d+)[:\.]?\s*(.+)$";
       pattern_regex :=
         seqs [word_i "Chapter"; spaces1; Group 1 digits1;
               Opt (Chr (fun c => is_char ":" c || is_char "." c)); spaces0;
               rest_of_line 2; Eos] |};
    {| pattern_source := lit "^PAPER[-\s]?(\d+)[:\.]?\s*(.+)$";
       pattern_regex :=
         seqs [word_i "PAPER"; Opt (Chr (fun c => is_char "-" c || isspace c));
               Group 1 digits1;
               Opt (Chr (fun c => is_char ":" c || is_char "." c)); spaces0;
               rest_of_line 2; Eos] |};
    {| pattern_source := lit "^Subject:\s*(.+)$";
       pattern_regex :=
         seqs [word_i "Subject"; Chr (is_char ":"); spaces0;
               rest_of_line 1; Eos] |};
    {| pattern_source := lit "^Code\s+No\.\s*:\s*(\d+)\s*(.+)$";
       pattern_regex :=
         seqs [word_i "Code"; spaces1; word_i "No"; Chr (is_char ".");
               spaces0; Chr (is_char ":"); spaces0; Group 1 digits1; spaces0;
               rest_of_line 2; Eos] |} ].

(** The source text of the first topic pattern holds a bullet, U+2022. *)
Definition marker_pattern : Pattern :=
  {| pattern_source := lit "^([a-z]\)|" ++ [bullet] ++ lit "|\*|\-)\s*(.+)$";
     pattern_regex :=
       seqs [Group 1 (Alt (Seq (Chr is_letter_i) (Chr (is_char ")")))
                     (Alt (Chr (fun c => (c =? bullet)%N))
                     (Alt (Chr (is_char "*")) (Chr (is_char "-")))));
             spaces0; rest_of_line 2; Eos] |}.

Definition opener_pattern (source w : string) : Pattern :=
  {| pattern_source := lit source;
     pattern_regex := seqs [word_i w; spaces1; rest_of_line 1; Eos] |}.

Definition numbered_pattern : Pattern :=
  {| pattern_source := lit "^\((\d+)\)\s*(.+)$";
     pattern_regex :=
       seqs [Chr (is_char "("); Group 1 digits1; Chr (is_char ")"); spaces0;
             rest_of_line 2; Eos] |}.

Definition topic_patterns : list Pattern :=
  [ marker_pattern;
    {| pattern_source := lit "^(\d+\.\d+)\s*(.+)$";
       pattern_regex :=
         seqs [Group 1 (seqs [digits1; Chr (is_char "."); digits1]); spaces0;
               rest_of_line 2; Eos] |};
    numbered_pattern;
    {| pattern_source := lit "^([A-Z])\.\s*(.+)$";
       pattern_regex :=
         seqs [Group 1 (Chr is_letter_i); Chr (is_char "."); spaces0;
               rest_of_line 2; Eos] |};
    opener_pattern "^The\s+(.+)$" "The";
    opener_pattern "^This\s+(.+)$" "This";
    opener_pattern "^It\s+(.+)$" "It" ].

Definition subtopic_patterns : list Pattern :=
  [ {| pattern_source := lit "^(\s{2,})(.+)$";
       pattern_regex :=
         seqs [Group 1 (seqs [Chr isspace; Chr isspace; spaces0]);
               rest_of_line 2; Eos] |};
    {| pattern_source := lit "^(\d+\.\d+\.\d+)\s*(.+)$";
       pattern_regex :=
         seqs [Group 1 (seqs [digits1; Chr (is_char "."); digits1;
                              Chr (is_char "."); digits1]); spaces0;
               rest_of_line 2; Eos] |};
    numbered_pattern ].

(** [for pattern in patterns: match = re.match(pattern, content,
    re.IGNORECASE); if match: ...; break] *)
Fixpoint first_match (patterns : list Pattern) (content : str)
    : option (Pattern * groups) :=
  match patterns with
  | [] => None
  | pattern :: rest =>
      match re_match (pattern_regex pattern) content with
      | Some m => Some (pattern, m)
      | None => first_match rest content
      end
  end.

(** A row of the input frame: [Page], [Content] and, when the frame has
    that column, [Line_Number]. *)
Record Line := {
  line_page : str;
  line_content : str;
  line_number : option Z
}.

Inductive node_type :=
| Unit_Header | Topic_Header | Subtopic_Header | Content | General_Content.

(** A row of [organized_data].  [Unit], [Topic] and [Subtopic] are cells
    of the frame built from it, on which [ffill] then works. *)
Record Node := {
  node_page : str;
  node_line_number : Z;
  node_unit : value;
  node_topic : value;
  node_subtopic : value;
  node_content : str;
  node_type_tag : node_type;
  node_level : nat
}.

(** *** [reconstruct_words_to_sentences] *)

(** [c.isupper()] and [c.isdigit()], exact up to U+00FF. *)
Definition isupper (c : N) : bool :=
  ((65 <=? c) && (c <=? 90) || (192 <=? c) && (c <=? 214)
   || (216 <=? c) && (c <=? 222))%N.

Definition isdigit (c : N) : bool :=
  ((48 <=? c) && (c <=? 57) || (c =? 178) || (c =? 179) || (c =? 185))%N.

Definition is_new_sentence (content : str) : bool :=
  match content with
  | [] => false
  | c :: _ =>
      isupper c || isdigit c
      || bool_decide (content ∈ [lit "PAPER"; lit "UNIT"; lit "Subject:";
                                 lit "Code"; lit "The"; lit "This"; lit "It"])
      || startswith (lit "(") content
      || startswith [bullet] content
  end.

(** [if current_line_words: line = ' '.join(current_line_words);
    if line.strip(): reconstructed_data.append({...})] *)
Definition flush_line (current_page : str) (current_line_words : list str)
    (reconstructed_data : list Line) : list Line :=
  match current_line_words with
  | [] => reconstructed_data
  | _ =>
      let line := join (lit " ") current_line_words in
      if bool_decide (strip line <> [])
      then reconstructed_data
           ++ [{| line_page := current_page; line_content := line;
                  line_number :=
                    Some (Z.of_nat (length reconstructed_data + 1)) |}]
      else reconstructed_data
  end.

Fixpoint reconstruct_loop (df : list Line) (reconstructed_data : list Line)
    (current_page : str) (current_line_words : list str) : list Line :=
  match df with
  | [] => flush_line current_page current_line_words reconstructed_data
  | row :: rest =>
      let content := strip (line_content row) in
      let page := line_page row in
      let '(reconstructed_data, current_page, current_line_words) :=
        if bool_decide (page <> current_page)
        then (flush_line current_page current_line_words reconstructed_data,
              page, [])
        else (reconstructed_data, current_page, current_line_words) in
      let '(reconstructed_data, current_line_words) :=
        if is_new_sentence content && bool_decide (current_line_words <> [])
        then (flush_line current_page current_line_words reconstructed_data,
              [])
        else (reconstructed_data, current_line_words) in
      reconstruct_loop rest reconstructed_data current_page
        (current_line_words ++ [content])
  end.

(** [df['Content'].str.len().mean() > 10], on a non-empty frame. *)
Definition long_on_average (df : list Line) : bool :=
  10 * length df <? sum_list ((fun row => length (line_content row)) <$> df).

Definition reconstruct_words_to_sentences (df : list Line) : list Line :=
  match df with
  | [] => df
  | _ => if long_on_average df then df else reconstruct_loop df [] [] []
  end.

(** *** Classification of one line *)

Record State := {
  current_unit : str;
  current_topic : str;
  current_subtopic : str
}.

Definition make_node (row : Line) (unit topic subtopic : str)
    (tag : node_type) (level : nat) : Node :=
  {| node_page := line_page row;
     node_line_number := default 1%Z (line_number row);
     node_unit := VStr unit; node_topic := VStr topic;
     node_subtopic := VStr subtopic;
     node_content := line_content row;
     node_type_tag := tag; node_level := level |}.

Definition unit_title (pattern : Pattern) (m : groups) : str :=
  if contains (lit "Subject:") (pattern_source pattern)
  then lit "Subject: " ++ strip (group m 1)
  else if contains (lit "Code") (pattern_source pattern)
  then lit "Code " ++ group m 1 ++ lit ": " ++ strip (group m 2)
  else lit "Unit " ++ group m 1 ++ lit ": " ++ strip (group m 2).

Definition topic_title (pattern : Pattern) (m : groups) : str :=
  if bool_decide (pattern_source pattern
                  ∈ [lit "^The\s+(.+)$"; lit "^This\s+(.+)$";
                     lit "^It\s+(.+)$"])
  then lit "Objective: " ++ strip (group m 1)
  else group m 1 ++ lit ". " ++ strip (group m 2).

Definition subtopic_title (m : groups) : str :=
  group m 1 ++ lit ". " ++ strip (group m 2).

(** The body of [for _, row in df.iterrows()]: the new state and the node
    appended to [organized_data]. *)
Definition classify (st : State) (row : Line) : State * Node :=
  let content := line_content row in
  match first_match unit_patterns content with
  | Some (pattern, m) =>
      let unit := unit_title pattern m in
      ({| current_unit := unit; current_topic := []; current_subtopic := [] |},
       make_node row unit [] [] Unit_Header 1)
  | None =>
  match first_match topic_patterns content with
  | Some (pattern, m) =>
      let topic := topic_title pattern m in
      ({| current_unit := current_unit st; current_topic := topic;
          current_subtopic := [] |},
       make_node row (current_unit st) topic [] Topic_Header 2)
  | None =>
  match first_match subtopic_patterns content with
  | Some (_, m) =>
      let subtopic := subtopic_title m in
      ({| current_unit := current_unit st; current_topic := current_topic st;
          current_subtopic := subtopic |},
       make_node row (current_unit st) (current_topic st) subtopic
         Subtopic_Header 3)
  | None =>
      match current_unit st with
      | _ :: _ =>
          (st, make_node row (current_unit st) (current_topic st)
                 (current_subtopic st) Content
                 (match current_subtopic st, current_topic st with
                  | _ :: _, _ => 4
                  | [], _ :: _ => 3
                  | [], [] => 2
                  end))
      | [] => (st, make_node row [] [] [] General_Content 1)
      end
  end end end.

Fixpoint classify_all (st : State) (df : list Line) : list Node :=
  match df with
  | [] => []
  | row :: rest =>
      let '(st', node) := classify st row in
      node :: classify_all st' rest
  end.

(** *** The forward-fill pass *)

(** [Series.ffill()]: a missing value ([None]/[NaN]) takes the last valid
    value before it; any other cell, the empty string included, stays. *)
Fixpoint ffill_from (last_valid : value) (column : list value) : list value :=
  match column with
  | [] => []
  | VNone :: column' => last_valid :: ffill_from last_valid column'
  | v :: column' => v :: ffill_from v column'
  end.

Definition ffill (column : list value) : list value := ffill_from VNone column.

Definition set_unit (n : Node) (v : value) : Node :=
  {| node_page := node_page n; node_line_number := node_line_number n;
     node_unit := v; node_topic := node_topic n;
     node_subtopic := node_subtopic n; node_content := node_content n;
     node_type_tag := node_type_tag n; node_level := node_level n |}.

Definition set_topic (n : Node) (v : value) : Node :=
  {| node_page := node_page n; node_line_number := node_line_number n;
     node_unit := node_unit n; node_topic := v;
     node_subtopic := node_subtopic n; node_content := node_content n;
     node_type_tag := node_type_tag n; node_level := node_level n |}.

Definition set_subtopic (n : Node) (v : value) : Node :=
  {| node_page := node_page n; node_line_number := node_line_number n;
     node_unit := node_unit n; node_topic := node_topic n;
     node_subtopic := v; node_content := node_content n;
     node_type_tag := node_type_tag n; node_level := node_level n |}.

(** [organized_df['Unit'] = organized_df['Unit'].ffill()], and likewise for
    [Topic] and [Subtopic]. *)
Definition forward_fill (organized : list Node) : list Node :=
  let organized := zip_with set_unit organized (ffill (node_unit <$> organized)) in
  let organized := zip_with set_topic organized (ffill (node_topic <$> organized)) in
  zip_with set_subtopic organized (ffill (node_subtopic <$> organized)).

Definition initial_state : State :=
  {| current_unit := []; current_topic := []; current_subtopic := [] |}.

(** The nodes as they stand before the forward-fill pass. *)
Definition organized_data (df : list Line) : list Node :=
  classify_all initial_state (reconstruct_words_to_sentences df).

(** [organize_syllabus_structure(df)].  An empty frame is returned as it
    is; a frame whose reconstruction leaves no row yields a frame without
    columns, on which [organized_df['Unit']] raises [KeyError]. *)
Definition organize_syllabus_structure (df : list Line) : exc (list Node) :=
  match df with
  | [] => Ok []
  | _ =>
      match organized_data df with
      | [] => Raise KeyError
      | organized => Ok (forward_fill organized)
      end
  end.

(* ================================================================== *)
(** ** The sibling classifier: [syllabus_pdf_converter] *)

Inductive syllabus_level :=
| Level_Unit | Level_Topic | Level_Subtopic | Level_Content | Level_General.

#[global] Instance syllabus_level_eq_dec : EqDecision syllabus_level.
Proof. solve_decision. Defined.

(** A row of [data]: [Page], [Unit], [Topic], [Subtopic], [Content],
    [Level]. *)
Record SyllabusRow := {
  row_page : nat;
  row_unit : value;
  row_topic : value;
  row_subtopic : value;
  row_content : str;
  row_level : syllabus_level
}.

Definition syllabus_row (page_num : nat) (unit topic subtopic line : str)
    (level : syllabus_level) : SyllabusRow :=
  {| row_page := page_num; row_unit := VStr unit; row_topic := VStr topic;
     row_subtopic := VStr subtopic; row_content := line; row_level := level |}.

(** [^(\s+)(.+)$] *)
Definition indented_regex : regex :=
  seqs [Group 1 spaces1; rest_of_line 2; Eos].

(** The classification of one stripped non-empty line (source lines
    70-134 of [extract_syllabus_structure]). *)
Definition syllabus_line (page_num : nat) (st : State) (line : str)
    : State * SyllabusRow :=
  match re_match (pattern_regex numbered_unit_pattern) line with
  | Some unit_match =>
      let unit :=
        lit "Unit " ++ group unit_match 1 ++ lit ": "
        ++ strip (group unit_match 2) in
      ({| current_unit := unit; current_topic := []; current_subtopic := [] |},
       syllabus_row page_num unit [] [] line Level_Unit)
  | None =>
  match re_match (pattern_regex marker_pattern) line with
  | Some topic_match =>
      let topic := strip (group topic_match 2) in
      ({| current_unit := current_unit st; current_topic := topic;
          current_subtopic := [] |},
       syllabus_row page_num (current_unit st) topic [] line Level_Topic)
  | None =>
  match re_match indented_regex line, current_topic st with
  | Some subtopic_match, _ :: _ =>
      let subtopic := strip (group subtopic_match 2) in
      ({| current_unit := current_unit st; current_topic := current_topic st;
          current_subtopic := subtopic |},
       syllabus_row page_num (current_unit st) (current_topic st) subtopic
         line Level_Subtopic)
  | _, _ =>
      match current_unit st with
      | _ :: _ =>
          (st, syllabus_row page_num (current_unit st) (current_topic st)
                 (current_subtopic st) line Level_Content)
      | [] => (st, syllabus_row page_num [] [] [] line Level_General)
      end
  end end end.

(** [for line in lines: line = line.strip(); if not line: continue; ...] *)
Fixpoint syllabus_lines (page_num : nat) (st : State) (lines : list str)
    (data : list SyllabusRow) : State * list SyllabusRow :=
  match lines with
  | [] => (st, data)
  | line :: rest =>
      match strip line with
      | [] => syllabus_lines page_num st rest data
      | line =>
          let '(st', row) := syllabus_line page_num st line in
          syllabus_lines page_num st' rest (data ++ [row])
      end
  end.

(** [for page_num, page in enumerate(pdf.pages, 1)]: a page whose text
    extraction raises is skipped. *)
Fixpoint syllabus_pages (page_num : nat) (pages : list Page) (st : State)
    (data : list SyllabusRow) : list SyllabusRow :=
  match pages with
  | [] => data
  | page :: rest =>
      match page_extract_text page with
      | Ok (Some t) =>
          if truthy (Some t)
          then let '(st', data') :=
                 syllabus_lines page_num st (split_sep [ch "010"] t) data in
               syllabus_pages (S page_num) rest st' data'
          else syllabus_pages (S page_num) rest st data
      | Ok None | Raise _ => syllabus_pages (S page_num) rest st data
      end
  end.

(** [extract_syllabus_structure(pdf_path)]; the empty list stands for the
    empty frame returned when nothing was extracted or the file could not
    be opened. *)
Definition extract_syllabus_structure (d : Pdf) : list SyllabusRow :=
  match open_pdf d with
  | Ok pages => syllabus_pages 1 pages initial_state []
  | Raise _ => []
  end.

Definition set_row_unit (r : SyllabusRow) (v : value) : SyllabusRow :=
  {| row_page := row_page r; row_unit := v; row_topic := row_topic r;
     row_subtopic := row_subtopic r; row_content := row_content r;
     row_level := row_level r |}.

Definition set_row_topic (r : SyllabusRow) (v : value) : SyllabusRow :=
  {| row_page := row_page r; row_unit := row_unit r; row_topic := v;
     row_subtopic := row_subtopic r; row_content := row_content r;
     row_level := row_level r |}.

(** [organize_syllabus_data(df)] on a frame with a [Unit] column: short
    lines are dropped, [Unit] and [Topic] are forward-filled, and the rows
    of level Unit, Topic or Subtopic are kept. *)
Definition organize_syllabus_data (df : list SyllabusRow) : list SyllabusRow :=
  match df with
  | [] => []
  | _ =>
      let df := filter (fun r => 2 < length (row_content r)) df in
      let df := zip_with set_row_unit df (ffill (row_unit <$> df)) in
      let df := zip_with set_row_topic df (ffill (row_topic <$> df)) in
      filter (fun r => row_level r ∈ [Level_Unit; Level_Topic; Level_Subtopic])
             df
  end.

(** *** [PDFExtractor.extract_all_text]

    The text of each page as a one-column table; its loop is the loop of
    the fallback of [extract_text_tables]. *)
Definition extract_all_text (d : Pdf) : list DataFrame :=
  match open_pdf d with
  | Ok pages => fallback_text_loop 1 pages []
  | Raise _ => []
  end.

(* ================================================================== *)
(** ** [utils.helpers.sanitize_filename] *)

(** [invalid_chars]: the characters [< > :], the double quote (U+0022,
    given here by its code point) and [/ \ | ? *]. *)
Definition filename_invalid_chars : list N :=
  [ch "<"; ch ">"; ch ":"; 34%N; ch "/"; ch "\"; ch "|"; ch "?"; ch "*"].

(** [for char in invalid_chars: filename = filename.replace(char, '_')] *)
Definition replace_filename_invalid (filename : list N) : list N :=
  fold_left (fun f char => replace_char char (ch "_") f)
            filename_invalid_chars filename.

(** [s.strip(chars)]: the characters of [chars] are removed from both
    ends. *)
Fixpoint lstrip_chars (chars s : list N) : list N :=
  match s with
  | [] => []
  | c :: s' => if bool_decide (c ∈ chars) then lstrip_chars chars s' else s
  end.

Fixpoint rstrip_chars (chars s : list N) : list N :=
  match s with
  | [] => []
  | c :: s' =>
      match rstrip_chars chars s' with
      | [] => if bool_decide (c ∈ chars) then [] else [c]
      | r => c :: r
      end
  end.

Definition strip_chars (chars s : list N) : list N :=
  rstrip_chars chars (lstrip_chars chars s).

(** [s.rfind(c)] for a character [c]: the index of its last occurrence. *)
Fixpoint rfind (c : N) (s : list N) : option nat :=
  match s with
  | [] => None
  | x :: s' =>
      match rfind c s' with
      | Some i => Some (S i)
      | None => if (x =? c)%N then Some 0 else None
      end
  end.

(** [os.path.splitext(p)] for a [p] without path separator (here every
    [/] and [\] has been replaced): the extension starts at the last dot,
    provided a character other than a dot stands before it. *)
Definition splitext (p : list N) : list N * list N :=
  match rfind (ch ".") p with
  | Some dotIndex =>
      if existsb (fun c => negb (c =? ch ".")%N) (take dotIndex p)
      then (take dotIndex p, drop dotIndex p)
      else (p, [])
  | None => (p, [])
  end.

(** [s[:k]] for an integer [k]: a negative [k] counts from the end. *)
Definition slice_to (k : Z) (s : list N) : list N :=
  if (0 <=? k)%Z then take (Z.to_nat k) s
  else take (Z.to_nat (Z.of_nat (length s) + k)) s.

Definition sanitize_filename (filename : list N) : list N :=
  let filename := replace_filename_invalid filename in
  let filename := strip_chars (lit ". ") filename in
  if 200 <? length filename
  then let '(name, ext) := splitext filename in
       slice_to (200 - Z.of_nat (length ext)) name ++ ext
  else filename.

(* ================================================================== *)
(** ** [enhanced_pdf_converter.extract_tables_enhanced] *)

(** The cell as it is appended to [cleaned_row]: its stripped text, the
    empty string for [None]. *)
Definition cleaned_cell (cell : option (list N)) : list N :=
  match cell with
  | Some s => strip s
  | None => []
  end.

(** [any(cell for cell in cleaned_row)] *)
Definition any_cell (cleaned_row : list (list N)) : bool :=
  existsb (fun cell => bool_decide (cell <> [])) cleaned_row.

Definition cleaned_table (table : list (list (option (list N))))
    : list (list (list N)) :=
  filter (fun cleaned_row => any_cell cleaned_row)
         (fmap (M:=list) cleaned_cell <$> table).

(** The argument is what [page.extract_tables(settings)] yields; when the
    call raises, the function returns the empty list. *)
Definition extract_tables_enhanced
    (extracted_tables : exc (list (list (list (option (list N))))))
    : list (list (list (list N))) :=
  match extracted_tables with
  | Raise _ => []
  | Ok extracted_tables =>
      filter (fun cleaned : list (list (list N)) => cleaned <> [])
        (cleaned_table <$> filter (fun table : list (list (option (list N))) =>
                                     table <> []) extracted_tables)
  end.

(* ================================================================== *)
(** ** [ExcelConverter.convert_to_excel]: the order of the columns *)

(** Source lines 125-134: [Page] and [Table_Index] first when the frame
    has them, then the other columns in their order. *)
Definition column_order (cols : list (list N)) : list (list N) :=
  let column_order := [] in
  let column_order :=
    if bool_decide (lit "Page" ∈ cols) then column_order ++ [lit "Page"]
    else column_order in
  let column_order :=
    if bool_decide (lit "Table_Index" ∈ cols)
    then column_order ++ [lit "Table_Index"]
    else column_order in
  fold_left (fun column_order col =>
               if bool_decide (col ∈ column_order) then column_order
               else column_order ++ [col]) cols column_order.

(* ================================================================== *)
(** ** Specification vocabulary for the pipeline *)

(** The page values [1 .. total_pages]. *)
Definition page_range (total_pages : nat) : gset value :=
  list_to_set ((fun p => VInt (Z.of_nat p)) <$> seq 1 total_pages).

(** The page a segment belongs to: the first cell of its [Page] column,
    when that is a number. *)
Definition segment_page (t : DataFrame) : option Z :=
  match column_values (lit "Page") t with
  | VInt z :: _ => Some z
  | _ => None
  end.

(** The segments follow one another by increasing page number. *)
Definition in_page_order (segments : list DataFrame) : Prop :=
  forall i j t u p q,
    i < j -> segments !! i = Some t -> segments !! j = Some u ->
    segment_page t = Some p -> segment_page u = Some q -> (p <= q)%Z.

(** Every cell of a [Content_Type] column is a string. *)
Definition typed_content (t : DataFrame) : Prop :=
  Forall (fun v => exists s, v = VStr s) (column_values (lit "Content_Type") t).

(** [row] is the summary record of page [page_num]: its number, the tag
    Page_Summary, the number of items of the tables on that page and,
    when there are such tables, their distinct content types joined by
    commas. *)
Definition page_summary_of (all_tables : list DataFrame) (page_num : nat)
    (row : list value) : Prop :=
  exists text types,
    row = [VInt (Z.of_nat page_num); VStr (lit "Page_Summary"); VStr text;
           VInt (Z.of_nat (sum_list
                   (df_len <$> filter (fun t => on_page page_num t) all_tables)));
           VStr types; VStr (lit "consolidated_summary")] /\
    ((filter (fun t => on_page page_num t) all_tables = [] /\ types = lit "None")
     \/ exists items,
          types = join (lit ", ") items /\ NoDup items /\
          forall ty, ty ∈ items <->
            exists t, t ∈ all_tables /\ on_page page_num t = true /\
                      has_column (lit "Content_Type") t = true /\
                      VStr ty ∈ column_values (lit "Content_Type") t).

(** A page that yields no tables, no text, no words and no images. *)
Definition yields_nothing (page : Page) : Prop :=
  page_extract_tables page = Ok []
  /\ (exists text, page_extract_text page = Ok text /\ truthy text = false)
  /\ page_extract_words page = []
  /\ page_images page = [].

(** A frame that cannot be mistaken for the Empty_Page placeholder: its
    header is another one. *)
Definition not_placeholder (t : DataFrame) : Prop :=
  columns t <> columns (empty_page_placeholder 0).

(** A node none of whose ancestry fields is a missing value. *)
Definition string_fields (n : Node) : Prop :=
  node_unit n <> VNone /\ node_topic n <> VNone /\ node_subtopic n <> VNone.

(** A frame all of whose page values are page numbers of a document of
    [n] pages. *)
Definition in_range (n : nat) (t : DataFrame) : Prop :=
  page_values t ⊆ page_range n.

(** A frame whose column labels are pairwise distinct and include [Page]
    and [Table_Index]. *)
Definition well_labelled (t : DataFrame) : Prop :=
  NoDup (columns t) /\ lit "Page" ∈ columns t /\ lit "Table_Index" ∈ columns t.

(** A page whose text layer holds whitespace only and on which no word is
    found. *)
Definition whitespace_only (page : Page) : Prop :=
  page_extract_words page = [] /\
  exists t, page_extract_text page = Ok (Some t) /\ t <> [] /\ strip t = [].

(** A page on which [extract_page_content] finds text, words or images. *)
Definition has_residual_content (page : Page) : Prop :=
  exists text, page_extract_text page = Ok text /\
    (truthy text = true \/ page_extract_words page <> []
     \/ page_images page <> []).

(** What the text of a page counts for in the cumulative detector: the
    length of its stripped text, and nothing when the page has no text. *)
Definition stripped_length (page : Page) : nat :=
  match page_extract_text page with
  | Ok (Some t) => length (strip t)
  | _ => 0
  end.

(** The type, the level and the ancestry fields of a node agree: a header
    carries the title of its own rank and none below it; a content line
    lies in a unit, one level below the deepest title it carries; a line
    before the first unit carries no title. *)
Definition consistent (n : Node) : Prop :=
  match node_type_tag n with
  | Unit_Header =>
      node_level n = 1 /\ node_unit n <> VStr [] /\
      node_topic n = VStr [] /\ node_subtopic n = VStr []
  | Topic_Header =>
      node_level n = 2 /\ node_topic n <> VStr [] /\ node_subtopic n = VStr []
  | Subtopic_Header => node_level n = 3 /\ node_subtopic n <> VStr []
  | Content =>
      node_unit n <> VStr [] /\
      node_level n = match node_subtopic n, node_topic n with
                     | VStr (_ :: _), _ => 4
                     | _, VStr (_ :: _) => 3
                     | _, _ => 2
                     end
  | General_Content =>
      node_level n = 1 /\ node_unit n = VStr [] /\
      node_topic n = VStr [] /\ node_subtopic n = VStr []
  end.

(** The file name after the replacement and the stripping, before its
    length is looked at, and the extension [os.path.splitext] finds in
    it. *)
Definition filename_cleaned (filename : list N) : list N :=
  strip_chars (lit ". ") (replace_filename_invalid filename).

Definition filename_extension (filename : list N) : list N :=
  (splitext (filename_cleaned filename)).2.

(** A line as the extractors of the application hand it to the
    classifier: a piece of a text split at line breaks, stripped. *)
Definition plain_line (content : list N) : Prop :=
  (ch "010" ∉ content) /\ strip content = content.

(** *** Example documents *)

Definition plain_page (text : string) : Page :=
  {| page_extract_tables := Ok [];
     page_extract_text := Ok (Some (lit text));
     page_extract_words :=
       [{| word_text := lit text; word_x0 := 72; word_top := 72;
           word_width := 300; word_height := 12 |}];
     page_images := []; page_annots := [];
     page_image_to_string := Ok (lit text) |}.

Definition blank_page : Page :=
  {| page_extract_tables := Ok [];
     page_extract_text := Ok None;
     page_extract_words := []; page_images := []; page_annots := [];
     page_image_to_string := Ok [] |}.

(** A page whose text cannot be extracted. *)
Definition broken_page : Page :=
  {| page_extract_tables := Ok [];
     page_extract_text := Raise ValueError;
     page_extract_words := []; page_images := []; page_annots := [];
     page_image_to_string := Ok [] |}.

(** A contents page: one table whose header row reads Topic, Page. *)
Definition contents_page : Page :=
  {| page_extract_tables :=
       Ok [[[Some (lit "Topic"); Some (lit "Page")];
            [Some (lit "Introduction"); Some (lit "12")]]];
     page_extract_text :=
       Ok (Some (lit "Table of contents of the course syllabus, with page numbers"));
     page_extract_words := []; page_images := []; page_annots := [];
     page_image_to_string := Ok [] |}.

Definition document (pages : list Page) : Pdf :=
  {| path_exists := true; opens := true; rasterizes := true;
     pdf_pages := pages |}.

Definition two_page_document : Pdf :=
  document [plain_page "The first page of the document carries one line of text.";
            plain_page "The second page of the document carries another line."].

Definition blank_middle_document : Pdf :=
  document [plain_page "The first page of the document carries one line of text.";
            blank_page;
            plain_page "The third page of the document carries the last line."].

Definition contents_document : Pdf := document [contents_page].

Definition broken_document : Pdf := document [broken_page].

(** The header row of the specification's example. *)
Definition name_headers : list cell :=
  [CNone; CStr (lit "Name"); CStr (lit "Name")].

(** Two columns with the same 50-character header. *)
Definition long_headers : list cell :=
  [CStr (lit "Opening balance carried forward from previous year");
   CStr (lit "Opening balance carried forward from previous year")].

Definition text_line (page : str) (number : option Z) (content : string)
    : Line :=
  {| line_page := page; line_content := lit content; line_number := number |}.

(** The line sequence of the specification's example, and one in which a
    second unit follows the topic. *)
Definition introduction_lines (page : str) (n1 n2 n3 : option Z) : list Line :=
  [text_line page n1 "1. Introduction"; text_line page n2 "a) Overview";
   text_line page n3 "Some detail text"].

Definition methods_lines : list Line :=
  [text_line (lit "Page 1") (Some 1%Z) "1. Introduction";
   text_line (lit "Page 1") (Some 2%Z) "a) Overview";
   text_line (lit "Page 1") (Some 3%Z) "2. Methods and materials"].

(** The same three lines as the text of a one-page document. *)
Definition introduction_document : Pdf :=
  document
    [{| page_extract_tables := Ok [];
        page_extract_text :=
          Ok (Some (lit "1. Introduction" ++ [ch "010"] ++ lit "a) Overview"
                    ++ [ch "010"] ++ lit "Some detail text"));
        page_extract_words := []; page_images := []; page_annots := [];
        page_image_to_string := Ok [] |}].

(** A one-page scan: the page has a text layer of one blank and nothing
    else, and OCR finds nothing either. *)
Definition whitespace_document : Pdf :=
  document
    [{| page_extract_tables := Ok [];
        page_extract_text := Ok (Some (lit " "));
        page_extract_words := []; page_images := []; page_annots := [];
        page_image_to_string := Ok [] |}].

(** A table of three rows, the second of which is blank. *)
Definition contents_table : list (list (option (list N))) :=
  [[Some (lit "Topic"); Some (lit "Page")];
   [None; Some (lit " ")];
   [Some (lit "Introduction"); Some (lit "12")]].

(** Three lines read by OCR: two with columns set apart by two blanks or
    more, and one without. *)
Definition ocr_lines : list (list N) :=
  [lit "Name  Age"; lit "Total"; lit "Bob   42"].

(** The page of [whitespace_document]. *)
Definition whitespace_page : Page :=
  {| page_extract_tables := Ok [];
     page_extract_text := Ok (Some (lit " "));
     page_extract_words := []; page_images := []; page_annots := [];
     page_image_to_string := Ok [] |}.

(** A frame of single words: two sentences on one page. *)
Definition word_lines : list Line :=
  [text_line (lit "Page 1") None "Unit"; text_line (lit "Page 1") None "one";
   text_line (lit "Page 1") None "covers"; text_line (lit "Page 1") None "sets";
   text_line (lit "Page 1") None "This"; text_line (lit "Page 1") None "is";
   text_line (lit "Page 1") None "all"].

(** Lines of a numbered outline. *)
Definition numbered_lines : list Line :=
  [text_line (lit "Page 1") (Some 1%Z) "Unit 1: Set theory";
   text_line (lit "Page 1") (Some 2%Z) "1.1 Sets and their elements";
   text_line (lit "Page 1") (Some 3%Z) "1.1.1 The empty set";
   text_line (lit "Page 1") (Some 4%Z) "(2) Relations between sets"].

(** Two pages of 30 characters each. *)
Definition short_pages_document : Pdf :=
  document [plain_page "Thirty characters of text here";
            plain_page "Thirty characters of text here"].

(** A page whose text cannot be read, before a page with a long text. *)
Definition unreadable_first_document : Pdf :=
  document [broken_page;
            plain_page "The second page of the document carries another line."].

(** *** Proof automation *)

(** Closes a decidable closed goal by evaluating its decision procedure. *)
Ltac decide_by_computation :=
  match goal with
  | |- ?P => apply (bool_decide_unpack P); vm_compute; exact I
  end.

(** Splits a goal about [classify] along the branches of the function. *)
Ltac classify_cases :=
  unfold classify;
  repeat match goal with
         | |- context [match ?x with _ => _ end] => destruct x eqn:?
         end.

(* ================================================================== *)
(** * Properties *)

(** ** Strings *)

Lemma lit_inj (s t : string) : lit s = lit t -> s = t.
Proof.
  unfold lit. intros H.
  rewrite <- (string_of_list_ascii_of_string s).
  rewrite <- (string_of_list_ascii_of_string t).
  f_equal.
  revert H. generalize (list_ascii_of_string s) (list_ascii_of_string t).
  induction l as [|a l IH]; intros [|b l']; simpl; intros H; try discriminate.
  - reflexivity.
  - injection H as Hab Hl.
    rewrite <- (ascii_N_embedding a), <- (ascii_N_embedding b), Hab.
    f_equal. auto.
Qed.

Lemma dec_inj (m n : nat) : dec m = dec n -> m = n.
Proof.
  unfold dec. intros H%lit_inj.
  assert (Hu : Nat.to_uint m = Nat.to_uint n).
  { assert (Some (Nat.to_uint m) = Some (Nat.to_uint n)) as [= ->]; [|done].
    rewrite <- !NilEmpty.usu. by rewrite H. }
  rewrite <- (Unsigned.of_to m), <- (Unsigned.of_to n). by rewrite Hu.
Qed.

Lemma candidate_inj (o : list N) (j k : nat) :
  candidate o j = candidate o k -> j = k.
Proof.
  destruct j as [|j], k as [|k]; simpl; intros H; try done.
  - apply (f_equal length) in H. rewrite !length_app in H. simpl in H. lia.
  - apply (f_equal length) in H. rewrite !length_app in H. simpl in H. lia.
  - apply app_inv_head in H. injection H as H. by apply dec_inj.
Qed.

(** ** HeaderSanitizer *)

(** The loop returns one of the candidate labels. *)
Lemma while_seen_candidate fuel seen (o : list N) j :
  exists k, j <= k /\
    while_seen fuel seen o (candidate o j) (S j) = candidate o k /\
    forall i, j <= i < k -> candidate o i ∈ seen.
Proof.
  revert j. induction fuel as [|fuel IH]; intros j; simpl.
  - exists j. split_and!; [lia|done|lia].
  - case_bool_decide as Hin.
    + destruct (IH (S j)) as (k & Hk & Heq & Hbelow).
      exists k. split_and!; [lia|exact Heq|].
      intros i Hi. destruct (decide (i = j)) as [->|]; [done|].
      apply Hbelow. lia.
    + exists j. split_and!; [lia|done|lia].
Qed.

(** If the loop ends on a label that is still taken, every candidate it
    went through is taken. *)
Lemma while_seen_taken fuel seen (o : list N) j :
  while_seen fuel seen o (candidate o j) (S j) ∈ seen ->
  forall i, j <= i <= j + fuel -> candidate o i ∈ seen.
Proof.
  revert j. induction fuel as [|fuel IH]; intros j; simpl.
  - intros H i Hi. by replace i with j by lia.
  - case_bool_decide as Hin; [|done].
    intros H i Hi. destruct (decide (i = j)) as [->|]; [done|].
    apply (IH (S j) H). lia.
Qed.

(** The while loop of the source terminates on a free label: the bound of
    [dedup] is large enough. *)
Lemma while_seen_free (seen : gset (list N)) (h : list N) : dedup seen h ∉ seen.
Proof.
  unfold dedup. intros Hin.
  pose proof (while_seen_taken (S (size seen)) seen h 0 Hin) as Hall.
  set (cands := candidate h <$> seq 0 (S (size seen))).
  assert (Hnd : NoDup cands).
  { apply NoDup_fmap_2_strong; [|apply NoDup_seq].
    intros x y _ _. apply candidate_inj. }
  assert (Hsub : (list_to_set cands : gset (list N)) ⊆ seen).
  { intros x [i [-> Hi]]%elem_of_list_to_set%list_elem_of_fmap.
    apply elem_of_seq in Hi. apply Hall. lia. }
  apply subseteq_size in Hsub.
  rewrite size_list_to_set in Hsub by done.
  unfold cands in Hsub. rewrite length_fmap, length_seq in Hsub. lia.
Qed.

Lemma dedup_candidate (seen : gset (list N)) (h : list N) :
  exists k, dedup seen h = candidate h k.
Proof.
  destruct (while_seen_candidate (S (size seen)) seen h 0) as (k & _ & Hk & _).
  by exists k.
Qed.

Lemma dedup_not_seen (seen : gset (list N)) (h : list N) :
  h ∉ seen -> dedup seen h = h.
Proof.
  intros Hn. unfold dedup. simpl. by rewrite bool_decide_eq_false_2.
Qed.

Lemma clean_loop_fresh headers : forall i seen,
  NoDup (clean_loop i headers seen) /\
  forall x, x ∈ clean_loop i headers seen -> x ∉ seen.
Proof.
  induction headers as [|header rest IH]; intros i seen; simpl.
  - split; [constructor|]. intros x Hx. by inversion Hx.
  - set (h := match clean_header i header with
              | Ok header0 => dedup seen header0
              | Raise _ => dedup seen (column_label i)
              end).
    assert (Hh : h ∉ seen).
    { unfold h. destruct (clean_header i header); apply while_seen_free. }
    destruct (IH (S i) ({[h]} ∪ seen)) as [Hnd Hout].
    split.
    + constructor; [|done]. intros Hin%Hout. set_solver.
    + intros x [->|Hx]%elem_of_cons; [done|].
      apply Hout in Hx. set_solver.
Qed.

(** C4: within one sanitized header row, no two labels are equal. *)
Theorem clean_column_names_NoDup (headers : list cell) :
  NoDup (_clean_column_names headers).
Proof. apply clean_loop_fresh. Qed.

Lemma clean_loop_length headers : forall i seen,
  length (clean_loop i headers seen) = length headers.
Proof. induction headers; intros; simpl; [done|]. by rewrite IHheaders. Qed.

(** The loop ends on the first candidate that is not taken. *)
Lemma dedup_first_free (seen : gset (list N)) (h : list N) :
  exists k, dedup seen h = candidate h k /\
            (forall m, m < k -> candidate h m ∈ seen) /\
            candidate h k ∉ seen.
Proof.
  destruct (while_seen_candidate (S (size seen)) seen h 0)
    as (k & _ & Hk & Hbelow).
  exists k. split_and!; [done| |].
  - intros m Hm. apply Hbelow. lia.
  - change (candidate h 0) with h in Hk. fold (dedup seen h) in Hk.
    rewrite <- Hk. apply while_seen_free.
Qed.

Lemma clean_loop_lookup headers : forall i seen j header,
  headers !! j = Some header ->
  let b := base_label (i + j) header in
  let earlier : gset (list N) :=
    seen ∪ list_to_set (take j (clean_loop i headers seen)) in
  exists k, clean_loop i headers seen !! j = Some (candidate b k) /\
            (forall m, m < k -> candidate b m ∈ earlier) /\
            candidate b k ∉ earlier.
Proof.
  induction headers as [|h0 rest IH]; intros i seen j header Hj; [done|].
  destruct j as [|j]; simpl in *.
  - injection Hj as ->. rewrite Nat.add_0_r. unfold base_label.
    rewrite union_empty_r_L.
    destruct (clean_header i header) as [h|e].
    + destruct (dedup_first_free seen h) as (k & -> & Hbelow & Hfree).
      by exists k.
    + destruct (dedup_first_free seen (column_label i))
        as (k & -> & Hbelow & Hfree).
      by exists k.
  - replace (i + S j) with (S i + j) by lia.
    set (h := match clean_header i h0 with
              | Ok header0 => dedup seen header0
              | Raise _ => dedup seen (column_label i)
              end).
    destruct (IH (S i) ({[h]} ∪ seen) j header Hj) as (k & Hk & Hbelow & Hfree).
    exists k. split; [done|].
    assert (Heq : seen ∪ ({[h]} ∪ list_to_set
                    (take j (clean_loop (S i) rest ({[h]} ∪ seen))))
                  = ({[h]} ∪ seen) ∪ list_to_set
                    (take j (clean_loop (S i) rest ({[h]} ∪ seen)))
                  :> gset (list N)) by set_solver.
    rewrite Heq. by split.
Qed.

(** C10: the sanitizer returns one label per input cell, in order; the
    label at position [i] is the base label of the cell at position [i]
    (its cleaned text, or [Column_{i+1}] for a [None], blank or failing
    cell), followed by the first de-duplication suffix [_k] that makes it
    differ from the labels before it (none when the base label is free). *)
Theorem clean_column_names_positional (headers : list cell) :
  length (_clean_column_names headers) = length headers /\
  forall i header, headers !! i = Some header ->
    let b := base_label i header in
    exists k, _clean_column_names headers !! i = Some (candidate b k) /\
              (forall m, m < k ->
                 candidate b m ∈ take i (_clean_column_names headers)) /\
              candidate b k ∉ take i (_clean_column_names headers).
Proof.
  split; [apply clean_loop_length|].
  intros i header Hi.
  destruct (clean_loop_lookup headers 0 ∅ i header Hi) as (k & Hk & Hbelow & Hfree).
  exists k. split; [done|]. unfold _clean_column_names. split.
  - intros m Hm. specialize (Hbelow m Hm). set_solver.
  - set_solver.
Qed.

(** *** Labels are tidy, and tidy labels of at most 50 characters are fixed
    points of the cleaning *)

Lemma isspace_blank : isspace (ch " ") = true.
Proof. reflexivity. Qed.

Lemma nonspace_not_blank c : isspace c = false -> (c =? ch " ")%N = false.
Proof.
  intros H. destruct (N.eqb_spec c (ch " ")) as [->|]; [|done].
  by rewrite isspace_blank in H.
Qed.

Lemma spaced_false_of_true s : spaced true s = true -> spaced false s = true.
Proof.
  destruct s as [|c s]; simpl; [done|].
  destruct (c =? ch " ")%N; simpl; [done|tauto].
Qed.

Lemma spaced_nonempty s : spaced true s = true -> s <> [].
Proof. by destruct s. Qed.

Lemma spaced_app_word b (w s : list N) :
  Forall (fun c => isspace c = false) w ->
  spaced b (w ++ s) = match w with [] => spaced b s | _ => spaced false s end.
Proof.
  intros Hw. revert b. induction Hw as [|c w Hc Hw IH]; intros b; [done|].
  simpl. rewrite (nonspace_not_blank c Hc), Hc. simpl.
  rewrite IH. by destruct w.
Qed.

Lemma spaced_word b (w : list N) :
  Forall (fun c => isspace c = false) w -> w <> [] -> spaced b w = true.
Proof.
  intros Hw Hne. rewrite <- (app_nil_r w), spaced_app_word by done.
  by destruct w.
Qed.

Lemma spaced_false_word (w : list N) :
  Forall (fun c => isspace c = false) w -> spaced false w = true.
Proof.
  intros Hw. destruct w as [|c w]; [done|]. by apply spaced_word.
Qed.

Lemma spaced_app_suffix b (s w : list N) :
  spaced b s = true -> Forall (fun c => isspace c = false) w ->
  spaced b (s ++ w) = true.
Proof.
  intros Hs Hw. revert b Hs. induction s as [|c s IH]; intros b Hs; simpl in *.
  - destruct b; [done|]. by apply spaced_false_word.
  - destruct (c =? ch " ")%N.
    + apply andb_true_iff in Hs as [-> Hs]. simpl. by apply IH.
    + apply andb_true_iff in Hs as [-> Hs]. simpl. by apply IH.
Qed.

Lemma spaced_take_word b n (s w : list N) :
  spaced b s = true -> Forall (fun c => isspace c = false) w -> w <> [] ->
  spaced b (take n s ++ w) = true.
Proof.
  intros Hs Hw Hne. revert b n Hs.
  induction s as [|c s IH]; intros b n Hs.
  - rewrite take_nil. simpl. by apply spaced_word.
  - destruct n as [|n]; simpl in *; [by apply spaced_word|].
    destruct (c =? ch " ")%N.
    + apply andb_true_iff in Hs as [-> Hs]. simpl. by apply IH.
    + apply andb_true_iff in Hs as [-> Hs]. simpl. by apply IH.
Qed.

Lemma lstrip_spaced s : spaced true s = true -> lstrip s = s.
Proof.
  destruct s as [|c s]; simpl; [done|].
  destruct (N.eqb_spec c (ch " ")) as [->|Hc]; simpl; [done|].
  intros [Hsp _]%andb_true_iff. by apply negb_true_iff in Hsp as ->.
Qed.

Lemma rstrip_spaced b s : spaced b s = true -> rstrip s = s.
Proof.
  revert b. induction s as [|c s IH]; intros b; simpl; [done|].
  destruct (c =? ch " ")%N.
  - intros [_ Hs]%andb_true_iff. rewrite (IH _ Hs).
    destruct s; [done|done].
  - intros [Hc Hs]%andb_true_iff. rewrite (IH _ Hs).
    apply negb_true_iff in Hc as ->. by destruct s.
Qed.

Lemma strip_spaced s : spaced true s = true -> strip s = s.
Proof.
  intros Hs. unfold strip. rewrite (lstrip_spaced s Hs).
  by apply (rstrip_spaced true).
Qed.

Lemma replace_char_absent old new (s : list N) :
  Forall (fun c => c <> old) s -> replace_char old new s = s.
Proof.
  unfold replace_char. induction 1 as [|c s Hc Hs IH]; simpl; [done|].
  rewrite IH. by apply N.eqb_neq in Hc as ->.
Qed.

Lemma spaced_chars b s :
  spaced b s = true -> Forall (fun c => c = ch " " \/ isspace c = false) s.
Proof.
  revert b. induction s as [|c s IH]; intros b; simpl; [constructor|].
  destruct (N.eqb_spec c (ch " ")) as [->|Hc].
  - intros [_ Hs]%andb_true_iff. constructor; [by left|by eapply IH].
  - intros [Hsp Hs]%andb_true_iff. constructor; [|by eapply IH].
    right. by apply negb_true_iff.
Qed.

Lemma replace_space_spaced b old new s :
  spaced b s = true -> isspace old = true -> old <> ch " " ->
  replace_char old new s = s.
Proof.
  intros Hs Hold Hne. apply replace_char_absent.
  eapply Forall_impl; [|by eapply spaced_chars].
  intros c Hc ->. destruct Hc as [Heq|Hc]; [done|congruence].
Qed.

Lemma split_from_cur_nonempty (cur s : list N) :
  cur <> [] -> split_from cur s <> [].
Proof.
  revert cur. induction s as [|c s IH]; intros cur Hcur; simpl.
  - by destruct cur.
  - destruct (isspace c); [by destruct cur|].
    apply IH. by destruct cur.
Qed.

Lemma join_cons sep (p : list N) rest :
  rest <> [] -> join sep (p :: rest) = p ++ sep ++ join sep rest.
Proof. by destruct rest. Qed.

(** [' '.join(s.split())] leaves a well-spaced string unchanged. *)
Lemma join_split_spaced (cur s : list N) :
  spaced (bool_decide (cur = [])) s = true ->
  join (lit " ") (split_from cur s) = cur ++ s.
Proof.
  revert cur. induction s as [|c s IH]; intros cur; simpl.
  - destruct cur; [done|]. intros _. by rewrite app_nil_r.
  - destruct (N.eqb_spec c (ch " ")) as [->|Hc].
    + intros [Hcur Hs]%andb_true_iff.
      apply negb_true_iff, bool_decide_eq_false in Hcur.
      rewrite isspace_blank.
      destruct cur as [|c0 cur]; [done|].
      specialize (IH [] Hs). simpl in IH.
      rewrite join_cons.
      * by rewrite IH.
      * destruct s as [|c1 s]; [done|]. simpl in Hs |- *.
        destruct (N.eqb_spec c1 (ch " ")) as [->|Hc1]; [done|].
        apply andb_true_iff in Hs as [Hsp _].
        apply negb_true_iff in Hsp as ->.
        by apply split_from_cur_nonempty.
    + intros [Hsp Hs]%andb_true_iff. apply negb_true_iff in Hsp as ->.
      rewrite IH.
      * by rewrite <- app_assoc.
      * rewrite bool_decide_eq_false_2; [done|]. by destruct cur.
Qed.

(** [' '.join(s.split())] is well spaced whenever [s] has a word. *)
Lemma spaced_join_split (cur s : list N) :
  Forall (fun c => isspace c = false) cur ->
  split_from cur s <> [] ->
  spaced true (join (lit " ") (split_from cur s)) = true.
Proof.
  revert cur. induction s as [|c s IH]; intros cur Hcur; simpl.
  - destruct cur as [|c0 cur]; [done|]. intros _. by apply spaced_word.
  - destruct (isspace c) eqn:Hc.
    + destruct cur as [|c0 cur]; [by apply IH|].
      intros _. destruct (split_from [] s) as [|p rest] eqn:Hsplit.
      * cbn [join]. by apply spaced_word.
      * rewrite join_cons by done. rewrite spaced_app_word by done.
        change (lit " " ++ join (lit " ") (p :: rest))
          with (ch " " :: join (lit " ") (p :: rest)).
        cbn [spaced]. rewrite N.eqb_refl. cbn [negb andb].
        rewrite <- Hsplit. apply IH; [constructor|]. by rewrite Hsplit.
    + apply IH. apply Forall_app. split; [done|]. by constructor.
Qed.

Lemma split_from_has_word (cur s : list N) :
  Exists (fun c => isspace c = false) s -> split_from cur s <> [].
Proof.
  intros H. revert cur. induction H as [c s Hc|c s H IH]; intros cur; simpl.
  - rewrite Hc. apply split_from_cur_nonempty. by destruct cur.
  - destruct (isspace c); [destruct cur; [apply IH|done]|apply IH].
Qed.

Lemma lit_cons a s : lit (String a s) = N_of_ascii a :: lit s.
Proof. reflexivity. Qed.

Lemma digit_wordchar c : (48 <= c <= 57)%N -> wordchar c.
Proof.
  intros Hc.
  assert (Hcases : In c [48; 49; 50; 51; 52; 53; 54; 55; 56; 57]%N).
  { simpl. lia. }
  simpl in Hcases.
  repeat (destruct Hcases as [<-|Hcases]; [by split|]). done.
Qed.

Lemma string_of_uint_digits d :
  Forall (fun c => (48 <= c <= 57)%N) (lit (NilEmpty.string_of_uint d)).
Proof.
  induction d; simpl; rewrite ?lit_cons; constructor; try done;
    by vm_compute.
Qed.

Lemma dec_wordchars n : Forall wordchar (dec n).
Proof.
  eapply Forall_impl; [apply digit_wordchar|apply string_of_uint_digits].
Qed.

Lemma suffix_wordchars k : Forall wordchar (lit "_" ++ dec k).
Proof. apply Forall_app. split; [by repeat constructor|apply dec_wordchars]. Qed.

Lemma wordchars_nonspace (w : list N) :
  Forall wordchar w -> Forall (fun c => isspace c = false) w.
Proof. apply Forall_impl. by intros c [? ?]. Qed.

Lemma wordchars_valid (w : list N) :
  Forall wordchar w -> Forall (fun c => is_invalid c = false) w.
Proof. apply Forall_impl. by intros c [? ?]. Qed.

Lemma tidy_app_word (s w : list N) :
  tidy s -> Forall wordchar w -> tidy (s ++ w).
Proof.
  intros [Hs Hv] Hw. split.
  - by apply spaced_app_suffix, wordchars_nonspace.
  - apply Forall_app. split; [done|by apply wordchars_valid].
Qed.

Lemma tidy_word (w : list N) : Forall wordchar w -> w <> [] -> tidy w.
Proof.
  intros Hw Hne. split;
    [by apply spaced_word; [apply wordchars_nonspace|]|by apply wordchars_valid].
Qed.

Lemma column_label_tidy i : tidy (column_label i).
Proof.
  unfold column_label. apply tidy_app_word; [|apply dec_wordchars].
  apply tidy_word; [by repeat constructor|done].
Qed.

Lemma candidate_tidy (b : list N) k : tidy b -> tidy (candidate b k).
Proof.
  intros Hb. destruct k as [|k]; [done|]. simpl.
  apply tidy_app_word; [done|apply suffix_wordchars].
Qed.

Lemma replace_char_spaced b old new (s : list N) :
  isspace old = false -> isspace new = false ->
  spaced b (replace_char old new s) = spaced b s.
Proof.
  intros Hold Hnew. revert b. induction s as [|c s IH]; intros b; [done|].
  cbn [replace_char map spaced]. fold (replace_char old new s). rewrite !IH.
  destruct (N.eqb_spec c old) as [->|Hc]; [|done].
  by rewrite (nonspace_not_blank _ Hold), (nonspace_not_blank _ Hnew), Hold, Hnew.
Qed.

Lemma replace_invalid_spaced b (s : list N) :
  spaced b (replace_invalid s) = spaced b s.
Proof.
  unfold replace_invalid, invalid_chars. cbn [fold_left].
  by rewrite !replace_char_spaced.
Qed.

Lemma replace_invalid_map (s : list N) :
  replace_invalid s
  = map (fun c => fold_left (fun x old => if (x =? old)%N then ch "_" else x)
                    invalid_chars c) s.
Proof.
  unfold replace_invalid, invalid_chars, replace_char. cbn [fold_left].
  by rewrite !map_map.
Qed.

Lemma replace_invalid_valid (s : list N) :
  Forall (fun c => is_invalid c = false) (replace_invalid s).
Proof.
  rewrite replace_invalid_map. apply Forall_map, Forall_forall. intros c _.
  unfold invalid_chars. cbn [fold_left].
  repeat match goal with
         | |- context [(c =? ?k)%N] =>
             destruct (N.eqb_spec c k) as [->|?]; [by vm_compute|]
         end.
  unfold is_invalid, invalid_chars. cbn [existsb].
  repeat match goal with
         | H : c <> ?k |- context [(c =? ?k)%N] =>
             rewrite (proj2 (N.eqb_neq c k) H)
         end.
  done.
Qed.

Lemma valid_not_invalid_char c old :
  is_invalid c = false -> In old invalid_chars -> c <> old.
Proof.
  unfold is_invalid. intros Hc Hold ->.
  assert (existsb (N.eqb old) invalid_chars = true); [|congruence].
  apply existsb_exists. exists old. split; [done|apply N.eqb_refl].
Qed.

Lemma replace_invalid_id (s : list N) :
  Forall (fun c => is_invalid c = false) s -> replace_invalid s = s.
Proof.
  intros Hs. unfold replace_invalid.
  assert (Hall : forall old, In old invalid_chars ->
                   replace_char old (ch "_") s = s).
  { intros old Hold. apply replace_char_absent.
    eapply Forall_impl; [|exact Hs].
    intros c Hc. by apply valid_not_invalid_char. }
  revert Hall. generalize invalid_chars. intros chars.
  induction chars as [|old chars IH]; intros Hall; [done|].
  cbn [fold_left]. rewrite Hall by (by left). apply IH.
  intros old' Hold'. apply Hall. by right.
Qed.

Lemma strip_has_word (s : list N) :
  strip s <> [] -> Exists (fun c => isspace c = false) (strip s).
Proof.
  unfold strip. generalize (lstrip s). intros x.
  induction x as [|c x IH]; simpl; [done|].
  destruct (rstrip x) as [|c' r] eqn:Hr.
  - destruct (isspace c) eqn:Hc; [done|]. intros _. by constructor.
  - intros _. apply Exists_cons_tl. by apply IH.
Qed.

Lemma replace_space_has_word old new (s : list N) :
  isspace old = true ->
  Exists (fun c => isspace c = false) s ->
  Exists (fun c => isspace c = false) (replace_char old new s).
Proof.
  intros Hold. induction 1 as [c s Hc|c s H IH]; cbn [replace_char map].
  - apply Exists_cons_hd.
    destruct (N.eqb_spec c old) as [->|]; [congruence|done].
  - by apply Exists_cons_tl.
Qed.

Lemma tidy_truncate (s : list N) :
  tidy s -> tidy (if 50 <? length s then take 47 s ++ lit "..." else s).
Proof.
  intros [Hs Hv]. destruct (50 <? length s); [|done]. split.
  - apply spaced_take_word; [done|by repeat constructor|done].
  - apply Forall_app. split; [by apply Forall_take|by repeat constructor].
Qed.

Lemma clean_header_text_tidy (h : list N) :
  Exists (fun c => isspace c = false) h -> tidy (clean_header_text h).
Proof.
  intros Hh. unfold clean_header_text. apply tidy_truncate. split.
  - rewrite replace_invalid_spaced. apply spaced_join_split; [constructor|].
    apply split_from_has_word.
    by do 2 (apply replace_space_has_word; [done|]).
  - apply replace_invalid_valid.
Qed.

Lemma clean_header_tidy i header (b : list N) :
  clean_header i header = Ok b -> tidy b.
Proof.
  destruct header as [|s|]; simpl; [|..|done].
  - intros [= <-]. apply column_label_tidy.
  - destruct (strip s) as [|c h] eqn:Hs.
    + intros [= <-]. apply column_label_tidy.
    + intros [= <-]. apply clean_header_text_tidy.
      rewrite <- Hs. apply strip_has_word. by rewrite Hs.
Qed.

Lemma base_label_tidy i header : tidy (base_label i header).
Proof.
  unfold base_label. destruct (clean_header i header) eqn:H.
  - by eapply clean_header_tidy.
  - apply column_label_tidy.
Qed.

Lemma clean_loop_tidy headers : forall i seen,
  Forall tidy (clean_loop i headers seen).
Proof.
  induction headers as [|header rest IH]; intros i seen; simpl; constructor;
    [|apply IH].
  pose proof (base_label_tidy i header) as Hb. unfold base_label in Hb.
  destruct (clean_header i header) as [h|e].
  - destruct (dedup_candidate seen h) as [k ->]. by apply candidate_tidy.
  - destruct (dedup_candidate seen (column_label i)) as [k ->].
    by apply candidate_tidy.
Qed.

(** A tidy label of at most 50 characters is left as it is. *)
Lemma clean_header_fixed i (l : list N) :
  tidy l -> length l <= 50 -> clean_header i (CStr l) = Ok l.
Proof.
  intros [Hs Hv] Hlen. unfold clean_header. rewrite (strip_spaced l Hs).
  transitivity (Ok (clean_header_text l)).
  { destruct l; [by simpl in Hs|done]. }
  f_equal. unfold clean_header_text.
  rewrite !(replace_space_spaced true _ _ l Hs) by done.
  unfold split_ws. rewrite join_split_spaced by done. simpl.
  rewrite (replace_invalid_id l Hv).
  by destruct (Nat.ltb_spec 50 (length l)); [lia|].
Qed.

Lemma clean_loop_fixed (out : list (list N)) : forall i seen,
  NoDup out ->
  Forall (fun l => tidy l /\ length l <= 50) out ->
  (forall x, x ∈ out -> x ∉ seen) ->
  clean_loop i (CStr <$> out) seen = out.
Proof.
  induction out as [|l out IH]; intros i seen Hnd Hall Hseen; [done|].
  apply list.NoDup_cons in Hnd as [Hl Hnd].
  apply list.Forall_cons in Hall as [[Htidy Hlen] Hall].
  cbn [fmap list_fmap clean_loop].
  rewrite (clean_header_fixed i l Htidy Hlen).
  rewrite dedup_not_seen by (apply Hseen; by left).
  f_equal. apply IH; [done|done|].
  intros x Hx. specialize (Hseen x (list_elem_of_further _ _ _ Hx)).
  set_solver.
Qed.

Lemma clean_header_text_length (h : list N) : length (clean_header_text h) <= 50.
Proof.
  unfold clean_header_text.
  set (x := replace_invalid _).
  destruct (Nat.ltb_spec 50 (length x)); [|lia].
  rewrite length_app, length_take.
  change (length (lit "...")) with 3. lia.
Qed.

(** Before de-duplication a label is the cleaned text of the cell, of at
    most 50 characters, or the generated label of the column. *)
Lemma base_label_length (i : nat) (header : cell) :
  length (base_label i header) <= 50 \/ base_label i header = column_label i.
Proof.
  unfold base_label. destruct header as [|s|]; simpl; [by right| |by right].
  destruct (strip s) as [|c h]; [by right|]. left.
  apply clean_header_text_length.
Qed.

(** C5 (as amended): sanitizing a sanitized header row returns it unchanged
    provided none of its labels is longer than 50 characters.  A label of
    the row is longer than that only when it is the generated label of
    its column, or a label that occurred earlier in the row followed by a
    de-duplication suffix [_k]; the label before the suffix has at most
    50 characters unless it is the generated label of the column. *)
Theorem clean_column_names_idempotent_short (headers : list cell) :
  (Forall (fun l => length l <= 50) (_clean_column_names headers) ->
   _clean_column_names (CStr <$> _clean_column_names headers)
   = _clean_column_names headers) /\
  (forall i header l,
     headers !! i = Some header ->
     _clean_column_names headers !! i = Some l ->
     50 < length l ->
     l = column_label i \/
     exists k, 1 <= k /\
       l = base_label i header ++ lit "_" ++ dec k /\
       base_label i header ∈ take i (_clean_column_names headers) /\
       (length (base_label i header) <= 50
        \/ base_label i header = column_label i)).
Proof.
  split.
  - intros Hlen. unfold _clean_column_names at 1.
    apply clean_loop_fixed.
    + apply clean_loop_fresh.
    + apply list.Forall_and. split; [apply clean_loop_tidy|done].
    + intros x _. set_solver.
  - intros i header l Hi Hl Hlong.
    destruct (clean_loop_lookup headers 0 ∅ i header Hi)
      as (k & Hk & Hbelow & _).
    unfold _clean_column_names in Hl. rewrite Hk in Hl. injection Hl as <-.
    simpl in *. pose proof (base_label_length i header) as Hbase.
    destruct k as [|k]; simpl in *.
    + left. destruct Hbase as [Hbase|Hbase]; [lia|done].
    + right. exists (S k). split_and!; [lia|done| |done].
      specialize (Hbelow 0 ltac:(lia)). simpl in Hbelow.
      unfold _clean_column_names. set_solver.
Qed.

(** ** TypeDetector *)

Lemma strip_nil : strip [] = [].
Proof. reflexivity. Qed.

Lemma text_test_spec t :
  truthy (Some t) && (50 <? length (strip t)) = true <-> 50 < length (strip t).
Proof.
  rewrite andb_true_iff, Nat.ltb_lt. split; [tauto|].
  intros H. split; [|done]. destruct t; [|done].
  rewrite strip_nil in H. simpl in H. lia.
Qed.

Lemma some_page_has_text_ok pages b :
  some_page_has_text pages = Ok b -> (b = true <-> Exists long_text pages).
Proof.
  induction pages as [|page rest IH]; simpl.
  - intros [= <-]. split; [done|]. by intros H%Exists_nil.
  - destruct (page_extract_text page) as [text|e] eqn:Htext; [|done]. simpl.
    destruct text as [t|].
    + destruct (truthy (Some t) && (50 <? length (strip t))) eqn:Htest.
      * intros [= <-]. split; [|done]. intros _. apply Exists_cons_hd.
        exists t. split; [done|]. by apply text_test_spec.
      * intros Hrest. rewrite (IH Hrest), Exists_cons.
        split; [tauto|]. intros [(t' & Ht' & Hlong)|H]; [|done].
        rewrite Htext in Ht'. injection Ht' as <-.
        apply text_test_spec in Hlong. congruence.
    + intros Hrest. rewrite (IH Hrest), Exists_cons.
      split; [tauto|]. intros [(t' & Ht' & _)|H]; [|done].
      rewrite Htext in Ht'. discriminate.
Qed.

(** The detector reads the pages in order and stops at the first long one
    or at the first error. *)
Lemma is_text_based_true_iff (d : Pdf) :
  is_text_based d = true <->
  opens d = true /\
  exists before page after,
    pdf_pages d = before ++ page :: after /\ long_text page /\
    Forall (fun p => exists text, page_extract_text p = Ok text) before.
Proof.
  unfold is_text_based, is_text_based_try, open_pdf.
  destruct (opens d); simpl; [|split; [done|by intros [? _]]].
  generalize (pdf_pages d). intros pages.
  induction pages as [|page rest IH]; simpl.
  - split; [done|]. intros [_ (before & p & after & H & _)].
    by destruct before.
  - destruct (page_extract_text page) as [text|e] eqn:Htext; simpl.
    + assert (Hskip :
        ~ long_text page ->
        (match some_page_has_text rest with Ok b => b | Raise _ => false end
         = true <->
         true = true /\
         exists before p after,
           page :: rest = before ++ p :: after /\ long_text p /\
           Forall (fun p => exists text, page_extract_text p = Ok text) before)).
      { intros Hshort. rewrite IH. split.
        - intros [_ (before & p & after & -> & Hp & Hbefore)].
          split; [done|]. exists (page :: before), p, after.
          split_and!; [done|done|]. constructor; [by eexists|done].
        - intros [_ (before & p & after & Heq & Hp & Hbefore)].
          split; [done|]. destruct before as [|p0 before]; simpl in Heq.
          + injection Heq as -> ->. done.
          + injection Heq as -> ->. exists before, p, after.
            split_and!; [done|done|]. by apply Forall_inv_tail in Hbefore. }
      destruct text as [t|].
      * destruct (truthy (Some t) && (50 <? length (strip t))) eqn:Htest.
        -- split; [|done]. intros _. split; [done|].
           exists [], page, rest. split_and!; [done| |constructor].
           exists t. split; [done|]. by apply text_test_spec.
        -- apply Hskip. intros (t' & Ht' & Hlong).
           rewrite Htext in Ht'. injection Ht' as <-.
           apply text_test_spec in Hlong. congruence.
      * apply Hskip. intros (t' & Ht' & _).
        rewrite Htext in Ht'. discriminate.
    + split; [done|]. intros [_ (before & p & after & Heq & Hp & Hbefore)].
      destruct before as [|p0 before]; simpl in Heq.
      * injection Heq as -> ->. destruct Hp as (t & Ht & _). congruence.
      * injection Heq as -> ->. apply Forall_inv in Hbefore as [text Ht].
        congruence.
Qed.

(** ** Consolidator *)

Lemma mapM_exc_Ok {A B} (f : A -> exc B) (l : list A) (rs : list B) :
  mapM f l = Ok rs ->
  length rs = length l /\
  forall i x, l !! i = Some x -> exists r, rs !! i = Some r /\ f x = Ok r.
Proof.
  revert rs. induction l as [|x l IH]; intros rs; simpl.
  - intros [= <-]. split; [done|]. by intros i x [=].
  - destruct (f x) as [y|e] eqn:Hfx; [|done]. simpl.
    destruct (mapM f l) as [k|e]; [|done]. simpl. intros [= <-].
    destruct (IH k eq_refl) as [Hlen Hk]. split; [simpl; lia|].
    intros [|i] x' Hx'; simpl in *.
    + injection Hx' as <-. by exists y.
    + by apply Hk.
Qed.

Lemma mapM_exc_total {A B} (f : A -> exc B) (l : list A) :
  (forall x, x ∈ l -> exists r, f x = Ok r) -> exists rs, mapM f l = Ok rs.
Proof.
  induction l as [|x l IH]; intros Hall; simpl; [by eexists|].
  destruct (Hall x) as [y ->]; [by left|]. simpl.
  destruct IH as [k ->]; [|by eexists].
  intros x' Hx'. apply Hall. by right.
Qed.

Lemma strings_of_Ok (items : list value) (ss : list (list N)) :
  strings_of items = Ok ss -> items = VStr <$> ss.
Proof.
  revert ss. induction items as [|v items IH]; intros ss; simpl.
  - by intros [= <-].
  - destruct v as [z|s|]; [done| |done].
    destruct (strings_of items) as [rest|e]; [|done]. simpl.
    intros [= <-]. simpl. f_equal. by apply IH.
Qed.

Lemma strings_of_total (items : list value) :
  Forall (fun v => exists s, v = VStr s) items ->
  exists ss, strings_of items = Ok ss.
Proof.
  induction 1 as [|v items [s ->] _ [ss IH]]; simpl; [by eexists|].
  rewrite IH. simpl. by eexists.
Qed.

Lemma content_types_of_spec (page_tables : list DataFrame) (v : value) :
  v ∈ content_types_of page_tables <->
  exists t, t ∈ page_tables /\ has_column (lit "Content_Type") t = true /\
            v ∈ column_values (lit "Content_Type") t.
Proof.
  unfold content_types_of. rewrite list_elem_of_bind. split.
  - intros (t & Hv & Ht). exists t. split; [done|]. cbv beta in Hv.
    destruct (has_column (lit "Content_Type") t); [|by inversion Hv].
    split; [done|]. by rewrite elem_of_remove_dups in Hv.
  - intros (t & Ht & Hcol & Hv). exists t. split; [|done].
    rewrite Hcol. by rewrite elem_of_remove_dups.
Qed.

(** What the summary row of a page holds. *)
Lemma summary_row_spec (all_tables : list DataFrame) (page_num : nat) row :
  summary_row all_tables page_num = Ok row ->
  page_summary_of all_tables page_num row.
Proof.
  unfold summary_row, page_summary_of.
  destruct (filter (fun t => on_page page_num t) all_tables)
    as [|t0 page_tables] eqn:Hfilter.
  - intros [= <-]. eexists _, _. split; [reflexivity|]. by left.
  - unfold distinct_types.
    destruct (strings_of (remove_dups (content_types_of (t0 :: page_tables))))
      as [items|e] eqn:Hitems; [|done].
    simpl. intros [= <-]. eexists _, _. split; [reflexivity|].
    right. exists items. split; [done|].
    apply strings_of_Ok in Hitems.
    assert (Hnd : NoDup (VStr <$> items)).
    { rewrite <- Hitems. apply NoDup_remove_dups. }
    split; [by apply NoDup_fmap in Hnd; [|by intros ?? [=]]|].
    intros ty.
    assert (ty ∈ items <-> VStr ty ∈ content_types_of (t0 :: page_tables))
      as ->.
    { rewrite <- (elem_of_remove_dups (content_types_of _)), Hitems.
      rewrite list_elem_of_fmap. split; [by eexists|].
      by intros (ty' & [= ->] & H). }
    rewrite content_types_of_spec, <- Hfilter. split.
    + intros (t & [Hon Ht]%list_elem_of_filter & Hcol & Hv).
      exists t. split_and!; [done| |done|done]. by apply Is_true_true.
    + intros (t & Ht & Hon & Hcol & Hv). exists t. split_and!; [|done|done].
      apply list_elem_of_filter. split; [by apply Is_true_true|done].
Qed.

Lemma summary_row_total (all_tables : list DataFrame) (page_num : nat) :
  Forall typed_content all_tables ->
  exists row, summary_row all_tables page_num = Ok row.
Proof.
  intros Htyped. unfold summary_row.
  destruct (filter (fun t => on_page page_num t) all_tables)
    as [|t0 page_tables] eqn:Hfilter; [by eexists|].
  unfold distinct_types.
  destruct (strings_of_total
              (remove_dups (content_types_of (t0 :: page_tables))))
    as [items ->]; [|simpl; by eexists].
  apply list.Forall_forall. intros v Hv. rewrite elem_of_remove_dups in Hv.
  apply content_types_of_spec in Hv as (t & Ht & _ & Hv).
  rewrite <- Hfilter in Ht. apply list_elem_of_filter in Ht as [_ Ht].
  rewrite list.Forall_forall in Htyped. specialize (Htyped t Ht).
  unfold typed_content in Htyped. rewrite list.Forall_forall in Htyped.
  by apply Htyped.
Qed.

(** C9 (as amended): for a non-empty list of tables and at least one page,
    the consolidator, when it returns, returns the summary segment followed
    by the original segments in the order in which it received them; the
    summary holds one Page_Summary record per page number, in order,
    with the number of items of the tables on that page and their distinct
    content types.  It does return when the content types are strings. *)
Theorem consolidate_tables_summary_first (all_tables : list DataFrame)
    (total_pages : nat) :
  all_tables <> [] -> 1 <= total_pages ->
  (Forall typed_content all_tables ->
   exists result, consolidate_tables all_tables total_pages = Ok result) /\
  forall result, consolidate_tables all_tables total_pages = Ok result ->
    exists summary,
      result = summary :: all_tables /\
      columns summary = summary_columns /\
      length (rows summary) = total_pages /\
      forall page_num, 1 <= page_num <= total_pages ->
        exists row, rows summary !! (page_num - 1) = Some row /\
                    page_summary_of all_tables page_num row.
Proof.
  intros Hne Hpages. unfold consolidate_tables.
  destruct all_tables as [|t0 rest] eqn:Hall; [done|]. rewrite <- Hall in *.
  split.
  - intros Htyped.
    destruct (mapM_exc_total (summary_row all_tables) (seq 1 total_pages))
      as [data ->]; [|simpl; by eexists].
    intros p _. by apply summary_row_total.
  - intros result.
    destruct (mapM (summary_row all_tables) (seq 1 total_pages))
      as [data|e] eqn:Hdata; [|done].
    simpl. intros [= <-].
    apply mapM_exc_Ok in Hdata as [Hlen Hrows]. rewrite length_seq in Hlen.
    exists (frame_of_records summary_columns data).
    assert (Hframe : frame_of_records summary_columns data
                     = {| columns := summary_columns; rows := data |}).
    { destruct data; [simpl in Hlen; lia|done]. }
    rewrite Hframe. split_and!; [done|done|done|].
    intros p Hp. destruct (Hrows (p - 1) p) as (row & Hrow & Hsum).
    { apply lookup_seq. lia. }
    exists row. split; [done|]. by apply summary_row_spec.
Qed.

(** ** CompletenessReconciler *)

Lemma pages_present_app (a b : list DataFrame) :
  pages_present (a ++ b) = pages_present a ∪ pages_present b.
Proof. unfold pages_present. by rewrite fmap_app, union_list_app_L. Qed.

Lemma pages_present_cons (t : DataFrame) (l : list DataFrame) :
  pages_present (t :: l) = page_values t ∪ pages_present l.
Proof. done. Qed.

Lemma elem_of_pages_present (v : value) (l : list DataFrame) :
  v ∈ pages_present l <-> exists t, t ∈ l /\ v ∈ page_values t.
Proof.
  unfold pages_present. rewrite elem_of_union_list. split.
  - intros (X & [t [-> Ht]]%list_elem_of_fmap & Hv). by exists t.
  - intros (t & Ht & Hv). exists (page_values t). split; [|done].
    apply list_elem_of_fmap. by exists t.
Qed.

Lemma elem_of_page_range (v : value) (n : nat) :
  v ∈ page_range n <-> exists p, v = VInt (Z.of_nat p) /\ 1 <= p <= n.
Proof.
  unfold page_range. rewrite elem_of_list_to_set, list_elem_of_fmap.
  split; intros (p & -> & Hp); exists p; (split; [done|]);
    apply elem_of_seq in Hp || apply elem_of_seq; lia.
Qed.

Lemma size_page_range (n : nat) : size (page_range n) = n.
Proof.
  unfold page_range. rewrite size_list_to_set.
  - by rewrite length_fmap, length_seq.
  - apply NoDup_fmap_2; [|apply NoDup_seq]. intros p q [= H]. lia.
Qed.

Lemma empty_page_placeholder_pages (p : nat) :
  page_values (empty_page_placeholder p) = {[ VInt (Z.of_nat p) ]}.
Proof.
  unfold page_values, empty_page_placeholder, has_column, column_values.
  simpl. set_solver.
Qed.

Lemma placeholders_pages (missing : list nat) :
  pages_present (empty_page_placeholder <$> missing)
  = list_to_set ((fun p => VInt (Z.of_nat p)) <$> missing).
Proof.
  induction missing as [|p missing IH]; [done|].
  rewrite fmap_cons, pages_present_cons, IH, empty_page_placeholder_pages.
  done.
Qed.

Lemma elem_of_pages_missing (tables : list DataFrame) (n p : nat) :
  p ∈ pages_missing tables n <->
  1 <= p <= n /\ VInt (Z.of_nat p) ∉ pages_present tables.
Proof.
  unfold pages_missing. rewrite list_elem_of_filter, elem_of_seq. split.
  - intros [? ?]. split; [lia|done].
  - intros [? ?]. split; [done|lia].
Qed.

(** Reconciliation, when it goes through, appends one placeholder per
    missing page and nothing else; it goes through only when no missing
    page has content left. *)
Lemma cover_missing_Ok (d : Pdf) (missing : list nat) :
  forall all_tables result,
    cover_missing d missing all_tables = Ok result ->
    result = all_tables ++ (empty_page_placeholder <$> missing) /\
    Forall (fun p => extract_page_content d p = None) missing.
Proof.
  induction missing as [|p missing IH]; intros all_tables result; simpl.
  - intros [= <-]. by rewrite app_nil_r.
  - destruct (extract_page_content d p) eqn:Hp; [done|].
    intros [-> Hall]%IH. split; [by rewrite <- app_assoc|].
    by constructor.
Qed.

Lemma reconcile_pages (d : Pdf) (all_tables result : list DataFrame) (n : nat) :
  reconcile d all_tables n = Ok result ->
  pages_present result = page_range n ∪ pages_present all_tables.
Proof.
  unfold reconcile. intros [-> _]%cover_missing_Ok.
  rewrite pages_present_app, placeholders_pages.
  apply set_eq. intros v.
  rewrite !elem_of_union, elem_of_list_to_set, list_elem_of_fmap,
    elem_of_page_range.
  split.
  - intros [H|(p & -> & [Hp _]%elem_of_pages_missing)]; [by right|].
    left. by exists p.
  - intros [(p & -> & Hp)|H]; [|by left].
    destruct (decide (VInt (Z.of_nat p) ∈ pages_present all_tables));
      [by left|].
    right. exists p. split; [done|]. by apply elem_of_pages_missing.
Qed.

Lemma summary_row_page (all_tables : list DataFrame) (p : nat) row :
  summary_row all_tables p = Ok row -> head row = Some (VInt (Z.of_nat p)).
Proof. by intros (text & types & -> & _)%summary_row_spec. Qed.

Lemma summary_frame_pages (all_tables : list DataFrame) (n : nat) data :
  mapM (summary_row all_tables) (seq 1 n) = Ok data ->
  page_values (frame_of_records summary_columns data) = page_range n.
Proof.
  intros [Hlen Hrows]%mapM_exc_Ok. rewrite length_seq in Hlen.
  destruct (decide (n = 0)) as [->|Hn].
  { destruct data; [done|simpl in Hlen; lia]. }
  assert (Hframe : frame_of_records summary_columns data
                   = {| columns := summary_columns; rows := data |}).
  { destruct data; [simpl in Hlen; lia|done]. }
  rewrite Hframe. unfold page_values, page_range.
  change (has_column (lit "Page") {| columns := summary_columns; rows := data |})
    with true. cbv iota. f_equal.
  change (column_values (lit "Page")
            {| columns := summary_columns; rows := data |})
    with ((fun row : list value => default VNone (row !! 0)) <$> data).
  apply list_eq. intros i. rewrite !list_lookup_fmap.
  destruct (decide (i < n)) as [Hi|Hi].
  - rewrite (lookup_seq_lt 1 n i Hi). simpl.
    destruct (Hrows i (1 + i)) as (row & -> & Hrow); [by apply lookup_seq|].
    apply summary_row_page in Hrow. simpl.
    destruct row; [done|]. simpl in Hrow. by injection Hrow as ->.
  - rewrite (lookup_seq_ge 1 n i) by lia.
    rewrite (lookup_ge_None_2 data i) by lia. done.
Qed.

Lemma consolidate_pages (all_tables result : list DataFrame) (n : nat) :
  consolidate_tables all_tables n = Ok result ->
  (all_tables = [] /\ result = []) \/
  (all_tables <> [] /\
   exists summary, result = summary :: all_tables /\
                   page_values summary = page_range n).
Proof.
  unfold consolidate_tables. destruct all_tables as [|t0 rest] eqn:Hall.
  - intros [= <-]. by left.
  - rewrite <- Hall.
    destruct (mapM (summary_row all_tables) (seq 1 n)) as [data|e] eqn:Hdata;
      [|done].
    simpl. intros [= <-]. right. split; [by rewrite Hall|].
    eexists. split; [done|]. by eapply summary_frame_pages.
Qed.

(** What a successful run of [extract] is made of. *)
Lemma extract_Ok (d : Pdf) (r : Result) :
  extract d = Ok r ->
  exists all_tables,
    reconcile d (gathered_tables d) (page_count d) = Ok all_tables /\
    consolidate_tables all_tables (page_count d) = Ok (tables r) /\
    total_pages r = page_count d /\
    extracted_pages r = size (pages_present (tables r)) /\
    completeness_score r
    = score (size (pages_present (tables r))) (total_pages r).
Proof.
  unfold extract, extract_visiting.
  fold (reconcile d (gathered_tables d) (page_count d)).
  destruct (path_exists d); [|done]. simpl.
  destruct (reconcile d (gathered_tables d) (page_count d))
    as [all_tables|e]; [|done]. simpl.
  destruct (consolidate_tables all_tables (page_count d))
    as [consolidated|e] eqn:Hcons; [|done]. simpl.
  intros [= <-]. by exists all_tables.
Qed.

(** The page values of the result, and of its segments after the summary:
    the page numbers [1 .. total_pages] and whatever page values the
    gathered tables hold. *)
Lemma extract_pages (d : Pdf) (r : Result) :
  extract d = Ok r ->
  pages_present (tables r)
  = page_range (total_pages r) ∪ pages_present (gathered_tables d) /\
  pages_present (drop 1 (tables r)) = pages_present (tables r).
Proof.
  intros (all_tables & Hrec & Hcons & -> & _)%extract_Ok.
  apply reconcile_pages in Hrec as Hpages.
  apply consolidate_pages in Hcons as [[-> ->]|[_ (summary & -> & Hsum)]].
  - split; [|done]. rewrite <- Hpages. done.
  - simpl drop. rewrite pages_present_cons, Hsum, Hpages. split; set_solver.
Qed.

(** *** The completeness score *)

(** *** Rounding *)

Lemma Qpower2_pos (k : Z) : (0 < 2 ^ k)%Q.
Proof. by apply Qpower_0_lt. Qed.

Lemma Qpower2_split (a b : Z) : (2 ^ (a + b) == 2 ^ a * 2 ^ b)%Q.
Proof. by apply Qpower_plus. Qed.

Lemma Qpower2_Z (n : Z) : (0 <= n)%Z -> (inject_Z (2 ^ n) == 2 ^ n)%Q.
Proof. intros Hn. by rewrite Zpower_Qpower. Qed.

Lemma Qdiv_mult_cancel (x y : Q) : (0 < y)%Q -> (x / y * y == x)%Q.
Proof.
  intros Hy. unfold Qdiv. rewrite <- Qmult_assoc, (Qmult_comm (/ y)).
  rewrite Qmult_inv_r, Qmult_1_r; [done|]. intros H. rewrite H in Hy.
  by apply Qlt_irrefl in Hy.
Qed.

Lemma Qle_div (x y c : Q) : (0 < c)%Q -> (x <= y)%Q -> (x / c <= y / c)%Q.
Proof.
  intros Hc Hxy. apply Qle_shift_div_l; [done|].
  by rewrite Qdiv_mult_cancel.
Qed.

Lemma Qlt_div (x y c : Q) : (0 < c)%Q -> (x < y)%Q -> (x / c < y / c)%Q.
Proof.
  intros Hc Hxy. apply Qlt_shift_div_l; [done|].
  by rewrite Qdiv_mult_cancel.
Qed.

Lemma Qdiv_Z_le (a b c d : Z) :
  (0 < b)%Z -> (0 < d)%Z -> (a * d <= c * b)%Z ->
  (inject_Z a / inject_Z b <= inject_Z c / inject_Z d)%Q.
Proof.
  intros Hb Hd H. destruct b as [|b|b]; [lia| |lia].
  destruct d as [|d|d]; [lia| |lia].
  rewrite <- !Qmake_Qdiv. by unfold Qle.
Qed.

Lemma Qdiv_Z_lt (a b c d : Z) :
  (0 < b)%Z -> (0 < d)%Z -> (a * d < c * b)%Z ->
  (inject_Z a / inject_Z b < inject_Z c / inject_Z d)%Q.
Proof.
  intros Hb Hd H. destruct b as [|b|b]; [lia| |lia].
  destruct d as [|d|d]; [lia| |lia].
  rewrite <- !Qmake_Qdiv. by unfold Qlt.
Qed.

Lemma Qpower2_minus_Z (a b : Z) :
  (0 <= a)%Z -> (0 <= b)%Z ->
  (2 ^ (a - b) == inject_Z (2 ^ a) / inject_Z (2 ^ b))%Q.
Proof.
  intros Ha Hb. rewrite Qpower_minus by done. by rewrite !Qpower2_Z.
Qed.

(** [floor_log2 x] is the binade of [x]. *)
Lemma floor_log2_spec (x : Q) :
  (0 < x)%Q -> (2 ^ floor_log2 x <= x)%Q /\ (x < 2 ^ (floor_log2 x + 1))%Q.
Proof.
  intros Hx. unfold floor_log2.
  set (n := Qnum x). set (d := Z.pos (Qden x)).
  assert (Hn : (0 < n)%Z).
  { unfold Qlt in Hx. simpl in Hx. unfold n. lia. }
  assert (Hd : (0 < d)%Z) by done.
  destruct (Z.log2_spec n Hn) as [Hn1 Hn2].
  destruct (Z.log2_spec d Hd) as [Hd1 Hd2].
  pose proof (Z.log2_nonneg n) as Hln. pose proof (Z.log2_nonneg d) as Hld.
  assert (Hxq : (x == inject_Z n / inject_Z d)%Q).
  { unfold n, d. destruct x as [a b]. simpl. apply Qmake_Qdiv. }
  destruct (Qle_bool (2 ^ (Z.log2 n - Z.log2 d)) x) eqn:Hle.
  - split; [by apply Qle_bool_iff|].
    replace (Z.log2 n - Z.log2 d + 1)%Z
      with (Z.succ (Z.log2 n) - Z.log2 d)%Z by lia.
    rewrite Qpower2_minus_Z, Hxq by lia.
    apply Qdiv_Z_lt; [done|lia|]. nia.
  - assert (Hlt : (x < 2 ^ (Z.log2 n - Z.log2 d))%Q).
    { apply Qnot_le_lt. intros H%Qle_bool_iff. congruence. }
    split; [|by replace (Z.log2 n - Z.log2 d - 1 + 1)%Z
                  with (Z.log2 n - Z.log2 d)%Z by lia].
    replace (Z.log2 n - Z.log2 d - 1)%Z
      with (Z.log2 n - Z.succ (Z.log2 d))%Z by lia.
    rewrite Qpower2_minus_Z, Hxq by lia.
    apply Qdiv_Z_le; [lia|done|]. nia.
Qed.

Lemma floor_log2_le (x y : Q) :
  (0 < x)%Q -> (x <= y)%Q -> (floor_log2 x <= floor_log2 y)%Z.
Proof.
  intros Hx Hxy.
  destruct (floor_log2_spec x Hx) as [Hx1 _].
  destruct (floor_log2_spec y) as [_ Hy2]; [by eapply Qlt_le_trans|].
  assert (H : (2 ^ floor_log2 x < 2 ^ (floor_log2 y + 1))%Q).
  { eapply Qle_lt_trans; [exact Hx1|]. by eapply Qle_lt_trans. }
  apply Qpower_lt_compat_l_inv in H; [lia|done].
Qed.

(** [round_half_even] is one of the two neighbours, fixes the integers and
    is monotone. *)
Lemma round_half_even_Z (z : Z) : round_half_even (inject_Z z) = z.
Proof.
  unfold round_half_even. rewrite Qfloor_Z.
  destruct (Qcompare_spec (inject_Z z - inject_Z z) (1 # 2)) as [H|H|H];
    [|done|].
  - exfalso. assert (H0 : (inject_Z z - inject_Z z == 0)%Q) by ring.
    rewrite H0 in H. discriminate H.
  - exfalso. assert (H0 : (inject_Z z - inject_Z z == 0)%Q) by ring.
    rewrite H0 in H. discriminate H.
Qed.

Lemma round_half_even_near (x : Q) :
  (Qfloor x <= round_half_even x <= Qfloor x + 1)%Z.
Proof.
  unfold round_half_even.
  destruct (x - inject_Z (Qfloor x) ?= 1 # 2)%Q; [|lia|lia].
  destruct (Z.even (Qfloor x)); lia.
Qed.

Lemma round_half_even_le (x y : Q) :
  (x <= y)%Q -> (round_half_even x <= round_half_even y)%Z.
Proof.
  intros Hxy. pose proof (Qfloor_resp_le x y Hxy) as Hf.
  pose proof (round_half_even_near x) as Hx.
  pose proof (round_half_even_near y) as Hy.
  destruct (decide (Qfloor x = Qfloor y)) as [Heq|Hne]; [|lia].
  clear Hx Hy. unfold round_half_even. rewrite <- Heq.
  assert (Hd : (x - inject_Z (Qfloor x) <= y - inject_Z (Qfloor x))%Q).
  { by apply Qplus_le_l. }
  destruct (Qcompare_spec (x - inject_Z (Qfloor x)) (1 # 2)) as [Hx|Hx|Hx];
    destruct (Qcompare_spec (y - inject_Z (Qfloor x)) (1 # 2)) as [Hy|Hy|Hy];
    try (destruct (Z.even (Qfloor x)); lia); try lia.
  - exfalso. rewrite Hx in Hd. by apply Qle_not_lt in Hd.
  - exfalso. rewrite Hy in Hd. by apply Qle_not_lt in Hd.
  - exfalso. apply Qle_not_lt in Hd. apply Hd. by eapply Qlt_trans.
Qed.

(** The significand of a positive number lies between [2 ^ 52] and
    [2 ^ 53]. *)
Lemma significand_range (x : Q) :
  (0 < x)%Q ->
  (inject_Z (2 ^ 52) <= x / 2 ^ (floor_log2 x - 52))%Q /\
  (x / 2 ^ (floor_log2 x - 52) <= inject_Z (2 ^ 53))%Q.
Proof.
  intros Hx. destruct (floor_log2_spec x Hx) as [H1 H2].
  pose proof (Qpower2_pos (floor_log2 x - 52)) as He.
  split.
  - apply Qle_shift_div_l; [done|].
    rewrite Qpower2_Z, <- Qpower2_split by lia.
    by replace (52 + (floor_log2 x - 52))%Z with (floor_log2 x) by lia.
  - apply Qle_shift_div_r; [done|]. apply Qlt_le_weak.
    rewrite Qpower2_Z, <- Qpower2_split by lia.
    by replace (53 + (floor_log2 x - 52))%Z with (floor_log2 x + 1)%Z by lia.
Qed.

(** Rounding stays within the binade. *)
Lemma round_53_range (x : Q) :
  (0 < x)%Q ->
  (2 ^ floor_log2 x <= round_53 x)%Q /\
  (round_53 x <= 2 ^ (floor_log2 x + 1))%Q.
Proof.
  intros Hx. destruct (significand_range x Hx) as [H1 H2].
  apply round_half_even_le in H1, H2. rewrite round_half_even_Z in H1, H2.
  pose proof (Qpower2_pos (floor_log2 x - 52)) as He.
  unfold round_53. split.
  - replace (floor_log2 x) with (52 + (floor_log2 x - 52))%Z at 1 by lia.
    rewrite Qpower2_split, <- (Qpower2_Z 52) by lia.
    apply Qmult_le_compat_r; [|by apply Qlt_le_weak]. by rewrite <- Zle_Qle.
  - replace (floor_log2 x + 1)%Z with (53 + (floor_log2 x - 52))%Z by lia.
    rewrite Qpower2_split, <- (Qpower2_Z 53) by lia.
    apply Qmult_le_compat_r; [|by apply Qlt_le_weak]. by rewrite <- Zle_Qle.
Qed.

(** Rounding is monotone. *)
Lemma round_53_le (x y : Q) :
  (0 < x)%Q -> (x <= y)%Q -> (round_53 x <= round_53 y)%Q.
Proof.
  intros Hx Hxy. assert (Hy : (0 < y)%Q) by by eapply Qlt_le_trans.
  pose proof (floor_log2_le x y Hx Hxy) as Hk.
  destruct (decide (floor_log2 x = floor_log2 y)) as [Heq|Hne].
  - unfold round_53. rewrite Heq.
    pose proof (Qpower2_pos (floor_log2 y - 52)) as He.
    apply Qmult_le_compat_r; [|by apply Qlt_le_weak].
    rewrite <- Zle_Qle. by apply round_half_even_le, Qle_div.
  - destruct (round_53_range x Hx) as [_ H1].
    destruct (round_53_range y Hy) as [H2 _].
    eapply Qle_trans; [exact H1|]. eapply Qle_trans; [|exact H2].
    apply Qpower_le_compat_l; [lia|done].
Qed.

(** Rounding moves a number by at most half a unit in the last place. *)
Lemma round_half_even_error (x : Q) :
  (Qabs (inject_Z (round_half_even x) - x) <= 1 # 2)%Q.
Proof.
  pose proof (Qfloor_le x) as H1. pose proof (Qlt_floor x) as H2.
  rewrite inject_Z_plus in H2. change (inject_Z 1) with 1%Q in H2.
  apply Qabs_Qle_condition. unfold round_half_even.
  destruct (Qcompare_spec (x - inject_Z (Qfloor x)) (1 # 2)) as [H|H|H].
  - destruct (Z.even (Qfloor x));
      rewrite ?inject_Z_plus; change (inject_Z 1) with 1%Q; lra.
  - lra.
  - rewrite inject_Z_plus. change (inject_Z 1) with 1%Q. lra.
Qed.

Lemma round_53_error (x : Q) :
  (0 < x)%Q -> (Qabs (round_53 x - x) <= x * (1 # 2 ^ 53))%Q.
Proof.
  intros Hx. destruct (floor_log2_spec x Hx) as [Hk _].
  pose proof (Qpower2_pos (floor_log2 x - 52)) as He.
  set (e := (floor_log2 x - 52)%Z) in *.
  pose proof (round_half_even_error (x / 2 ^ e)) as Hm.
  unfold round_53. fold e. set (m := inject_Z (round_half_even (x / 2 ^ e))) in *.
  assert (Hx' : (x == x / 2 ^ e * 2 ^ e)%Q) by (by rewrite Qdiv_mult_cancel).
  assert (Heq : (m * 2 ^ e - x == (m - x / 2 ^ e) * 2 ^ e)%Q).
  { rewrite Hx' at 1. ring. }
  rewrite Heq, Qabs_Qmult, (Qabs_pos (2 ^ e)) by (by apply Qlt_le_weak).
  apply Qle_trans with ((1 # 2) * 2 ^ e)%Q.
  { apply Qmult_le_compat_r; [done|by apply Qlt_le_weak]. }
  assert (Hk' : (2 ^ floor_log2 x == 2 ^ e * inject_Z (2 ^ 52))%Q).
  { replace (floor_log2 x) with (e + 52)%Z by (unfold e; lia).
    by rewrite Qpower2_split, Qpower2_Z. }
  rewrite Hk' in Hk. change (inject_Z (2 ^ 52)) with (4503599627370496 # 1)%Q in Hk.
  change (1 # 2 ^ 53)%Q with (1 # 9007199254740992)%Q. lra.
Qed.

(** *** Floats *)

Lemma float_of_pos (x : Qc) : (0 < x)%Qc -> float_of x = Q2Qc (round_53 x).
Proof.
  intros Hx. unfold float_of.
  replace (x ?= 0)%Qc with Gt; [done|]. symmetry. by apply Qcgt_alt.
Qed.

Lemma float_of_le (x y : Qc) :
  (0 < x)%Qc -> (x <= y)%Qc -> (float_of x <= float_of y)%Qc.
Proof.
  intros Hx Hxy. rewrite !float_of_pos; [|by eapply Qclt_le_trans|done].
  unfold Qcle. simpl. rewrite !Qred_correct. by apply round_53_le.
Qed.

Lemma float_of_error (x : Qc) :
  (0 < x)%Qc -> (Qabs (float_of x - x) <= x * (1 # 2 ^ 53))%Q.
Proof.
  intros Hx. rewrite float_of_pos by done. unfold Q2Qc. cbn [this].
  rewrite Qred_correct. by apply round_53_error.
Qed.

Lemma float_of_1 : float_of 1 = 1%Qc.
Proof. by apply Qc_is_canon. Qed.

Lemma float_of_100 : float_of (Qc_of_nat 100) = Qc_of_nat 100.
Proof. by apply Qc_is_canon. Qed.

Lemma Qc_of_nat_le (m n : nat) : m <= n -> (Qc_of_nat m <= Qc_of_nat n)%Qc.
Proof.
  intros H. unfold Qc_of_nat, Qcle. simpl. rewrite !Qred_correct.
  rewrite <- Zle_Qle. lia.
Qed.

Lemma Qc_of_nat_pos (n : nat) : 1 <= n -> (0 < Qc_of_nat n)%Qc.
Proof.
  intros H. unfold Qc_of_nat, Qclt. simpl. rewrite !Qred_correct.
  change 0%Q with (inject_Z 0). rewrite <- Zlt_Qlt. lia.
Qed.

Lemma quotient_at_least_1 (covered total : nat) :
  1 <= total -> total <= covered ->
  (1 <= Qc_of_nat covered / Qc_of_nat total)%Qc.
Proof.
  intros Ht Hc. unfold Qcle, Qclt in *. unfold Qcdiv, Qcmult, Qcinv. simpl.
  rewrite !Qred_correct. apply Qle_shift_div_l.
  - change 0%Q with (inject_Z 0). rewrite <- Zlt_Qlt. lia.
  - rewrite Qmult_1_l, <- Zle_Qle. lia.
Qed.

Lemma score_at_least (covered total : nat) :
  1 <= total -> total <= covered -> (Qc_of_nat 100 <= score covered total)%Qc.
Proof.
  intros Ht Hc. unfold score, float_mul, int_truediv.
  destruct (Nat.ltb_spec 0 total); [|lia].
  pose proof (quotient_at_least_1 covered total Ht Hc) as H1.
  apply (float_of_le 1) in H1; [|done]. rewrite float_of_1 in H1.
  rewrite <- float_of_100 at 1. apply float_of_le.
  { by apply (Qc_of_nat_pos 100); lia. }
  rewrite <- (Qcmult_1_l (Qc_of_nat 100)) at 1.
  apply Qcmult_le_compat_r; [done|]. by apply (Qc_of_nat_le 0 100); lia.
Qed.

Lemma score_full (total : nat) :
  1 <= total -> score total total = Qc_of_nat 100.
Proof.
  intros Ht. unfold score, float_mul, int_truediv.
  destruct (Nat.ltb_spec 0 total); [|lia].
  unfold Qcdiv. rewrite Qcmult_inv_r.
  - by rewrite float_of_1, Qcmult_1_l, float_of_100.
  - pose proof (Qc_of_nat_pos total Ht) as Hpos. intros Heq.
    rewrite Heq in Hpos. by apply Qclt_not_eq in Hpos.
Qed.

(** The score is the exact quotient up to two roundings. *)
Lemma score_error (covered total : nat) :
  1 <= covered -> 1 <= total ->
  let exact := (Qc_of_nat covered / Qc_of_nat total * Qc_of_nat 100)%Qc in
  (Qabs (score covered total - exact) <= exact * (1 # 2 ^ 51))%Q.
Proof.
  intros Hc Ht exact. unfold score, float_mul, int_truediv.
  destruct (Nat.ltb_spec 0 total); [|lia].
  set (q := (Qc_of_nat covered / Qc_of_nat total)%Qc) in *.
  assert (Hq : (0 < q)%Qc).
  { unfold q, Qclt, Qcdiv, Qcmult, Qcinv. simpl. rewrite !Qred_correct.
    apply Qlt_shift_div_l.
    - change 0%Q with (inject_Z 0). rewrite <- Zlt_Qlt. lia.
    - rewrite Qmult_0_l. change 0%Q with (inject_Z 0). rewrite <- Zlt_Qlt. lia. }
  pose proof (float_of_error q Hq) as H1.
  assert (Hq' : (0 < float_of q)%Qc).
  { rewrite float_of_pos by done. unfold Qclt, Q2Qc. cbn [this].
    rewrite !Qred_correct. destruct (round_53_range q Hq) as [Hr _].
    eapply Qlt_le_trans; [apply Qpower2_pos|exact Hr]. }
  assert (H100 : (0 < float_of q * Qc_of_nat 100)%Qc).
  { unfold Qclt, Qcmult, Q2Qc. cbn [this]. rewrite !Qred_correct.
    by apply Qmult_lt_0_compat. }
  pose proof (float_of_error _ H100) as H2.
  unfold exact. fold q.
  set (s := float_of (float_of q * Qc_of_nat 100)) in *.
  assert (Hm : (this (float_of q * Qc_of_nat 100)%Qc == float_of q * 100)%Q).
  { unfold Qcmult, Q2Qc. cbn [this]. by rewrite Qred_correct. }
  assert (Hm' : (this (q * Qc_of_nat 100)%Qc == q * 100)%Q).
  { unfold Qcmult, Q2Qc. cbn [this]. by rewrite Qred_correct. }
  rewrite Hm in H2. rewrite Hm'.
  unfold Qclt in Hq. simpl in Hq.
  apply Qabs_Qle_condition in H1, H2. apply Qabs_Qle_condition.
  change (1 # 2 ^ 53)%Q with (1 # 9007199254740992)%Q in *.
  change (1 # 2 ^ 51)%Q with (1 # 2251799813685248)%Q.
  set (a := this q) in *. set (b := this (float_of q)) in *.
  set (c := this s) in *. clearbody a b c.
  split; nra.
Qed.

Lemma extract_covered_at_least (d : Pdf) (r : Result) :
  extract d = Ok r -> total_pages r <= size (pages_present (tables r)).
Proof.
  intros [Hpages _]%extract_pages. rewrite Hpages.
  rewrite <- (size_page_range (total_pages r)) at 1.
  apply subseteq_size. set_solver.
Qed.

(** *** The frames of the extraction stages *)

Lemma not_placeholder_neq (t : DataFrame) (p : nat) :
  not_placeholder t -> t <> empty_page_placeholder p.
Proof. intros Ht ->. by apply Ht. Qed.

Lemma indexed_not_placeholder (t : DataFrame) :
  lit "Table_Index" ∈ columns t -> not_placeholder t.
Proof.
  intros Hin Heq. rewrite Heq in Hin.
  assert (H : bool_decide
                (lit "Table_Index" ∈ columns (empty_page_placeholder 0)) = false)
    by (vm_compute; reflexivity).
  by apply bool_decide_eq_false in H.
Qed.

Lemma add_page_and_index_indexed (p i : nat) (df : DataFrame) :
  lit "Table_Index" ∈ columns (add_page_and_index p i df).
Proof.
  unfold add_page_and_index.
  set (df' := if has_column (lit "Page") df then df else _).
  destruct (has_column (lit "Table_Index") df') eqn:H.
  - by apply bool_decide_eq_true in H.
  - simpl. apply elem_of_app. right. by left.
Qed.

Lemma table_frame_not_placeholder p i table df :
  table_frame p i table = Ok (Some df) -> not_placeholder df.
Proof.
  unfold table_frame.
  destruct (filter (fun row => row_nonblank row) table) as [|first data_rows];
    [done|].
  match goal with |- context [mbind _ ?f] => destruct f as [df0|e] end;
    [|done].
  simpl. intros [= <-].
  apply indexed_not_placeholder, add_page_and_index_indexed.
Qed.

Lemma lines_table_not_placeholder p text df :
  lines_table p text = Some df -> not_placeholder df.
Proof.
  unfold lines_table. destruct text as [t|]; [|done].
  destruct (has_text (Some t)); [|done].
  destruct (text_lines t); [done|]. intros [= <-].
  apply indexed_not_placeholder, add_page_and_index_indexed.
Qed.

Lemma Forall_append_if {A} (P : A -> Prop) (l : list A) (x : option A) :
  Forall P l -> (forall a, x = Some a -> P a) -> Forall P (append_if l x).
Proof.
  intros Hl Hx. destruct x as [a|]; simpl; [|done].
  apply Forall_app. split; [done|]. constructor; [by apply Hx|constructor].
Qed.

Lemma page_tables_loop_not_placeholder p page_tables : forall i tables found,
  Forall not_placeholder tables ->
  Forall not_placeholder (page_tables_loop p i page_tables tables found).1.
Proof.
  induction page_tables as [|table rest IH]; intros i tables found Hall;
    simpl; [done|].
  destruct (table_frame p i table) as [[df|]|e] eqn:Hframe; try by apply IH.
  apply IH. apply Forall_app. split; [done|].
  constructor; [by eapply table_frame_not_placeholder|constructor].
Qed.

Lemma text_tables_loop_not_placeholder pages : forall p tables,
  Forall not_placeholder tables ->
  Forall not_placeholder (text_tables_loop p pages tables).1.
Proof.
  induction pages as [|page rest IH]; intros p tables Hall; simpl; [done|].
  destruct (page_extract_tables page) as [page_tables|e]; [|done].
  pose proof (page_tables_loop_not_placeholder p page_tables 0 tables false Hall)
    as Hloop.
  destruct (page_tables_loop p 0 page_tables tables false) as [tables' found].
  simpl in Hloop. apply IH. destruct found; [done|].
  apply Forall_append_if; [done|]. unfold page_text_table.
  destruct (page_extract_text page); [|done].
  intros df. apply lines_table_not_placeholder.
Qed.

Lemma fallback_text_not_placeholder (d : Pdf) tables :
  Forall not_placeholder tables ->
  Forall not_placeholder (fallback_text d tables).
Proof.
  unfold fallback_text. destruct (open_pdf d) as [pages|e]; [|done].
  generalize 1. revert tables.
  induction pages as [|page rest IH]; intros tables p Hall; simpl; [done|].
  destruct (page_extract_text page) as [text|e]; [|done].
  apply IH, Forall_append_if; [done|].
  intros df. apply lines_table_not_placeholder.
Qed.

Lemma extract_text_tables_not_placeholder (d : Pdf) :
  Forall not_placeholder (extract_text_tables d).
Proof.
  unfold extract_text_tables.
  assert (Hstage : Forall not_placeholder
    (match open_pdf d with
     | Ok pages =>
         match text_tables_loop 1 pages [] with
         | (tables, None) => (tables, length pages)
         | (tables, Some _) => (fallback_text d tables, length pages)
         end
     | Raise _ => (fallback_text d [], 0)
     end).1).
  { destruct (open_pdf d) as [pages|e]; simpl.
    - pose proof (text_tables_loop_not_placeholder pages 1 [] (Forall_nil _))
        as Hloop.
      destruct (text_tables_loop 1 pages []) as [tables [e|]]; simpl in *;
        [by apply fallback_text_not_placeholder|done].
    - by apply fallback_text_not_placeholder. }
  destruct (match open_pdf d with Ok _ => _ | Raise _ => _ end)
    as [tables total].
  simpl in Hstage. destruct (length tables <? total); [|done].
  apply Forall_app. split; [done|]. apply Forall_fmap, Forall_true.
  intros p. by apply indexed_not_placeholder; right; left.
Qed.

Lemma extract_from_images_not_placeholder (d : Pdf) :
  Forall not_placeholder (extract_from_images d).
Proof.
  unfold extract_from_images. destruct (rasterizes d); [|done].
  generalize 0, (@nil DataFrame), (Forall_nil not_placeholder).
  induction (pdf_pages d) as [|page rest IH]; intros i tables Hall; simpl;
    [done|].
  destruct (page_image_to_string page) as [text|e]; [|done].
  destruct (text_lines text) as [|line lines]; [by apply IH|].
  destruct (ocr_frame (line :: lines)) as [df|e]; [|done].
  apply IH, Forall_app. split; [done|].
  constructor; [|constructor].
  apply indexed_not_placeholder, add_page_and_index_indexed.
Qed.

Lemma comprehensive_page_not_placeholder p text words :
  Forall not_placeholder (comprehensive_page p text words).
Proof.
  unfold comprehensive_page. repeat apply Forall_app_2.
  - destruct text as [t|]; [|done]. destruct (has_text (Some t)); [|done].
    destruct (text_lines t); [done|]. by repeat constructor.
  - destruct words; [done|]. by repeat constructor.
  - destruct (negb (truthy text) && bool_decide (words = [])); [|done].
    by repeat constructor.
Qed.

Lemma comprehensive_loop_not_placeholder pages : forall p tables,
  Forall not_placeholder tables ->
  Forall not_placeholder (comprehensive_loop p pages tables).
Proof.
  induction pages as [|page rest IH]; intros p tables Hall; simpl; [done|].
  destruct (page_extract_text page) as [text|e]; [|done].
  apply IH, Forall_app. split; [done|].
  apply comprehensive_page_not_placeholder.
Qed.

Lemma remaining_content_not_placeholder (d : Pdf) :
  Forall not_placeholder (extract_remaining_content d).
Proof.
  unfold extract_remaining_content. destruct (open_pdf d) as [pages|e]; [|done].
  apply list.Forall_forall. intros t [l [Ht Hl]]%list_elem_of_join.
  apply elem_of_lookup_imap in Hl as (i & page & -> & _).
  unfold remaining_page in Ht. apply elem_of_app in Ht as [Ht|Ht].
  - destruct (page_images page); [by inversion Ht|].
    apply list_elem_of_singleton in Ht as ->. done.
  - destruct (page_annots page); [by inversion Ht|].
    apply list_elem_of_singleton in Ht as ->. done.
Qed.

Lemma gathered_tables_not_placeholder (d : Pdf) :
  Forall not_placeholder (gathered_tables d).
Proof.
  unfold gathered_tables. repeat apply Forall_app_2.
  - destruct (is_text_based d);
      [apply extract_text_tables_not_placeholder
      |apply extract_from_images_not_placeholder].
  - unfold extract_all_text_comprehensive.
    destruct (open_pdf d); [|done].
    by apply comprehensive_loop_not_placeholder.
  - apply remaining_content_not_placeholder.
Qed.

Lemma column_values_first (name : list N) cols (rws : list (list value)) :
  column_values name {| columns := name :: cols; rows := rws |}
  = (fun row => default VNone (row !! 0)) <$> rws.
Proof.
  unfold column_values. simpl. by rewrite bool_decide_eq_true_2.
Qed.

Lemma on_page_inv (q : nat) (t : DataFrame) :
  on_page q t = true -> VInt (Z.of_nat q) ∈ column_values (lit "Page") t.
Proof.
  unfold on_page. intros [_ H]%andb_true_iff. by apply bool_decide_eq_true in H.
Qed.

Lemma imap_rows_page {A} (f : nat -> A -> list value) (l : list A) (p : nat) v :
  (forall i x, f i x !! 0 = Some (VInt (Z.of_nat p))) ->
  v ∈ (fun row : list value => default VNone (row !! 0)) <$> imap f l ->
  v = VInt (Z.of_nat p).
Proof.
  intros Hf (row & -> & Hrow)%list_elem_of_fmap.
  apply elem_of_lookup_imap in Hrow as (i & x & -> & _). by rewrite Hf.
Qed.

(** The frames the comprehensive stage emits for page [p] carry the page
    value [p] only. *)
Lemma comprehensive_page_on_page p text words t q :
  t ∈ comprehensive_page p text words -> on_page q t = true -> q = p.
Proof.
  unfold comprehensive_page. intros Ht Hq%on_page_inv.
  assert (Hv : VInt (Z.of_nat q) = VInt (Z.of_nat p)); [|injection Hv; lia].
  rewrite !elem_of_app in Ht. destruct Ht as [Ht|[Ht|Ht]].
  - destruct text as [s|]; [|by inversion Ht].
    destruct (has_text (Some s)); [|by inversion Ht].
    destruct (text_lines s) as [|line lines]; [by inversion Ht|].
    apply list_elem_of_singleton in Ht as ->.
    unfold text_line_frame in Hq. rewrite column_values_first in Hq.
    by eapply imap_rows_page in Hq.
  - destruct words as [|w ws]; [by inversion Ht|].
    apply list_elem_of_singleton in Ht as ->.
    unfold word_frame in Hq. rewrite column_values_first in Hq.
    by eapply imap_rows_page in Hq.
  - destruct (negb (truthy text) && bool_decide (words = [])); [|by inversion Ht].
    apply list_elem_of_singleton in Ht as ->.
    unfold no_text_frame in Hq. rewrite column_values_first in Hq.
    simpl in Hq. by apply list_elem_of_singleton in Hq.
Qed.

Lemma filter_none {A} (P : A -> Prop) `{!forall x, Decision (P x)} (l : list A) :
  (forall x, x ∈ l -> ~ P x) -> filter P l = [].
Proof.
  induction l as [|x l IH]; intros Hall; [done|].
  rewrite filter_cons_False by (apply Hall; by left).
  apply IH. intros y Hy. apply Hall. by right.
Qed.

Lemma filter_on_other_page p text words q :
  q <> p -> filter (fun t => on_page q t) (comprehensive_page p text words) = [].
Proof.
  intros Hne. apply filter_none. intros t Ht Hon%Is_true_true.
  apply Hne. by eapply comprehensive_page_on_page.
Qed.

Lemma comprehensive_page_blank p text :
  truthy text = false -> comprehensive_page p text [] = [no_text_frame p].
Proof.
  intros Hfalsy. unfold comprehensive_page, has_text. rewrite Hfalsy.
  by destruct text.
Qed.

Lemma no_text_frame_pages (p : nat) :
  page_values (no_text_frame p) = {[ VInt (Z.of_nat p) ]}.
Proof.
  unfold page_values, no_text_frame, has_column, column_values.
  simpl. set_solver.
Qed.

Lemma no_text_frame_on_page p : on_page p (no_text_frame p) = true.
Proof.
  unfold on_page. apply andb_true_iff. split; [done|].
  apply bool_decide_eq_true. unfold no_text_frame.
  rewrite column_values_first. simpl. by left.
Qed.

(** C8 (as amended): in a three-page document whose second page yields no
    tables, no text, no words and no images, and whose first page's text
    is extracted without error, the comprehensive text stage itself emits
    exactly one record for page 2, tagged No_Text_Content; page 2 is
    therefore covered before reconciliation, reconciliation adds no
    Empty_Page placeholder for it, and the completeness score of a result
    is at least 100. *)
Theorem blank_page_gets_no_text_content (d : Pdf) (p1 p2 p3 : Page) :
  opens d = true -> pdf_pages d = [p1; p2; p3] ->
  yields_nothing p2 ->
  (exists text, page_extract_text p1 = Ok text) ->
  filter (fun t => on_page 2 t) (extract_all_text_comprehensive d)
  = [no_text_frame 2] /\
  (2 ∉ pages_missing (gathered_tables d) 3) /\
  forall r, extract d = Ok r ->
    total_pages r = 3 /\
    (empty_page_placeholder 2 ∉ tables r) /\
    (Qc_of_nat 100 <= completeness_score r)%Qc.
Proof.
  intros Hopen Hpages (_ & (text2 & Ht2 & Hfalsy) & Hw2 & _) [text1 Ht1].
  assert (Hstage : filter (fun t => on_page 2 t)
                     (extract_all_text_comprehensive d) = [no_text_frame 2]).
  { unfold extract_all_text_comprehensive, open_pdf.
    rewrite Hopen, Hpages. simpl. rewrite Ht1, Ht2, Hw2.
    rewrite (comprehensive_page_blank 2 text2 Hfalsy).
    assert (Hhead : filter (fun t => on_page 2 t)
                      (comprehensive_page 1 text1 (page_extract_words p1)
                       ++ [no_text_frame 2]) = [no_text_frame 2]).
    { rewrite list.filter_app, filter_on_other_page by lia.
      rewrite filter_cons_True; [done|].
      apply Is_true_true, no_text_frame_on_page. }
    destruct (page_extract_text p3) as [text3|e]; [|done].
    by rewrite list.filter_app, Hhead, filter_on_other_page by lia. }
  assert (Hcovered : VInt (Z.of_nat 2) ∈ pages_present (gathered_tables d)).
  { apply elem_of_pages_present. exists (no_text_frame 2).
    split; [|rewrite no_text_frame_pages; by apply elem_of_singleton].
    unfold gathered_tables. rewrite !elem_of_app. right. left.
    assert (H : no_text_frame 2 ∈ [no_text_frame 2]) by by left.
    rewrite <- Hstage in H. by apply list_elem_of_filter in H as [_ H]. }
  assert (Hmissing : 2 ∉ pages_missing (gathered_tables d) 3).
  { by intros [_ H]%elem_of_pages_missing. }
  split_and!; [done|done|].
  intros r Hr.
  assert (Htotal : total_pages r = 3).
  { apply extract_Ok in Hr as (? & _ & _ & -> & _).
    unfold page_count, open_pdf. by rewrite Hopen, Hpages. }
  split_and!; [done| |].
  - pose proof Hr as (all_tables & Hrec & Hcons & Hn & _)%extract_Ok.
    rewrite <- Hn, Htotal in Hrec, Hcons.
    apply cover_missing_Ok in Hrec as [-> _].
    apply consolidate_pages in Hcons as [[_ ->]|[_ (summary & -> & Hsum)]];
      [by intros H; inversion H|].
    rewrite elem_of_cons, elem_of_app. intros [Heq|[Hin|Hin]].
    + rewrite <- Heq, empty_page_placeholder_pages in Hsum.
      assert (H1 : VInt (Z.of_nat 1) ∈ page_range 3).
      { apply elem_of_page_range. exists 1. split; [done|lia]. }
      rewrite <- Hsum in H1. by apply elem_of_singleton in H1.
    + pose proof (gathered_tables_not_placeholder d) as Hall.
      rewrite list.Forall_forall in Hall. by apply (Hall _ Hin).
    + apply list_elem_of_fmap in Hin as (q & Heq & Hq).
      apply (f_equal page_values) in Heq.
      rewrite !empty_page_placeholder_pages in Heq.
      assert (q = 2); [|by subst q].
      assert (H : VInt (Z.of_nat 2) ∈ ({[VInt (Z.of_nat q)]} : gset value))
        by (rewrite <- Heq; by apply elem_of_singleton).
      apply elem_of_singleton in H. injection H. lia.
  - pose proof (extract_covered_at_least d r Hr) as Hcov.
    apply extract_Ok in Hr as (? & _ & _ & _ & _ & ->).
    apply score_at_least; [lia|done].
Qed.

(** *** Documents without tables

    In a text-based document none of whose pages has a table, every frame
    the stages emit gets its [Page] column from the pipeline. *)

Lemma page_values_first_column cols (rws : list (list value)) (p : nat) :
  Forall (fun row => row !! 0 = Some (VInt (Z.of_nat p))) rws ->
  page_values {| columns := lit "Page" :: cols; rows := rws |}
  ⊆ {[ VInt (Z.of_nat p) ]}.
Proof.
  intros Hrows. unfold page_values, has_column.
  rewrite bool_decide_eq_true_2 by by left.
  rewrite column_values_first. intros v Hv.
  apply elem_of_list_to_set, list_elem_of_fmap in Hv as (row & -> & Hrow).
  rewrite list.Forall_forall in Hrows. rewrite (Hrows row Hrow).
  by apply elem_of_singleton.
Qed.

Lemma Forall_imap_rows {A} (f : nat -> A -> list value) (l : list A) (v : value) :
  (forall i x, f i x !! 0 = Some v) ->
  Forall (fun row => row !! 0 = Some v) (imap f l).
Proof.
  intros Hf. apply list.Forall_forall. intros row Hrow.
  apply elem_of_lookup_imap in Hrow as (i & x & -> & _). apply Hf.
Qed.

Lemma singleton_in_range (n p : nat) (t : DataFrame) :
  1 <= p <= n -> page_values t ⊆ {[ VInt (Z.of_nat p) ]} -> in_range n t.
Proof.
  intros Hp Ht v Hv. apply Ht, elem_of_singleton in Hv as ->.
  apply elem_of_page_range. by exists p.
Qed.

Lemma add_page_and_index_text_frame (p i : nat) (lines : list (list N)) :
  add_page_and_index p i (text_frame lines)
  = {| columns := [lit "Page"; lit "Table_Index"; lit "Text"];
       rows := (fun line => [VInt (Z.of_nat p); VInt (Z.of_nat i); VStr line])
               <$> lines |}.
Proof.
  unfold add_page_and_index, text_frame.
  change (has_column (lit "Page") {| columns := [lit "Text"]; rows := _ |})
    with false. cbv iota.
  unfold df_insert. simpl columns. simpl rows.
  change (has_column (lit "Table_Index")
            {| columns := [lit "Page"; lit "Text"]; rows := _ |}) with false.
  cbv iota. simpl. f_equal. rewrite <- !list_fmap_compose. done.
Qed.

Lemma lines_table_in_range (n p : nat) text df :
  1 <= p <= n -> lines_table p text = Some df -> in_range n df.
Proof.
  intros Hp. unfold lines_table. destruct text as [t|]; [|done].
  destruct (has_text (Some t)); [|done].
  destruct (text_lines t) as [|line lines]; [done|]. intros [= <-].
  rewrite add_page_and_index_text_frame.
  apply (singleton_in_range n p); [done|].
  apply page_values_first_column.
  apply list.Forall_forall. by intros row (line' & -> & _)%list_elem_of_fmap.
Qed.

Lemma text_tables_loop_in_range (n : nat) pages : forall p tables,
  Forall (fun page => page_extract_tables page = Ok []) pages ->
  Forall (in_range n) tables ->
  1 <= p -> p + length pages <= S n ->
  exists tables', text_tables_loop p pages tables = (tables', None) /\
                  Forall (in_range n) tables'.
Proof.
  induction pages as [|page rest IH]; intros p tables Hnone Hall Hp Hn; simpl.
  - by exists tables.
  - apply list.Forall_cons in Hnone as [-> Hnone]. simpl in *.
    apply IH; [done| |lia|lia].
    apply Forall_append_if; [done|]. unfold page_text_table.
    destruct (page_extract_text page) as [text|e]; [|done].
    intros df. apply lines_table_in_range. lia.
Qed.

Lemma placeholders_in_range (n : nat) (tables : list DataFrame) :
  Forall (in_range n) (no_content_placeholder <$> pages_missing tables n).
Proof.
  apply Forall_fmap, list.Forall_forall.
  intros p [Hp _]%elem_of_pages_missing.
  apply (singleton_in_range n p); [done|].
  apply page_values_first_column. by repeat constructor.
Qed.

Lemma extract_text_tables_in_range (d : Pdf) :
  opens d = true ->
  Forall (fun page => page_extract_tables page = Ok []) (pdf_pages d) ->
  Forall (in_range (length (pdf_pages d))) (extract_text_tables d).
Proof.
  intros Hopen Hnone. unfold extract_text_tables, open_pdf. rewrite Hopen.
  destruct (text_tables_loop_in_range (length (pdf_pages d)) (pdf_pages d) 1 [])
    as (tables & -> & Hall); [done|done|lia|lia|].
  destruct (length tables <? length (pdf_pages d)); [|done].
  apply Forall_app. split; [done|apply placeholders_in_range].
Qed.

Lemma comprehensive_page_in_range (n p : nat) text words :
  1 <= p <= n -> Forall (in_range n) (comprehensive_page p text words).
Proof.
  intros Hp. unfold comprehensive_page. repeat apply Forall_app_2.
  - destruct text as [t|]; [|done]. destruct (has_text (Some t)); [|done].
    destruct (text_lines t) as [|line lines]; [done|].
    constructor; [|done]. apply (singleton_in_range n p); [done|].
    by apply page_values_first_column, Forall_imap_rows.
  - destruct words as [|w ws]; [done|].
    constructor; [|done]. apply (singleton_in_range n p); [done|].
    by apply page_values_first_column, Forall_imap_rows.
  - destruct (negb (truthy text) && bool_decide (words = [])); [|done].
    constructor; [|done]. apply (singleton_in_range n p); [done|].
    apply page_values_first_column. by repeat constructor.
Qed.

Lemma comprehensive_loop_in_range (n : nat) pages : forall p tables,
  Forall (in_range n) tables -> 1 <= p -> p + length pages <= S n ->
  Forall (in_range n) (comprehensive_loop p pages tables).
Proof.
  induction pages as [|page rest IH]; intros p tables Hall Hp Hn; simpl;
    [done|].
  destruct (page_extract_text page) as [text|e]; [|done]. simpl in Hn.
  apply IH; [|lia|lia]. apply Forall_app. split; [done|].
  apply comprehensive_page_in_range. lia.
Qed.

Lemma remaining_content_in_range (d : Pdf) :
  Forall (in_range (length (pdf_pages d))) (extract_remaining_content d).
Proof.
  unfold extract_remaining_content, open_pdf. destruct (opens d); [|done].
  apply list.Forall_forall. intros t [l [Ht Hl]]%list_elem_of_join.
  apply elem_of_lookup_imap in Hl as (i & page & -> & Hi).
  apply lookup_lt_Some in Hi.
  unfold remaining_page in Ht. apply elem_of_app in Ht as [Ht|Ht].
  - destruct (page_images page) as [|img imgs]; [by inversion Ht|].
    apply list_elem_of_singleton in Ht as ->.
    apply (singleton_in_range _ (i + 1)); [lia|].
    by apply page_values_first_column, Forall_imap_rows.
  - destruct (page_annots page) as [|ann anns]; [by inversion Ht|].
    apply list_elem_of_singleton in Ht as ->.
    apply (singleton_in_range _ (i + 1)); [lia|].
    by apply page_values_first_column, Forall_imap_rows.
Qed.

Lemma pages_present_in_range (n : nat) (tables : list DataFrame) :
  Forall (in_range n) tables -> pages_present tables ⊆ page_range n.
Proof.
  intros Hall v (t & Ht & Hv)%elem_of_pages_present.
  rewrite list.Forall_forall in Hall. by apply (Hall t Ht).
Qed.

(** The tables gathered from a text-based document without tables hold
    page numbers of the document only. *)
Lemma gathered_pages_in_range (d : Pdf) :
  opens d = true -> is_text_based d = true ->
  Forall (fun page => page_extract_tables page = Ok []) (pdf_pages d) ->
  pages_present (gathered_tables d) ⊆ page_range (page_count d).
Proof.
  intros Hopen Htext Hnone.
  assert (Hcount : page_count d = length (pdf_pages d)).
  { unfold page_count, open_pdf. by rewrite Hopen. }
  rewrite Hcount. apply pages_present_in_range.
  unfold gathered_tables. rewrite Htext. repeat apply Forall_app_2.
  - by apply extract_text_tables_in_range.
  - unfold extract_all_text_comprehensive, open_pdf. rewrite Hopen.
    apply comprehensive_loop_in_range; [done|lia|lia].
  - apply remaining_content_in_range.
Qed.

(** *** When [extract] returns *)

Lemma cover_missing_total (d : Pdf) (missing : list nat) : forall all_tables,
  Forall (fun p => extract_page_content d p = None) missing ->
  cover_missing d missing all_tables
  = Ok (all_tables ++ (empty_page_placeholder <$> missing)).
Proof.
  induction missing as [|p missing IH]; intros all_tables Hall; simpl.
  - by rewrite app_nil_r.
  - apply list.Forall_cons in Hall as [-> Hall].
    rewrite IH by done. by rewrite <- app_assoc.
Qed.

Lemma consolidate_tables_total (all_tables : list DataFrame) (n : nat) :
  Forall typed_content all_tables ->
  exists result, consolidate_tables all_tables n = Ok result.
Proof.
  intros Htyped. unfold consolidate_tables.
  destruct all_tables as [|t0 rest] eqn:Hall; [by eexists|].
  rewrite <- Hall in *.
  destruct (mapM_exc_total (summary_row all_tables) (seq 1 n)) as [data ->];
    [|simpl; by eexists].
  intros p _. by apply summary_row_total.
Qed.

Lemma empty_page_placeholder_typed (p : nat) :
  typed_content (empty_page_placeholder p).
Proof.
  unfold typed_content.
  change (column_values (lit "Content_Type") (empty_page_placeholder p))
    with [VStr (lit "Empty_Page")].
  constructor; [by eexists|constructor].
Qed.

(** [extract] returns a result when the file exists, no missing page has
    content left for [extract_page_content] to find, and the content
    types gathered are strings. *)
Lemma extract_returns (d : Pdf) :
  path_exists d = true ->
  Forall (fun p => extract_page_content d p = None)
         (pages_missing (gathered_tables d) (page_count d)) ->
  Forall typed_content (gathered_tables d) ->
  exists r, extract d = Ok r.
Proof.
  intros Hexists Hmissing Htyped. unfold extract, extract_visiting.
  rewrite Hexists. simpl. rewrite cover_missing_total by done. simpl.
  destruct (consolidate_tables_total
              (gathered_tables d ++ (empty_page_placeholder <$>
                 pages_missing (gathered_tables d) (page_count d)))
              (page_count d)) as [result ->]; [|simpl; by eexists].
  apply Forall_app. split; [done|].
  apply Forall_fmap, Forall_true. apply empty_page_placeholder_typed.
Qed.

(** It raises when a missing page still has content: the frame returned
    for the page is used as a truth value. *)
Example extract_raises_on_residual_content :
  pages_missing (gathered_tables whitespace_document) 1 = [1] /\
  extract whitespace_document = Raise ValueError.
Proof. split; by vm_compute. Qed.

(** *** Coverage and score of a result *)

(** C1 (as amended): whenever [extract] returns, every page number of
    [1 .. total_pages] is the page value of one of the returned segments
    (already of those after the summary), so the set of distinct page
    values contains [{1, ..., total_pages}]; the two sets are equal exactly
    when the tables gathered by the extraction stages hold no other page
    value, as is the case for a text-based document none of whose pages
    has a table. *)
Theorem extract_covers_every_page (d : Pdf) (r : Result) :
  extract d = Ok r ->
  (forall p, 1 <= p <= total_pages r ->
     exists t, t ∈ drop 1 (tables r) /\ VInt (Z.of_nat p) ∈ page_values t) /\
  page_range (total_pages r) ⊆ pages_present (tables r) /\
  (pages_present (tables r) = page_range (total_pages r) <->
   pages_present (gathered_tables d) ⊆ page_range (total_pages r)) /\
  (opens d = true -> is_text_based d = true ->
   Forall (fun page => page_extract_tables page = Ok []) (pdf_pages d) ->
   pages_present (tables r) = page_range (total_pages r)).
Proof.
  intros Hr. pose proof (extract_pages d r Hr) as [Hpages Hdrop].
  assert (Hiff : pages_present (tables r) = page_range (total_pages r) <->
                 pages_present (gathered_tables d) ⊆ page_range (total_pages r)).
  { rewrite Hpages. set_solver. }
  split_and!; [| |done|].
  - intros p Hp. apply elem_of_pages_present. rewrite Hdrop, Hpages.
    apply elem_of_union_l, elem_of_page_range. by exists p.
  - rewrite Hpages. set_solver.
  - intros Hopen Htext Hnone. apply Hiff.
    apply extract_Ok in Hr as (_ & _ & _ & -> & _).
    by apply gathered_pages_in_range.
Qed.

(** C2 (as amended): the reported score is the float
    [covered_pages / total_pages * 100], computed as Python computes it (a
    division and a multiplication, each rounded to the nearest float), with
    [covered_pages] the number of distinct page values of the consolidated
    tables, and 100 when [total_pages = 0]; it differs from the exact
    quotient by a relative error of at most [2 ^ -51].  For
    [total_pages >= 1] it is never below 100, and it is 100 when the
    gathered tables hold no page value outside [1 .. total_pages], as is
    the case for a text-based document none of whose pages has a table. *)
Theorem completeness_score_formula (d : Pdf) (r : Result) :
  extract d = Ok r ->
  extracted_pages r = size (pages_present (tables r)) /\
  completeness_score r
  = (if 0 <? total_pages r
     then float_mul (int_truediv (extracted_pages r) (total_pages r))
                    (Qc_of_nat 100)
     else Qc_of_nat 100) /\
  (1 <= total_pages r ->
   let exact := (Qc_of_nat (extracted_pages r) / Qc_of_nat (total_pages r)
                 * Qc_of_nat 100)%Qc in
   (Qabs (completeness_score r - exact) <= exact * (1 # 2 ^ 51))%Q) /\
  (total_pages r = 0 -> completeness_score r = Qc_of_nat 100) /\
  (1 <= total_pages r -> (Qc_of_nat 100 <= completeness_score r)%Qc) /\
  (1 <= total_pages r ->
   pages_present (gathered_tables d) ⊆ page_range (total_pages r) ->
   completeness_score r = Qc_of_nat 100) /\
  (1 <= total_pages r -> opens d = true -> is_text_based d = true ->
   Forall (fun page => page_extract_tables page = Ok []) (pdf_pages d) ->
   completeness_score r = Qc_of_nat 100).
Proof.
  intros Hr. pose proof (extract_covered_at_least d r Hr) as Hcov.
  pose proof (extract_pages d r Hr) as [Hpages _].
  apply extract_Ok in Hr as (all_tables & _ & _ & Htotal & Hext & Hscore).
  assert (Hfull : 1 <= total_pages r ->
            pages_present (gathered_tables d) ⊆ page_range (total_pages r) ->
            score (size (pages_present (tables r))) (total_pages r)
            = Qc_of_nat 100).
  { intros Hn Hsub.
    assert (pages_present (tables r) = page_range (total_pages r)) as ->
      by set_solver.
    rewrite size_page_range. by apply score_full. }
  rewrite Hscore, Hext. split_and!; [done|done|..].
  - intros Hn. apply score_error; lia.
  - intros ->. done.
  - intros Hn. by apply score_at_least.
  - done.
  - intros Hn Hopen Htext Hnone. apply Hfull; [done|].
    rewrite Htotal. by apply gathered_pages_in_range.
Qed.

(** The float model at work: four pages covered out of three are scored
    133.33333333333331, the float nearest to that decimal, and not
    400/3. *)
Example score_four_thirds :
  score 4 3 = float_of (Q2Qc (13333333333333331 # 100000000000000)) /\
  score 4 3 = Q2Qc (2345624805922133 # 17592186044416) /\
  score 4 3 <> (Qc_of_nat 4 / Qc_of_nat 3 * Qc_of_nat 100)%Qc.
Proof.
  split_and!; [by apply Qc_is_canon|by apply Qc_is_canon|].
  intros H. apply (f_equal this) in H. vm_compute in H. discriminate H.
Qed.

(** ** StructureClassifier *)

Lemma ffill_from_valid (last_valid : value) (column : list value) :
  Forall (fun v => v <> VNone) column -> ffill_from last_valid column = column.
Proof.
  intros H. revert last_valid.
  induction H as [|v column Hv _ IH]; intros last_valid; [done|].
  simpl. destruct v; [by rewrite IH|by rewrite IH|done].
Qed.

Lemma classify_string_fields (st : State) (row : Line) :
  string_fields (classify st row).2.
Proof.
  unfold classify.
  repeat match goal with
         | |- context [match ?x with _ => _ end] => destruct x
         end; by repeat split.
Qed.

Lemma classify_all_string_fields (df : list Line) : forall st,
  Forall string_fields (classify_all st df).
Proof.
  induction df as [|row rest IH]; intros st; simpl; [done|].
  pose proof (classify_string_fields st row) as Hrow.
  destruct (classify st row) as [st' node]. by constructor.
Qed.

Lemma zip_with_set_same {A} (set : Node -> A -> Node) (get : Node -> A)
    (nodes : list Node) :
  (forall n, set n (get n) = n) -> zip_with set nodes (get <$> nodes) = nodes.
Proof.
  intros Hset. induction nodes as [|n nodes IH]; [done|].
  csimpl. by rewrite Hset, IH.
Qed.

(** On nodes whose ancestry fields are strings, blank or not, the
    forward-fill pass changes nothing. *)
Lemma forward_fill_string_fields (nodes : list Node) :
  Forall string_fields nodes -> forward_fill nodes = nodes.
Proof.
  intros Hall. unfold forward_fill, ffill.
  rewrite (ffill_from_valid VNone (node_unit <$> nodes)).
  2:{ apply Forall_fmap. eapply Forall_impl; [|exact Hall]. by intros n [? _]. }
  rewrite (zip_with_set_same set_unit node_unit) by by intros [].
  rewrite (ffill_from_valid VNone (node_topic <$> nodes)).
  2:{ apply Forall_fmap. eapply Forall_impl; [|exact Hall].
      by intros n (_ & ? & _). }
  rewrite (zip_with_set_same set_topic node_topic) by by intros [].
  rewrite (ffill_from_valid VNone (node_subtopic <$> nodes)).
  2:{ apply Forall_fmap. eapply Forall_impl; [|exact Hall].
      by intros n (_ & _ & ?). }
  by rewrite (zip_with_set_same set_subtopic node_subtopic) by by intros [].
Qed.

(** The classifier returns its nodes as they stood before the forward-fill
    pass. *)
Lemma organize_keeps_nodes (df : list Line) (nodes : list Node) :
  organize_syllabus_structure df = Ok nodes ->
  df = [] /\ nodes = [] \/ nodes = organized_data df.
Proof.
  unfold organize_syllabus_structure. destruct df as [|row rest] eqn:Hdf.
  - intros [= <-]. by left.
  - rewrite <- Hdf. destruct (organized_data df) as [|n ns] eqn:Hdata; [done|].
    intros [= <-]. right. rewrite <- Hdata. apply forward_fill_string_fields.
    apply classify_all_string_fields.
Qed.

(** C3, at the failing input: a topic header is followed by a second unit
    header.  The topic of the unit header is blank before the forward-fill
    pass and the nearest preceding non-blank topic is that of the second
    node, but the pass leaves it blank. *)
Theorem forward_fill_leaves_blank_topic :
  exists n1 n2 n3,
    organized_data methods_lines = [n1; n2; n3] /\
    organize_syllabus_structure methods_lines = Ok [n1; n2; n3] /\
    node_type_tag n3 = Unit_Header /\
    node_topic n2 = VStr (lit "a). Overview") /\
    node_topic n3 = VStr [].
Proof.
  eexists _, _, _. split; [by vm_compute|].
  split; [by vm_compute|]. by split_and!.
Qed.

Lemma introduction_lines_nodes (page : list N) (n1 n2 n3 : option Z) :
  organize_syllabus_structure (introduction_lines page n1 n2 n3)
  = Ok [ make_node (text_line page n1 "1. Introduction")
           (lit "Unit 1: Introduction") [] [] Unit_Header 1;
         make_node (text_line page n2 "a) Overview")
           (lit "Unit 1: Introduction") (lit "a). Overview") [] Topic_Header 2;
         make_node (text_line page n3 "Some detail text")
           (lit "Unit 1: Introduction") (lit "a). Overview") [] Content 3 ].
Proof. by vm_compute. Qed.

(** C6 (as amended): the three lines yield a Unit_Header node with unit
    "Unit 1: Introduction", a Topic_Header node with that unit and the
    topic "a). Overview" (marker, full stop, title), and a Content node of
    level 3 with the same unit and topic. *)
Theorem classify_introduction_lines (page : list N) (n1 n2 n3 : option Z) :
  exists unit_node topic_node content_node,
    organize_syllabus_structure (introduction_lines page n1 n2 n3)
    = Ok [unit_node; topic_node; content_node] /\
    (node_type_tag unit_node = Unit_Header /\
     node_unit unit_node = VStr (lit "Unit 1: Introduction")) /\
    (node_type_tag topic_node = Topic_Header /\
     node_unit topic_node = VStr (lit "Unit 1: Introduction") /\
     node_topic topic_node = VStr (lit "a). Overview")) /\
    (node_type_tag content_node = Content /\
     node_unit content_node = VStr (lit "Unit 1: Introduction") /\
     node_topic content_node = VStr (lit "a). Overview") /\
     node_level content_node = 3).
Proof.
  eexists _, _, _. split; [apply introduction_lines_nodes|]. by split_and!.
Qed.

(** C6, as stated, fails: the topic is not the bare title. *)
Lemma classify_introduction_topic_not_bare :
  ~ exists n1 n2 n3,
      organize_syllabus_structure
        (introduction_lines (lit "Page 1") (Some 1%Z) (Some 2%Z) (Some 3%Z))
      = Ok [n1; n2; n3] /\
      node_type_tag n1 = Unit_Header /\
      node_unit n1 = VStr (lit "Unit 1: Introduction") /\
      node_type_tag n2 = Topic_Header /\
      node_unit n2 = VStr (lit "Unit 1: Introduction") /\
      node_topic n2 = VStr (lit "Overview") /\
      node_type_tag n3 = Content /\
      node_unit n3 = VStr (lit "Unit 1: Introduction") /\
      node_topic n3 = VStr (lit "Overview").
Proof.
  intros (n1 & n2 & n3 & H & _ & _ & _ & _ & Htopic & _).
  rewrite introduction_lines_nodes in H.
  injection H as <- <- <-. vm_compute in Htopic. discriminate Htopic.
Qed.

(** The sibling classifier of [syllabus_pdf_converter] keeps the bare
    title as topic, under the level tags Unit, Topic and Content, and its
    organizing step keeps the header rows only. *)
Lemma sibling_introduction_rows :
  extract_syllabus_structure introduction_document
  = [ syllabus_row 1 (lit "Unit 1: Introduction") [] []
        (lit "1. Introduction") Level_Unit;
      syllabus_row 1 (lit "Unit 1: Introduction") (lit "Overview") []
        (lit "a) Overview") Level_Topic;
      syllabus_row 1 (lit "Unit 1: Introduction") (lit "Overview") []
        (lit "Some detail text") Level_Content ] /\
  organize_syllabus_data (extract_syllabus_structure introduction_document)
  = [ syllabus_row 1 (lit "Unit 1: Introduction") [] []
        (lit "1. Introduction") Level_Unit;
      syllabus_row 1 (lit "Unit 1: Introduction") (lit "Overview") []
        (lit "a) Overview") Level_Topic ].
Proof. split; by vm_compute. Qed.

(** ** HeaderSanitizer: the shape of the labels *)

(** X1: every label returned by [_clean_column_names] is safe to store as a
    column header: it is not empty, has no leading or trailing whitespace,
    its only whitespace characters are single blanks between words (so that
    splitting it on whitespace and joining the words with one blank gives
    it back), and none of the characters [\ / * ? : [ ]] occurs in it. *)
Theorem clean_column_names_storage_safe (headers : list cell) :
  Forall (fun l : list N =>
            l <> [] /\ strip l = l /\ join (lit " ") (split_ws l) = l /\
            Forall (fun c => is_invalid c = false
                             /\ (isspace c = true -> c = ch " ")) l)
         (_clean_column_names headers).
Proof.
  eapply Forall_impl; [|apply clean_loop_tidy].
  intros l [Hs Hv]. split_and!.
  - by apply spaced_nonempty.
  - by apply strip_spaced.
  - unfold split_ws. by rewrite join_split_spaced.
  - apply list.Forall_forall. intros c Hc. split.
    + rewrite list.Forall_forall in Hv. by apply Hv.
    + pose proof (spaced_chars true l Hs) as Hch.
      rewrite list.Forall_forall in Hch.
      destruct (Hch c Hc) as [->|Hns]; [done|congruence].
Qed.

(** The text of a header is cut to 50 characters. *)
(** X2: cleaning the text of a header is idempotent.  The label that a
    non-blank header yields before duplicates are handled, put back as a
    header at any position, comes out unchanged; this holds for truncated
    labels too. *)
Theorem clean_header_idempotent (i j : nat) (s l : list N) :
  strip s <> [] -> clean_header i (CStr s) = Ok l ->
  clean_header j (CStr l) = Ok l.
Proof.
  intros Hs Hl. apply clean_header_fixed.
  - by eapply clean_header_tidy.
  - simpl in Hl. destruct (strip s); [done|]. injection Hl as <-.
    apply clean_header_text_length.
Qed.

Lemma clean_loop_distinct headers : forall i seen,
  NoDup (imap (fun j => base_label (i + j)) headers) ->
  (forall b, b ∈ imap (fun j => base_label (i + j)) headers -> b ∉ seen) ->
  clean_loop i headers seen = imap (fun j => base_label (i + j)) headers.
Proof.
  induction headers as [|header rest IH]; intros i seen Hnd Hseen; [done|].
  simpl in *. rewrite Nat.add_0_r in *.
  apply list.NoDup_cons in Hnd as [Hfresh Hnd].
  assert (Hh : match clean_header i header with
               | Ok h => dedup seen h
               | Raise _ => dedup seen (column_label i)
               end = base_label i header).
  { unfold base_label. destruct (clean_header i header) eqn:Hc;
      apply dedup_not_seen; specialize (Hseen (base_label i header));
      unfold base_label in Hseen; rewrite Hc in Hseen; apply Hseen; by left. }
  rewrite Hh. f_equal.
  assert (Hext : imap ((fun j => base_label (i + j)) ∘ S) rest
                 = imap (fun j => base_label (S i + j)) rest).
  { apply imap_ext. intros j x _. simpl. f_equal. lia. }
  rewrite Hext in *. apply IH; [done|].
  intros b Hb. apply not_elem_of_union. split.
  - apply not_elem_of_singleton. intros ->. done.
  - apply Hseen. by right.
Qed.

(** X3: the duplicate handling renames nothing it need not rename.  When
    the labels of the cells, as cleaned one by one, are pairwise distinct,
    [_clean_column_names] returns exactly these labels: no suffix is
    added. *)
Theorem clean_column_names_distinct_unchanged (headers : list cell) :
  NoDup (imap base_label headers) ->
  _clean_column_names headers = imap base_label headers.
Proof.
  intros Hnd. apply (clean_loop_distinct headers 0 ∅); [done|set_solver].
Qed.

(** ** Stage A: the frames of [extract_text_tables] and [extract_from_images] *)

Lemma df_insert_columns (loc : nat) (name : list N) (v : value) (df : DataFrame) :
  columns (df_insert loc name v df) ≡ₚ name :: columns df.
Proof.
  unfold df_insert. simpl. rewrite <- Permutation_middle.
  by rewrite take_drop.
Qed.

Lemma df_len_df_insert (loc : nat) (name : list N) (v : value) (df : DataFrame) :
  df_len (df_insert loc name v df) = df_len df.
Proof. unfold df_len, df_insert. simpl. by rewrite length_fmap. Qed.

Lemma df_len_add_page_and_index (p i : nat) (df : DataFrame) :
  df_len (add_page_and_index p i df) = df_len df.
Proof.
  unfold add_page_and_index.
  repeat match goal with
         | |- context [if ?b then _ else _] => destruct b
         end; by rewrite ?df_len_df_insert.
Qed.

Lemma add_page_and_index_well_labelled (p i : nat) (df : DataFrame) :
  NoDup (columns df) -> well_labelled (add_page_and_index p i df).
Proof.
  intros Hnd. unfold add_page_and_index, well_labelled.
  set (df' := if has_column (lit "Page") df then df else _).
  assert (Hdf' : NoDup (columns df') /\ lit "Page" ∈ columns df').
  { unfold df'. destruct (has_column (lit "Page") df) eqn:Hpage.
    - split; [done|]. by apply bool_decide_eq_true in Hpage.
    - apply bool_decide_eq_false in Hpage.
      rewrite df_insert_columns. split; [by constructor|by left]. }
  destruct Hdf' as [Hnd' Hpage'].
  destruct (has_column (lit "Table_Index") df') eqn:Hidx.
  - split_and!; [done|done|]. by apply bool_decide_eq_true in Hidx.
  - apply bool_decide_eq_false in Hidx. rewrite !df_insert_columns.
    split_and!; [by constructor|by right|by left].
Qed.

Lemma frame_of_rows_Ok (data : list (list value)) (cols : list (list N)) df :
  frame_of_rows data cols = Ok df ->
  columns df = cols /\ df_len df = length data.
Proof.
  unfold frame_of_rows. destruct data as [|row data].
  - by intros [= <-].
  - destruct (_ =? _); [|done]. intros [= <-]. unfold df_len. simpl.
    by rewrite length_fmap.
Qed.

Lemma column_label_inj (i j : nat) : column_label i = column_label j -> i = j.
Proof.
  unfold column_label. intros H%app_inv_head%dec_inj. lia.
Qed.

Lemma column_labels_NoDup (n : nat) : NoDup (column_label <$> seq 0 n).
Proof.
  apply NoDup_fmap_2; [|apply NoDup_seq]. intros i j. apply column_label_inj.
Qed.

Lemma table_frame_well_labelled p i table df :
  table_frame p i table = Ok (Some df) -> well_labelled df.
Proof.
  unfold table_frame.
  destruct (filter (fun row => row_nonblank row) table) as [|first data_rows];
    [done|].
  match goal with |- context [mbind _ ?f] => destruct f as [df0|e] eqn:Hf end;
    [|done].
  simpl. intros [= <-]. apply add_page_and_index_well_labelled.
  destruct data_rows as [|row data_rows];
    apply frame_of_rows_Ok in Hf as [-> _].
  - apply column_labels_NoDup.
  - apply clean_loop_fresh.
Qed.

Lemma lines_table_well_labelled p text df :
  lines_table p text = Some df -> well_labelled df.
Proof.
  unfold lines_table. destruct text as [t|]; [|done].
  destruct (has_text (Some t)); [|done].
  destruct (text_lines t); [done|]. intros [= <-].
  apply add_page_and_index_well_labelled. simpl.
  apply NoDup_singleton.
Qed.

Lemma no_content_placeholder_well_labelled (p : nat) :
  well_labelled (no_content_placeholder p).
Proof.
  unfold well_labelled, no_content_placeholder. simpl.
  split_and!; [decide_by_computation|by left|by right; left].
Qed.

Lemma ocr_frame_NoDup lines df : ocr_frame lines = Ok df -> NoDup (columns df).
Proof.
  unfold ocr_frame. destruct (_parse_ocr_text lines) as [[|headers data_rows]|].
  - intros [= <-]. apply NoDup_singleton.
  - intros [-> _]%frame_of_rows_Ok. apply clean_loop_fresh.
  - intros [= <-]. apply NoDup_singleton.
Qed.

(** What holds of the frames of one table and of one page's text holds of
    all the frames the text stage gathers. *)
Lemma page_tables_loop_Forall (P : DataFrame -> Prop) p page_tables :
  (forall i table df, table_frame p i table = Ok (Some df) -> P df) ->
  forall i tables found,
    Forall P tables -> Forall P (page_tables_loop p i page_tables tables found).1.
Proof.
  intros HP.
  induction page_tables as [|table rest IH]; intros i tables found Hall;
    simpl; [done|].
  destruct (table_frame p i table) as [[df|]|e] eqn:Hframe; try by apply IH.
  apply IH. apply Forall_app. split; [done|].
  constructor; [by eapply HP|constructor].
Qed.

Lemma text_tables_loop_Forall (P : DataFrame -> Prop) pages :
  (forall p i table df, table_frame p i table = Ok (Some df) -> P df) ->
  (forall p text df, lines_table p text = Some df -> P df) ->
  forall p tables,
    Forall P tables -> Forall P (text_tables_loop p pages tables).1.
Proof.
  intros HPt HPl.
  induction pages as [|page rest IH]; intros p tables Hall; simpl; [done|].
  destruct (page_extract_tables page) as [page_tables|e]; [|done].
  pose proof (page_tables_loop_Forall P p page_tables (HPt p) 0 tables false Hall)
    as Hloop.
  destruct (page_tables_loop p 0 page_tables tables false) as [tables' found].
  simpl in Hloop. apply IH. destruct found; [done|].
  apply Forall_append_if; [done|]. unfold page_text_table.
  destruct (page_extract_text page); [|done].
  intros df. apply HPl.
Qed.

Lemma fallback_text_loop_Forall (P : DataFrame -> Prop) pages :
  (forall p text df, lines_table p text = Some df -> P df) ->
  forall p tables,
    Forall P tables -> Forall P (fallback_text_loop p pages tables).
Proof.
  intros HPl.
  induction pages as [|page rest IH]; intros p tables Hall; simpl; [done|].
  destruct (page_extract_text page) as [text|e]; [|done].
  apply IH, Forall_append_if; [done|]. intros df. apply HPl.
Qed.

Lemma extract_text_tables_Forall (P : DataFrame -> Prop) (d : Pdf) :
  (forall p i table df, table_frame p i table = Ok (Some df) -> P df) ->
  (forall p text df, lines_table p text = Some df -> P df) ->
  (forall p, P (no_content_placeholder p)) ->
  Forall P (extract_text_tables d).
Proof.
  intros HPt HPl HPn. unfold extract_text_tables.
  assert (Hfallback : forall tables,
            Forall P tables -> Forall P (fallback_text d tables)).
  { intros tables Hall. unfold fallback_text.
    destruct (open_pdf d); [|done]. by apply fallback_text_loop_Forall. }
  assert (Hstage : Forall P
    (match open_pdf d with
     | Ok pages =>
         match text_tables_loop 1 pages [] with
         | (tables, None) => (tables, length pages)
         | (tables, Some _) => (fallback_text d tables, length pages)
         end
     | Raise _ => (fallback_text d [], 0)
     end).1).
  { destruct (open_pdf d) as [pages|e]; simpl.
    - pose proof (text_tables_loop_Forall P pages HPt HPl 1 [] (Forall_nil _))
        as Hloop.
      destruct (text_tables_loop 1 pages []) as [tables [e|]]; simpl in *;
        [by apply Hfallback|done].
    - by apply Hfallback. }
  destruct (match open_pdf d with Ok _ => _ | Raise _ => _ end)
    as [tables total].
  simpl in Hstage. destruct (length tables <? total); [|done].
  apply Forall_app. split; [done|]. by apply Forall_fmap, Forall_true.
Qed.

Lemma images_loop_Forall (P : DataFrame -> Prop) pages :
  (forall p lines df, ocr_frame lines = Ok df -> P (add_page_and_index p 1 df)) ->
  forall i tables, Forall P tables -> Forall P (images_loop i pages tables).
Proof.
  intros HP.
  induction pages as [|page rest IH]; intros i tables Hall; simpl; [done|].
  destruct (page_image_to_string page) as [text|e]; [|done].
  destruct (text_lines text) as [|line lines]; [by apply IH|].
  destruct (ocr_frame (line :: lines)) as [df|e] eqn:Hdf; [|done].
  apply IH, Forall_app. split; [done|].
  constructor; [by eapply HP|constructor].
Qed.

(** X4: every frame of stage A, whether it comes from a table, from the
    text of a page, from OCR or is the placeholder of a page without
    content, has pairwise distinct column labels, and [Page] and
    [Table_Index] are among them. *)
Theorem stage_a_frames_well_labelled (d : Pdf) :
  Forall well_labelled (extract_text_tables d) /\
  Forall well_labelled (extract_from_images d).
Proof.
  split.
  - apply extract_text_tables_Forall.
    + intros p i table df. apply table_frame_well_labelled.
    + intros p text df. apply lines_table_well_labelled.
    + apply no_content_placeholder_well_labelled.
  - unfold extract_from_images. destruct (rasterizes d); [|done].
    apply images_loop_Forall; [|done].
    intros p lines df Hdf. apply add_page_and_index_well_labelled.
    by eapply ocr_frame_NoDup.
Qed.

(** ** Stage A: what becomes of a table *)

Lemma add_page_and_index_fresh (p i : nat) (cols : list (list N))
    (rws : list (list value)) :
  lit "Page" ∉ cols -> lit "Table_Index" ∉ cols ->
  add_page_and_index p i {| columns := cols; rows := rws |}
  = {| columns := lit "Page" :: lit "Table_Index" :: cols;
       rows := (fun row => VInt (Z.of_nat p) :: VInt (Z.of_nat i) :: row)
               <$> rws |}.
Proof.
  intros Hpage Hindex. unfold add_page_and_index, has_column.
  cbn [columns]. rewrite (bool_decide_eq_false_2 (lit "Page" ∈ cols)) by done.
  unfold df_insert. cbn [columns rows take drop app].
  rewrite bool_decide_eq_false_2.
  - simpl. rewrite drop_0. f_equal.
    rewrite <- list_fmap_compose. apply list_fmap_ext. intros j row _.
    simpl. by rewrite drop_0.
  - simpl. rewrite drop_0, elem_of_cons. intros [H|H]; [|done].
    by vm_compute in H.
Qed.

Lemma column_label_not_reserved (name : list N) (l : list nat) :
  head name <> Some (ch "C") -> name ∉ column_label <$> l.
Proof.
  intros Hhead (i & -> & _)%list_elem_of_fmap. by apply Hhead.
Qed.
Lemma max_list_same (w : nat) (l : list nat) :
  l <> [] -> Forall (fun x => x = w) l -> max_list l = w.
Proof.
  intros Hne Hall. induction Hall as [|x l -> Hl IH]; [done|].
  simpl. destruct l as [|y l]; [simpl; lia|]. rewrite IH by done. lia.
Qed.

Lemma frame_of_rows_rectangular (data : list (list value)) (cols : list (list N)) :
  Forall (fun row => length row = length cols) data ->
  exists df, frame_of_rows data cols = Ok df.
Proof.
  intros Hall. unfold frame_of_rows. destruct data as [|row rest] eqn:Hdata;
    [by eexists|]. rewrite <- Hdata in *.
  rewrite (max_list_same (length cols)).
  - rewrite Nat.eqb_refl. by eexists.
  - by rewrite Hdata.
  - by apply Forall_fmap.
Qed.

(** The frame pandas builds from rows: no row is longer than the header,
    and a shorter row is filled up with missing values. *)
Lemma frame_of_rows_frame (data : list (list value)) (cols : list (list N)) df :
  frame_of_rows data cols = Ok df ->
  Forall (fun row => length row <= length cols) data /\
  df = {| columns := cols;
          rows := (fun row => row ++ replicate (length cols - length row) VNone)
                  <$> data |}.
Proof.
  unfold frame_of_rows. destruct data as [|row rest] eqn:Hdata.
  - by intros [= <-].
  - rewrite <- Hdata.
    destruct (Nat.eqb_spec (max_list (length <$> data)) (length cols))
      as [Hw|]; [|done].
    intros [= <-]. rewrite Hw. split; [|done].
    apply list.Forall_forall. intros r Hr. rewrite <- Hw.
    apply max_list_elem_of_le, list_elem_of_fmap. by exists r.
Qed.

(** X5: what [extract_text_tables] makes of one table of a page.  Rows
    without a non-blank cell are dropped.  A table left with no row yields
    no frame.  A table left with one row keeps it as the single data row,
    cell by cell, under the generated headers [Column_1 .. Column_n],
    after the page number and the index of the table.  A table left with
    more rows gives its first row to the header, which is sanitized, and
    keeps the others as data, cell by cell and in order, a shorter row
    being filled up with missing values; none of them is longer than the
    header, and unless the header has a Page or Table_Index label of its
    own, the page number and the index of the table come first in every
    row.  When the rows left all have the same number of cells, as the
    rows of a table do, the frame is built and no exception is raised. *)
Theorem table_frame_rows (page_num table_idx : nat)
    (table : list (list (option (list N)))) :
  let kept := filter (fun row => row_nonblank row) table in
  (table_frame page_num table_idx table = Ok None <-> kept = []) /\
  (forall row, kept = [row] ->
     table_frame page_num table_idx table
     = Ok (Some {| columns := lit "Page" :: lit "Table_Index"
                              :: (column_label <$> seq 0 (length row));
                   rows := [VInt (Z.of_nat page_num)
                            :: VInt (Z.of_nat (table_idx + 1))
                            :: (value_of_cell <$> row)] |})) /\
  (forall first second rest df,
     kept = first :: second :: rest ->
     table_frame page_num table_idx table = Ok (Some df) ->
     let header := _clean_column_names (header_cell <$> first) in
     let data :=
       (fun row => (value_of_cell <$> row)
                   ++ replicate (length first - length row) VNone)
       <$> (second :: rest) in
     Forall (fun row => length row <= length first) (second :: rest) /\
     df = add_page_and_index page_num (table_idx + 1)
            {| columns := header; rows := data |} /\
     (lit "Page" ∉ header -> lit "Table_Index" ∉ header ->
      df = {| columns := lit "Page" :: lit "Table_Index" :: header;
              rows := (fun row => VInt (Z.of_nat page_num)
                                  :: VInt (Z.of_nat (table_idx + 1)) :: row)
                      <$> data |})) /\
  (forall df, table_frame page_num table_idx table = Ok (Some df) ->
     df_len df = if length kept =? 1 then 1 else length kept - 1) /\
  ((forall row, row ∈ kept -> length row = length (default [] (head kept))) ->
   exists r, table_frame page_num table_idx table = Ok r).
Proof.
  intros kept. unfold table_frame. fold kept.
  destruct kept as [|first data_rows] eqn:Hkept.
  { split_and!; [done|done|done|done|]. intros _. by eexists. }
  set (frame := match data_rows with [] => _ | _ => _ end).
  split_and!.
  - split; [|done]. by destruct frame.
  - intros row [= -> ->]. unfold frame, frame_of_rows.
    assert (Hwidth : max_list (length <$> [value_of_cell <$> row])
                     = length row).
    { simpl. unfold id. rewrite length_fmap. lia. }
    rewrite Hwidth, !length_fmap, length_seq, Nat.eqb_refl.
    cbn [fmap list_fmap]. rewrite length_fmap, Nat.sub_diag. simpl.
    rewrite app_nil_r, add_page_and_index_fresh
      by (by apply column_label_not_reserved).
    done.
  - intros first' second rest df [= <- ->].
    destruct frame as [df0|e] eqn:Hframe; [|done].
    simpl. intros [= <-]. unfold frame in Hframe.
    apply frame_of_rows_frame in Hframe as [Hlen ->].
    set (header := _clean_column_names (header_cell <$> first)) in *.
    set (data := (fun row : list (option (list N)) =>
                    (value_of_cell <$> row)
                    ++ replicate (length first - length row) VNone)
                 <$> second :: rest).
    assert (Hheader : length header = length first).
    { unfold header, _clean_column_names.
      by rewrite clean_loop_length, length_fmap. }
    rewrite Hheader in *.
    assert (Hdata : (fun row : list value =>
                       row ++ replicate (length first - length row) VNone)
                    <$> (fmap (M:=list) value_of_cell <$> second :: rest)
                    = data).
    { unfold data. rewrite <- list_fmap_compose. apply list_fmap_ext.
      intros j row _. simpl. by rewrite length_fmap. }
    rewrite Hdata. split_and!; [|done|].
    + apply list.Forall_forall. intros row Hrow.
      rewrite list.Forall_forall in Hlen.
      specialize (Hlen (value_of_cell <$> row)).
      rewrite length_fmap in Hlen. apply Hlen, list_elem_of_fmap.
      by exists row.
    + intros Hpage Hindex. by apply add_page_and_index_fresh.
  - intros df. destruct frame as [df0|e] eqn:Hframe; [|done].
    simpl. intros [= <-]. rewrite df_len_add_page_and_index.
    unfold frame in Hframe.
    destruct data_rows as [|row data_rows];
      apply frame_of_rows_Ok in Hframe as [_ ->]; simpl.
    + done.
    + rewrite length_fmap. simpl. lia.
  - simpl. intros Hrect.
    assert (Hframe : exists df, frame = Ok df).
    { unfold frame. destruct data_rows as [|row data_rows].
      - apply frame_of_rows_rectangular. constructor; [|constructor].
        by rewrite !length_fmap, length_seq.
      - apply frame_of_rows_rectangular, Forall_fmap, list.Forall_forall.
        intros r Hr. simpl. rewrite length_fmap.
        unfold _clean_column_names. rewrite clean_loop_length, length_fmap.
        apply Hrect. by right. }
    destruct Hframe as [df ->]. simpl. by eexists.
Qed.

(** ** Stripped strings *)

Lemma rstrip_cons_nonspace c (s : list N) :
  isspace c = false -> rstrip (c :: s) = c :: rstrip s.
Proof. intros Hc. simpl. rewrite Hc. by destruct (rstrip s). Qed.

Lemma rstrip_idemp (s : list N) : rstrip (rstrip s) = rstrip s.
Proof.
  induction s as [|c s IH]; [done|]. simpl.
  destruct (rstrip s) as [|c' r] eqn:Hr.
  - destruct (isspace c) eqn:Hc; [done|]. simpl. by rewrite Hc.
  - change (rstrip (c :: c' :: r)) with
      (match rstrip (c' :: r) with
       | [] => if isspace c then [] else [c]
       | r' => c :: r'
       end).
    by rewrite IH.
Qed.

Lemma lstrip_head (s : list N) :
  lstrip s = [] \/ exists c t, lstrip s = c :: t /\ isspace c = false.
Proof.
  induction s as [|c s IH]; [by left|]. simpl.
  destruct (isspace c) eqn:Hc; [done|]. right. by exists c, s.
Qed.

(** A stripped string is empty or starts with a character that is not
    whitespace. *)
Lemma strip_head (s : list N) :
  strip s = [] \/ exists c t, strip s = c :: t /\ isspace c = false.
Proof.
  unfold strip. destruct (lstrip_head s) as [->|(c & t & -> & Hc)]; [by left|].
  right. exists c, (rstrip t). by rewrite rstrip_cons_nonspace.
Qed.

Lemma strip_idemp (s : list N) : strip (strip s) = strip s.
Proof.
  destruct (strip_head s) as [->|(c & t & Hs & Hc)]; [done|].
  unfold strip at 1. rewrite Hs. simpl lstrip. rewrite Hc.
  rewrite <- Hs. unfold strip. apply rstrip_idemp.
Qed.

Lemma text_lines_stripped (text line : list N) :
  line ∈ text_lines text -> line <> [] /\ strip line = line.
Proof.
  unfold text_lines. intros [Hne Hin]%list_elem_of_filter.
  split; [done|]. apply list_elem_of_fmap in Hin as (l & -> & _).
  apply strip_idemp.
Qed.

(** ** Stage A: coverage of [extract_text_tables] *)

Lemma no_content_placeholder_pages (p : nat) :
  page_values (no_content_placeholder p) = {[ VInt (Z.of_nat p) ]}.
Proof.
  unfold page_values, no_content_placeholder, has_column, column_values.
  simpl. set_solver.
Qed.

Lemma ensure_pages_coverage (tables : list DataFrame) (total : nat) :
  let result :=
    if length tables <? total
    then tables ++ (no_content_placeholder <$> pages_missing tables total)
    else tables in
  total <= length result \/ page_range total ⊆ pages_present result.
Proof.
  simpl. destruct (Nat.ltb_spec (length tables) total) as [Hlt|Hge]; [|by left].
  right. intros v (p & -> & Hp)%elem_of_page_range.
  rewrite pages_present_app.
  destruct (decide (VInt (Z.of_nat p) ∈ pages_present tables)) as [Hin|Hout];
    [by apply elem_of_union_l|].
  apply elem_of_union_r, elem_of_pages_present.
  exists (no_content_placeholder p). split.
  - apply list_elem_of_fmap. exists p. split; [done|].
    by apply elem_of_pages_missing.
  - rewrite no_content_placeholder_pages. by apply elem_of_singleton.
Qed.


(** ** Stage A: [_parse_ocr_text] and [extract_all_text] *)

(** X7: when [_parse_ocr_text] returns rows, there is at least one and at
    most one per line; every row has two columns or more, and every cell
    is a non-empty string without leading or trailing whitespace. *)
Theorem parse_ocr_text_rows (lines : list (list N)) (data : list (list (list N))) :
  _parse_ocr_text lines = Some data ->
  data <> [] /\ length data <= length lines /\
  Forall (fun row => 2 <= length row /\
                     Forall (fun col => col <> [] /\ strip col = col) row) data.
Proof.
  unfold _parse_ocr_text. destruct lines as [|line0 lines0] eqn:Hlines; [done|].
  rewrite <- Hlines. clear Hlines.
  set (parsed := filter _ _). intros Hdata.
  assert (Heq : data = parsed /\ data <> []).
  { destruct parsed; [done|]. by injection Hdata as <-. }
  destruct Heq as [-> Hne]. split_and!; [done| |].
  - unfold parsed. etrans; [apply length_filter|]. by rewrite length_fmap.
  - apply list.Forall_forall. intros row [Hlen Hrow]%list_elem_of_filter.
    split; [simpl in Hlen; lia|].
    apply list_elem_of_fmap in Hrow as (line & -> & _).
    apply list.Forall_forall. intros col [Hcol Hin]%list_elem_of_filter.
    split; [done|]. apply list_elem_of_fmap in Hin as (c & -> & _).
    apply strip_idemp.
Qed.

(** X8: [extract_all_text] returns frames with the columns [Page],
    [Table_Index] and [Text]; none is empty; all the rows of a frame carry
    one page number of the document and the table index 1, and their text
    is a non-empty line without leading or trailing whitespace. *)
Theorem extract_all_text_frames (d : Pdf) :
  Forall (fun t =>
            columns t = [lit "Page"; lit "Table_Index"; lit "Text"] /\
            rows t <> [] /\
            exists p, 1 <= p <= page_count d /\
              Forall (fun row => exists line,
                        row = [VInt (Z.of_nat p); VInt 1; VStr line] /\
                        line <> [] /\ strip line = line) (rows t))
         (extract_all_text d).
Proof.
  unfold extract_all_text, page_count.
  destruct (open_pdf d) as [pages|e]; [|done].
  set (P n t := columns t = [lit "Page"; lit "Table_Index"; lit "Text"] /\
                rows t <> [] /\
                exists p, 1 <= p <= n /\
                  Forall (fun row => exists line,
                            row = [VInt (Z.of_nat p); VInt 1; VStr line] /\
                            line <> [] /\ strip line = line) (rows t)).
  change (Forall (P (length pages)) (fallback_text_loop 1 pages [])).
  assert (Hloop : forall n rest p tables,
            1 <= p -> p + length rest <= S n ->
            Forall (P n) tables ->
            Forall (P n) (fallback_text_loop p rest tables)).
  { intros n rest. induction rest as [|page rest IH];
      intros p tables Hp Hn Hall; simpl; [done|].
    destruct (page_extract_text page) as [text|e]; [|done]. simpl in Hn.
    apply IH; [lia|lia|]. apply Forall_append_if; [done|].
    intros df. unfold lines_table. destruct text as [t|]; [|done].
    destruct (has_text (Some t)); [|done].
    destruct (text_lines t) as [|line lines] eqn:Hlines; [done|].
    intros [= <-]. rewrite add_page_and_index_text_frame.
    split_and!; [done|done|]. exists p. split; [lia|]. cbn [rows].
    apply list.Forall_forall. intros row (l & -> & Hl)%list_elem_of_fmap.
    exists l. split; [done|]. apply (text_lines_stripped t). by rewrite Hlines. }
  apply Hloop; [lia|lia|done].
Qed.

(** ** Stage B: which pages [extract_all_text_comprehensive] covers *)

Lemma lstrip_nonempty (s : list N) :
  Exists (fun c => isspace c = false) s -> lstrip s <> [].
Proof.
  induction s as [|c s IH]; intros H; [by apply Exists_nil in H|]. simpl.
  destruct (isspace c) eqn:Hc; [|done].
  apply Exists_cons in H as [H|H]; [congruence|by apply IH].
Qed.

Lemma strip_nonempty (s : list N) :
  Exists (fun c => isspace c = false) s -> strip s <> [].
Proof.
  intros H%lstrip_nonempty. unfold strip.
  destruct (lstrip_head s) as [?|(c & t & -> & Hc)]; [done|].
  by rewrite rstrip_cons_nonspace.
Qed.

Lemma lstrip_spaces (s : list N) :
  Forall (fun c => isspace c = true) s -> lstrip s = [].
Proof. induction 1 as [|c s Hc _ IH]; [done|]. simpl. by rewrite Hc. Qed.

Lemma strip_nonempty_inv (s : list N) :
  strip s <> [] -> Exists (fun c => isspace c = false) s.
Proof.
  intros Hs.
  assert (Hdec : Forall (fun c => isspace c = true) s
                 \/ Exists (fun c => isspace c = false) s).
  { induction s as [|c s IH]; [by left; constructor|].
    destruct (isspace c) eqn:Hc; [|by right; left].
    destruct IH as [IH|IH].
    - intros H. apply Hs. unfold strip in *. simpl. by rewrite Hc.
    - left. by constructor.
    - right. by right. }
  destruct Hdec as [Hall|Hex]; [|done].
  exfalso. apply Hs. unfold strip. by rewrite lstrip_spaces.
Qed.

Lemma split_lines_cons (c : N) (s cur : list N) :
  split_sep_from [ch "010"] 0 cur (c :: s)
  = if (c =? ch "010")%N then cur :: split_sep_from [ch "010"] 0 [] s
    else split_sep_from [ch "010"] 0 (cur ++ [c]) s.
Proof.
  cbn [split_sep_from startswith length Nat.sub].
  by rewrite andb_true_r, N.eqb_sym.
Qed.

Lemma split_lines_nonspace (s : list N) : forall cur,
  Exists (fun c => isspace c = false) cur
  \/ Exists (fun c => isspace c = false) s ->
  Exists (Exists (fun c => isspace c = false))
         (split_sep_from [ch "010"] 0 cur s).
Proof.
  induction s as [|c s IH]; intros cur H.
  - simpl. destruct H as [H|H]; [by left|by apply Exists_nil in H].
  - rewrite split_lines_cons. destruct (c =? ch "010")%N eqn:Hc.
    + destruct H as [H|H]; [by left|]. right. apply IH. right.
      apply Exists_cons in H as [H|H]; [|done].
      apply N.eqb_eq in Hc. subst c. by vm_compute in H.
    + apply IH. destruct H as [H|H].
      * left. apply Exists_app. by left.
      * apply Exists_cons in H as [H|H]; [|by right].
        left. apply Exists_app. right. by left.
Qed.

(** A text that is not blank has a line that is not blank. *)
Lemma text_lines_nonempty (t : list N) : strip t <> [] -> text_lines t <> [].
Proof.
  intros H%strip_nonempty_inv.
  pose proof (split_lines_nonspace t [] (or_intror H)) as Hpieces.
  apply list.Exists_exists in Hpieces as (piece & Hin & Hpiece).
  apply strip_nonempty in Hpiece.
  assert (Hline : strip piece ∈ text_lines t).
  { unfold text_lines. apply list_elem_of_filter. split; [done|].
    apply list_elem_of_fmap. by exists piece. }
  intros Hnil. rewrite Hnil in Hline. by inversion Hline.
Qed.

Lemma page_values_rows cols (rws : list (list value)) (p : nat) :
  rws <> [] ->
  Forall (fun row => row !! 0 = Some (VInt (Z.of_nat p))) rws ->
  page_values {| columns := lit "Page" :: cols; rows := rws |}
  = {[ VInt (Z.of_nat p) ]}.
Proof.
  intros Hne Hrows. apply set_eq. intros v. split.
  - by apply page_values_first_column.
  - intros ->%elem_of_singleton. unfold page_values, has_column.
    rewrite bool_decide_eq_true_2 by by left.
    rewrite column_values_first. apply elem_of_list_to_set.
    destruct rws as [|row rws]; [done|].
    apply Forall_inv in Hrows. simpl. rewrite Hrows. by left.
Qed.

Lemma imap_nonempty {A B} (f : nat -> A -> B) (l : list A) :
  l <> [] -> imap f l <> [].
Proof. by destruct l. Qed.

(** Each frame the comprehensive stage emits for page [p] carries the page
    value [p]. *)
Lemma comprehensive_page_values p text words t :
  t ∈ comprehensive_page p text words ->
  page_values t = {[ VInt (Z.of_nat p) ]}.
Proof.
  unfold comprehensive_page. rewrite !elem_of_app. intros [Ht|[Ht|Ht]].
  - destruct text as [s|]; [|by inversion Ht].
    destruct (has_text (Some s)); [|by inversion Ht].
    destruct (text_lines s) as [|line lines] eqn:Hl; [by inversion Ht|].
    apply list_elem_of_singleton in Ht as ->.
    apply page_values_rows; [by apply imap_nonempty|].
    by apply Forall_imap_rows.
  - destruct words as [|w ws] eqn:Hw; [by inversion Ht|].
    apply list_elem_of_singleton in Ht as ->.
    apply page_values_rows; [by apply imap_nonempty|].
    by apply Forall_imap_rows.
  - destruct (negb (truthy text) && bool_decide (words = [])); [|by inversion Ht].
    apply list_elem_of_singleton in Ht as ->. apply no_text_frame_pages.
Qed.

(** The stage emits nothing for a page exactly when its text is not empty
    but blank and it has no words. *)
Lemma comprehensive_page_nil p text words :
  comprehensive_page p text words = [] <->
  words = [] /\ exists t, text = Some t /\ t <> [] /\ strip t = [].
Proof.
  unfold comprehensive_page, has_text. split.
  - intros H. apply app_eq_nil in H as [Htext H].
    apply app_eq_nil in H as [Hwords Hnone].
    destruct words as [|w ws]; [|done]. split; [done|].
    destruct text as [[|c t]|]; [done| |done].
    exists (c :: t). split_and!; [done|done|].
    destruct (decide (strip (c :: t) = [])) as [Hs|Hs]; [done|].
    pose proof (text_lines_nonempty _ Hs) as Hlines.
    change (truthy (Some (c :: t))) with true in Htext.
    rewrite bool_decide_eq_true_2 in Htext by done. simpl in Htext.
    by destruct (text_lines (c :: t)).
  - intros [-> (t & -> & Ht & Hs)]. destruct t as [|c t]; [done|].
    simpl. rewrite bool_decide_eq_false_2; [done|]. by intros H.
Qed.

Lemma comprehensive_loop_pages pages : forall p tables v,
  Forall (fun page => exists text, page_extract_text page = Ok text) pages ->
  v ∈ pages_present (comprehensive_loop p pages tables) <->
  v ∈ pages_present tables \/
  exists k page text,
    pages !! k = Some page /\ page_extract_text page = Ok text /\
    v = VInt (Z.of_nat (p + k)) /\
    comprehensive_page (p + k) text (page_extract_words page) <> [].
Proof.
  induction pages as [|page rest IH]; intros p tables v Hok; simpl.
  - split; [by left|]. by intros [H|(k & page & text & H & _)].
  - apply list.Forall_cons in Hok as [[text Htext] Hok]. rewrite Htext.
    rewrite (IH _ _ _ Hok). rewrite pages_present_app, elem_of_union.
    split.
    + intros [[H|H]|(k & pg & tx & Hk & Htx & -> & Hne)].
      * by left.
      * right. exists 0, page, text. rewrite Nat.add_0_r.
        apply elem_of_pages_present in H as (t & Ht & Hv).
        rewrite (comprehensive_page_values _ _ _ _ Ht) in Hv.
        apply elem_of_singleton in Hv as ->.
        split_and!; [done|done|done|]. intros Hnil. rewrite Hnil in Ht.
        by inversion Ht.
      * right. exists (S k), pg, tx.
        replace (p + S k) with (S p + k) by lia. by split_and!.
    + intros [H|(k & pg & tx & Hk & Htx & -> & Hne)]; [by left; left|].
      destruct k as [|k]; simpl in Hk.
      * injection Hk as <-. rewrite Htext in Htx. injection Htx as <-.
        left. right. rewrite Nat.add_0_r in *.
        destruct (comprehensive_page p text (page_extract_words page))
          as [|t ts] eqn:Hpage; [done|].
        apply elem_of_pages_present. exists t. split; [by left|].
        rewrite (comprehensive_page_values p text (page_extract_words page));
          [by apply elem_of_singleton|]. rewrite Hpage. by left.
      * right. exists k, pg, tx.
        replace (S p + k) with (p + S k) by lia. by split_and!.
Qed.

(** X9: which pages the comprehensive text stage covers.  In a document
    that opens and whose pages all yield their text without error, the
    stage emits a frame with the page value [p] for every page [p] except
    those whose text layer is not empty but blank and which have no words:
    such a page gets neither text lines nor the No_Text_Content record. *)
Theorem comprehensive_stage_coverage (d : Pdf) (k : nat) (page : Page) :
  opens d = true ->
  Forall (fun page => exists text, page_extract_text page = Ok text)
         (pdf_pages d) ->
  pdf_pages d !! k = Some page ->
  (VInt (Z.of_nat (S k)) ∈ pages_present (extract_all_text_comprehensive d)
   <-> ~ whitespace_only page).
Proof.
  intros Hopen Hok Hk. unfold extract_all_text_comprehensive, open_pdf.
  rewrite Hopen. rewrite (comprehensive_loop_pages _ _ _ _ Hok).
  unfold whitespace_only. split.
  - intros [H|(k' & pg & text & Hk' & Htext & Hv & Hne)]; [by inversion H|].
    assert (k' = k) as -> by (injection Hv; lia).
    rewrite Hk in Hk'. injection Hk' as <-.
    intros [Hw (t & Ht & Hne' & Hs)]. apply Hne.
    apply comprehensive_page_nil. split; [done|].
    exists t. rewrite Htext in Ht. injection Ht as ->. done.
  - intros Hnot. right.
    rewrite list.Forall_forall in Hok.
    destruct (Hok page) as [text Htext]; [by eapply list_elem_of_lookup_2|].
    exists k, page, text. split_and!; [done|done|done|].
    intros [Hw (t & -> & Hne & Hs)]%comprehensive_page_nil.
    apply Hnot. split; [done|]. by exists t.
Qed.

(** ** Stage C: [extract_remaining_content] *)

Lemma sum_list_app (l k : list nat) :
  sum_list (l ++ k) = sum_list l + sum_list k.
Proof. induction l as [|x l IH]; simpl; [done|]. rewrite IH. lia. Qed.

Lemma remaining_page_rows (p : nat) (page : Page) :
  sum_list (df_len <$> remaining_page p page)
  = length (page_images page) + length (page_annots page) /\
  Forall (fun t => rows t <> []) (remaining_page p page).
Proof.
  unfold remaining_page.
  destruct (page_images page) as [|img imgs],
           (page_annots page) as [|ann anns]; simpl;
    unfold df_len; simpl; rewrite ?length_imap;
    (split; [lia|by repeat constructor]).
Qed.

(** X10: the stage records every image and every annotation of the
    document once: the frames it returns hold as many rows in all as the
    pages have images and annotations, and none of them is empty.  When
    the document cannot be opened it returns no frame. *)
Theorem remaining_content_rows (d : Pdf) :
  sum_list (df_len <$> extract_remaining_content d)
  = (if opens d
     then sum_list ((fun page => length (page_images page)
                                 + length (page_annots page)) <$> pdf_pages d)
     else 0) /\
  Forall (fun t => rows t <> []) (extract_remaining_content d).
Proof.
  unfold extract_remaining_content, open_pdf. destruct (opens d); [|done].
  generalize (pdf_pages d). intros pages.
  assert (Hgen : forall k,
    sum_list (df_len <$> mjoin (imap (fun i page => remaining_page (k + i + 1) page)
                                     pages))
    = sum_list ((fun page => length (page_images page)
                             + length (page_annots page)) <$> pages) /\
    Forall (fun t => rows t <> [])
           (mjoin (imap (fun i page => remaining_page (k + i + 1) page) pages))).
  { induction pages as [|page rest IH]; intros k; [done|].
    cbn [imap mjoin list_join fmap list_fmap sum_list sum_list_with].
    destruct (remaining_page_rows (k + 0 + 1) page) as [Hsum Hne].
    assert (Hext : imap ((fun i page0 => remaining_page (k + i + 1) page0) ∘ S)
                        rest
                   = imap (fun i page0 => remaining_page (S k + i + 1) page0)
                          rest).
    { apply imap_ext. intros i x _. simpl. f_equal. lia. }
    rewrite Hext. destruct (IH (S k)) as [IHsum IHne].
    rewrite fmap_app, sum_list_app, Hsum.
    split; [|by apply Forall_app]. simpl. by rewrite <- IHsum. }
  apply (Hgen 0).
Qed.

(** ** [extract_page_content] *)

(** X11: what [extract_page_content] returns for a page of the document.
    It returns nothing exactly when reading the text of the page raises,
    or the page has no text, no words and no images; a frame it returns
    has one to three rows, all with the number of the page, and content
    types that are strings. *)
Theorem extract_page_content_frame (d : Pdf) (k : nat) (page : Page) :
  opens d = true -> pdf_pages d !! k = Some page ->
  (extract_page_content d (S k) = None <-> ~ has_residual_content page) /\
  forall t, extract_page_content d (S k) = Some t ->
    1 <= df_len t <= 3 /\
    page_values t = {[ VInt (Z.of_nat (S k)) ]} /\
    typed_content t.
Proof.
  intros Hopen Hk. unfold extract_page_content, open_pdf, has_residual_content.
  rewrite Hopen. pose proof (lookup_lt_Some _ _ _ Hk) as Hlt.
  destruct (Nat.leb_spec (S k) (length (pdf_pages d))) as [_|?]; [|lia].
  cbn [page_at]. rewrite Hk.
  destruct (page_extract_text page) as [text|e] eqn:Htext.
  2:{ split; [|done]. split; [|done]. by intros _ (text & [=] & _). }
  set (text_rows := match text with Some t => _ | None => _ end).
  set (word_rows := match page_extract_words page with [] => _ | _ => _ end).
  set (image_rows := match page_images page with [] => _ | _ => _ end).
  assert (Htr : (text_rows = [] /\ truthy text = false)
                \/ (length text_rows = 1 /\ truthy text = true)).
  { unfold text_rows. destruct text as [[|c t]|]; [by left|by right|by left]. }
  assert (Hwr : (word_rows = [] /\ page_extract_words page = [])
                \/ (length word_rows = 1 /\ page_extract_words page <> [])).
  { unfold word_rows. destruct (page_extract_words page); [by left|by right]. }
  assert (Hir : (image_rows = [] /\ page_images page = [])
                \/ (length image_rows = 1 /\ page_images page <> [])).
  { unfold image_rows. destruct (page_images page); [by left|by right]. }
  assert (Hfirst : Forall (fun row => row !! 0 = Some (VInt (Z.of_nat (S k)))
                                      /\ exists s, row !! 1 = Some (VStr s))
                          (text_rows ++ word_rows ++ image_rows)).
  { repeat apply Forall_app_2.
    - unfold text_rows. destruct text as [t|]; [|done].
      destruct (truthy (Some t)); [|done]. repeat constructor. by eexists.
    - unfold word_rows. destruct (page_extract_words page); [done|].
      repeat constructor. by eexists.
    - unfold image_rows. destruct (page_images page); [done|].
      repeat constructor. by eexists. }
  assert (Hlen : length (text_rows ++ word_rows ++ image_rows)
                 = length text_rows + length word_rows + length image_rows).
  { rewrite !length_app. lia. }
  destruct (text_rows ++ word_rows ++ image_rows) as [|row0 content] eqn:Hdata.
  - split; [|done]. split; [|done]. intros _ (text' & [= <-] & Hsome).
    apply app_eq_nil in Hdata as [H1 H2]. apply app_eq_nil in H2 as [H2 H3].
    destruct Htr as [[_ Ht]|[Ht _]]; [|rewrite H1 in Ht; done].
    destruct Hwr as [[_ Hw]|[Hw _]]; [|rewrite H2 in Hw; done].
    destruct Hir as [[_ Hi]|[Hi _]]; [|rewrite H3 in Hi; done].
    destruct Hsome as [?|[?|?]]; congruence.
  - split.
    + split; [done|]. intros Hnone. exfalso. apply Hnone. exists text.
      split; [done|].
      destruct Htr as [[H1 _]|[_ Ht]]; [|by left].
      destruct Hwr as [[H2 _]|[_ Hw]]; [|by right; left].
      destruct Hir as [[H3 _]|[_ Hi]]; [|by right; right].
      rewrite H1, H2, H3 in Hlen. simpl in Hlen. lia.
    + intros t [= <-]. split; [|split].
      * unfold df_len. cbn [rows]. rewrite Hlen.
        destruct Htr as [[-> _]|[-> _]], Hwr as [[-> _]|[-> _]],
                 Hir as [[-> _]|[-> _]]; simpl in *; lia.
      * apply page_values_rows; [done|].
        eapply Forall_impl; [|exact Hfirst]. by intros row [? _].
      * unfold typed_content.
        change (column_values (lit "Content_Type")
                  {| columns := [lit "Page"; lit "Content_Type"; lit "Text";
                                 lit "Extraction_Method"];
                     rows := row0 :: content |})
          with ((fun row : list value => default VNone (row !! 1))
                  <$> (row0 :: content)).
        apply Forall_fmap. eapply Forall_impl; [|exact Hfirst].
        intros row [_ [s Hs]]. simpl. rewrite Hs. by exists s.
Qed.

(** ** [extract]: its exceptions and the make-up of its result *)

Lemma cover_missing_Raise (d : Pdf) (missing : list nat) :
  forall all_tables e,
    cover_missing d missing all_tables = Raise e ->
    e = ValueError /\
    exists p, p ∈ missing /\ extract_page_content d p <> None.
Proof.
  induction missing as [|p missing IH]; intros all_tables e; simpl; [done|].
  destruct (extract_page_content d p) as [t|] eqn:Hp.
  - intros [= <-]. split; [done|]. exists p. split; [by left|].
    by rewrite Hp.
  - intros (-> & q & Hq & Hcontent)%IH. split; [done|].
    exists q. split; [by right|done].
Qed.

Lemma strings_of_Raise (items : list value) (e : exn) :
  strings_of items = Raise e -> e = TypeError.
Proof.
  induction items as [|v items IH]; simpl; [done|].
  destruct v as [z|s|]; [by intros [= <-]| |by intros [= <-]].
  destruct (strings_of items) as [rest|e']; simpl; [done|].
  intros [= <-]. by apply IH.
Qed.

Lemma mapM_exc_Raise {A B} (f : A -> exc B) (l : list A) (e : exn) :
  mapM f l = Raise e -> exists x, x ∈ l /\ f x = Raise e.
Proof.
  induction l as [|x l IH]; simpl; [done|].
  destruct (f x) as [y|e'] eqn:Hfx; simpl.
  - destruct (mapM f l) as [k|e']; simpl; [done|].
    intros [= <-]. destruct IH as (x' & Hx' & Hfx'); [done|].
    exists x'. split; [by right|done].
  - intros [= <-]. exists x. split; [by left|done].
Qed.

Lemma consolidate_tables_Raise (all_tables : list DataFrame) (n : nat) (e : exn) :
  consolidate_tables all_tables n = Raise e -> e = TypeError.
Proof.
  unfold consolidate_tables. destruct all_tables as [|t0 rest] eqn:Hall; [done|].
  rewrite <- Hall.
  destruct (mapM (summary_row all_tables) (seq 1 n)) as [data|e'] eqn:Hdata;
    simpl; [done|].
  intros [= <-]. apply mapM_exc_Raise in Hdata as (p & _ & Hrow).
  unfold summary_row in Hrow.
  destruct (filter (fun t => on_page p t) all_tables); [done|].
  unfold distinct_types in Hrow.
  destruct (strings_of _) as [types|e''] eqn:Htypes; simpl in Hrow; [done|].
  injection Hrow as <-. by eapply strings_of_Raise.
Qed.

(** X12: the exceptions of [extract].  It raises [FileNotFoundError] only
    for a path that does not exist.  For a file that exists it raises
    [ValueError] only when one of the pages that the stages left uncovered
    still has content for [extract_page_content] to return (the frame
    returned is then used as a truth value), and [TypeError] only when a
    gathered table holds a content type that is not a string.  It raises
    nothing else. *)
Theorem extract_raises (d : Pdf) (e : exn) :
  extract d = Raise e ->
  (e = FileNotFoundError /\ path_exists d = false) \/
  (e = ValueError /\ path_exists d = true /\
   exists p, p ∈ pages_missing (gathered_tables d) (page_count d) /\
             extract_page_content d p <> None) \/
  (e = TypeError /\ path_exists d = true /\
   ~ Forall typed_content (gathered_tables d)).
Proof.
  unfold extract, extract_visiting.
  fold (reconcile d (gathered_tables d) (page_count d)).
  destruct (path_exists d); simpl; [|intros [= <-]; by left].
  destruct (reconcile d (gathered_tables d) (page_count d))
    as [all_tables|e'] eqn:Hrec; simpl.
  - destruct (consolidate_tables all_tables (page_count d))
      as [consolidated|e'] eqn:Hcons; simpl; [done|].
    intros [= <-]. right. right.
    split; [by eapply consolidate_tables_Raise|]. split; [done|].
    intros Htyped. apply cover_missing_Ok in Hrec as [-> _].
    destruct (consolidate_tables_total
                (gathered_tables d ++ (empty_page_placeholder <$>
                   pages_missing (gathered_tables d) (page_count d)))
                (page_count d)) as [result Hresult]; [|congruence].
    apply Forall_app. split; [done|].
    apply Forall_fmap, Forall_true. apply empty_page_placeholder_typed.
  - intros [= <-]. right. left.
    apply cover_missing_Raise in Hrec as [-> Hp]. by split_and!.
Qed.

Lemma pages_missing_nil (n : nat) : pages_missing [] n = [] -> n = 0.
Proof.
  intros Hnil. destruct n as [|n]; [done|].
  assert (H : 1 ∈ pages_missing [] (S n)).
  { apply elem_of_pages_missing. split; [lia|]. set_solver. }
  rewrite Hnil in H. by inversion H.
Qed.

Lemma sum_placeholder_rows (missing : list nat) :
  sum_list (df_len <$> (empty_page_placeholder <$> missing)) = length missing.
Proof.
  induction missing as [|p missing IH]; [done|].
  rewrite !fmap_cons. cbn [sum_list_with]. by rewrite IH.
Qed.

(** *** The order in which the missing pages are visited *)

Lemma cover_missing_iff (d : Pdf) (visit : list nat) (all_tables : list DataFrame) :
  (Forall (fun p => extract_page_content d p = None) visit /\
   cover_missing d visit all_tables
   = Ok (all_tables ++ (empty_page_placeholder <$> visit))) \/
  (~ Forall (fun p => extract_page_content d p = None) visit /\
   cover_missing d visit all_tables = Raise ValueError).
Proof.
  revert all_tables. induction visit as [|p visit IH]; intros all_tables.
  - left. split; [done|]. simpl. by rewrite app_nil_r.
  - simpl. destruct (extract_page_content d p) as [t|] eqn:Hp.
    + right. split; [|done]. intros H%Forall_inv. congruence.
    + destruct (IH (all_tables ++ [empty_page_placeholder p]))
        as [[Hall ->]|[Hnot ->]].
      * left. split; [by constructor|]. by rewrite <- app_assoc.
      * right. split; [|done]. intros H%Forall_inv_tail. done.
Qed.

Lemma on_page_placeholder (p q : nat) :
  on_page p (empty_page_placeholder q) = bool_decide (p = q).
Proof.
  unfold on_page.
  change (has_column (lit "Page") (empty_page_placeholder q)) with true.
  change (column_values (lit "Page") (empty_page_placeholder q))
    with [VInt (Z.of_nat q)].
  cbn [andb]. apply bool_decide_ext. rewrite list_elem_of_singleton.
  split; [|by intros ->]. intros [= H]. lia.
Qed.

(** The tables on a page do not depend on the order of the
    placeholders. *)
Lemma filter_placeholders (p : nat) (visit : list nat) :
  NoDup visit ->
  filter (fun t => on_page p t) (empty_page_placeholder <$> visit)
  = if bool_decide (p ∈ visit) then [empty_page_placeholder p] else [].
Proof.
  induction 1 as [|q visit Hq Hnd IH]; [done|].
  rewrite fmap_cons, filter_cons, IH, on_page_placeholder.
  destruct (decide (p = q)) as [->|Hne].
  - rewrite bool_decide_eq_true_2 by done.
    rewrite (bool_decide_eq_false_2 (q ∈ visit)) by done.
    by rewrite bool_decide_eq_true_2 by by left.
  - rewrite bool_decide_eq_false_2 by done.
    apply (f_equal (fun b : bool => if b then _ else _)).
    apply bool_decide_ext. rewrite elem_of_cons. naive_solver.
Qed.

Lemma summary_row_visit (g : list DataFrame) (visit sorted : list nat) (p : nat) :
  NoDup sorted -> visit ≡ₚ sorted ->
  summary_row (g ++ (empty_page_placeholder <$> visit)) p
  = summary_row (g ++ (empty_page_placeholder <$> sorted)) p.
Proof.
  intros Hnd Hperm. unfold summary_row.
  rewrite !list.filter_app, !filter_placeholders; [|done|by rewrite Hperm].
  rewrite (bool_decide_ext (p ∈ visit) (p ∈ sorted)); [done|].
  by rewrite Hperm.
Qed.

Lemma consolidate_tables_visit (g : list DataFrame) (visit sorted : list nat)
    (n : nat) :
  NoDup sorted -> visit ≡ₚ sorted ->
  (g ++ (empty_page_placeholder <$> visit) = [] /\
   g ++ (empty_page_placeholder <$> sorted) = [] /\
   consolidate_tables (g ++ (empty_page_placeholder <$> visit)) n = Ok [] /\
   consolidate_tables (g ++ (empty_page_placeholder <$> sorted)) n = Ok []) \/
  (exists summary,
     consolidate_tables (g ++ (empty_page_placeholder <$> visit)) n
     = Ok (summary :: g ++ (empty_page_placeholder <$> visit)) /\
     consolidate_tables (g ++ (empty_page_placeholder <$> sorted)) n
     = Ok (summary :: g ++ (empty_page_placeholder <$> sorted))) \/
  (exists e,
     consolidate_tables (g ++ (empty_page_placeholder <$> visit)) n = Raise e /\
     consolidate_tables (g ++ (empty_page_placeholder <$> sorted)) n = Raise e).
Proof.
  intros Hnd Hperm.
  assert (Hrows : mapM (summary_row (g ++ (empty_page_placeholder <$> visit)))
                       (seq 1 n)
                  = mapM (summary_row (g ++ (empty_page_placeholder <$> sorted)))
                         (seq 1 n)).
  { generalize (seq 1 n). intros l. induction l as [|p l IH]; [done|].
    cbn [mapM]. by rewrite IH, (summary_row_visit g visit sorted p). }
  assert (Hcons : forall all_tables, all_tables <> [] ->
            consolidate_tables all_tables n
            = (summary_data ← mapM (summary_row all_tables) (seq 1 n);
               Ok (frame_of_records summary_columns summary_data
                   :: all_tables))).
  { intros all_tables Hne. by destruct all_tables. }
  destruct (decide (g ++ (empty_page_placeholder <$> visit) = [])) as [Hv|Hv].
  - left. rewrite Hv.
    apply app_eq_nil in Hv as [-> Hv%fmap_nil_inv]. subst visit.
    apply Permutation_nil in Hperm as ->. done.
  - right.
    assert (Hs : g ++ (empty_page_placeholder <$> sorted) <> []).
    { intros [-> Hs%fmap_nil_inv]%app_eq_nil. subst sorted.
      apply Permutation_nil_r in Hperm as ->. done. }
    rewrite !Hcons, Hrows by done. clear Hrows.
    destruct (mapM _ (seq 1 n)) as [data|e]; simpl.
    + left. by eexists.
    + right. by eexists.
Qed.

Lemma pages_present_Permutation (l l' : list DataFrame) :
  l ≡ₚ l' -> pages_present l = pages_present l'.
Proof.
  intros Hperm. apply set_eq. intros v. rewrite !elem_of_pages_present.
  by setoid_rewrite Hperm.
Qed.

Lemma sum_rows_Permutation (l l' : list DataFrame) :
  l ≡ₚ l' -> sum_list (df_len <$> l) = sum_list (df_len <$> l').
Proof.
  intros Hperm. apply (fmap_Permutation df_len) in Hperm.
  generalize dependent (df_len <$> l'). generalize (df_len <$> l).
  induction 1 as [|x k k' _ IH|x y k|k k' k'' _ IH1 _ IH2]; simpl; lia.
Qed.

Lemma pages_missing_NoDup (tables : list DataFrame) (n : nat) :
  NoDup (pages_missing tables n).
Proof. unfold pages_missing. apply list.NoDup_filter, NoDup_seq. Qed.

(** Whatever the order in which the set of missing pages is visited, the
    run ends in the same way: with the same exception, or with a result
    that differs from that of [extract] only in the order of the
    placeholders at the end of its tables. *)
Lemma extract_order_irrelevant (d : Pdf) (visit : list nat) :
  visit ≡ₚ pages_missing (gathered_tables d) (page_count d) ->
  (forall e, extract_visiting visit d = Raise e <-> extract d = Raise e) /\
  (forall r, extract_visiting visit d = Ok r ->
     exists r0, extract d = Ok r0 /\
       tables r ≡ₚ tables r0 /\
       head (tables r) = head (tables r0) /\
       (forall summary,
          tables r0 = summary :: gathered_tables d
                      ++ (empty_page_placeholder
                            <$> pages_missing (gathered_tables d)
                                              (page_count d)) ->
          tables r = summary :: gathered_tables d
                     ++ (empty_page_placeholder <$> visit)) /\
       pages_present (tables r) = pages_present (tables r0) /\
       extraction_method r = extraction_method r0 /\
       result_is_text_based r = result_is_text_based r0 /\
       total_tables r = total_tables r0 /\
       total_rows r = total_rows r0 /\
       total_pages r = total_pages r0 /\
       extracted_pages r = extracted_pages r0 /\
       missing_pages r = missing_pages r0 /\
       completeness_score r = completeness_score r0).
Proof.
  intros Hperm. unfold extract.
  set (sorted := pages_missing (gathered_tables d) (page_count d)) in *.
  assert (Hnd : NoDup sorted) by apply pages_missing_NoDup.
  unfold extract_visiting. destruct (path_exists d); simpl; [|done].
  destruct (cover_missing_iff d visit (gathered_tables d))
    as [[Hnone ->]|[Hsome ->]];
    destruct (cover_missing_iff d sorted (gathered_tables d))
      as [[Hnone' ->]|[Hsome' ->]]; simpl.
  - destruct (consolidate_tables_visit (gathered_tables d) visit sorted
                (page_count d) Hnd Hperm)
      as [(_ & _ & -> & ->)|[(summary & -> & ->)|(e & -> & ->)]]; simpl.
    + split; [done|]. intros r [= <-]. eexists. split; [done|].
      cbn. split_and!; try done.
    + split; [done|]. intros r [= <-]. eexists. split; [done|].
      assert (Hp : summary :: gathered_tables d
                           ++ (empty_page_placeholder <$> visit)
                   ≡ₚ summary :: gathered_tables d
                           ++ (empty_page_placeholder <$> sorted)).
      { by rewrite Hperm. }
      pose proof (pages_present_Permutation _ _ Hp) as Hpages.
      split_and!; try done.
      * by intros summary' [= <-].
      * exact (Permutation_length Hp).
      * exact (sum_rows_Permutation _ _ Hp).
      * exact (f_equal size Hpages).
      * exact (f_equal (fun s => score (size s) (page_count d)) Hpages).
    + split; [done|]. done.
  - exfalso. apply Hsome'. by rewrite <- Hperm.
  - exfalso. apply Hsome. by rewrite Hperm.
  - split; [done|]. done.
Qed.

(** X13: what a result of [extract] is made of, whatever the order
    [visit] in which the loop visits the set of missing pages.  Unless
    nothing at all was gathered from a document without pages, the tables
    are the summary, with one row per page, then the tables gathered by
    the three stages in the order of the stages, then one Empty_Page
    placeholder for each page the stages left uncovered, in the order in
    which the pages were visited; none of these pages had content for
    [extract_page_content].  The counts reported add up accordingly. *)
Theorem extract_accounting (d : Pdf) (visit : list nat) (r : Result) :
  visit ≡ₚ pages_missing (gathered_tables d) (page_count d) ->
  extract_visiting visit d = Ok r ->
  ((tables r = [] /\ gathered_tables d = [] /\ page_count d = 0) \/
   exists summary,
     tables r = summary :: gathered_tables d
                        ++ (empty_page_placeholder <$> visit) /\
     df_len summary = page_count d) /\
  Forall (fun p => extract_page_content d p = None) visit /\
  total_tables r = length (tables r) /\
  total_rows r = page_count d + sum_list (df_len <$> gathered_tables d)
                 + length visit.
Proof.
  intros Hperm. unfold extract_visiting.
  destruct (path_exists d); simpl; [|done].
  destruct (cover_missing d visit (gathered_tables d))
    as [all_tables|e'] eqn:Hrec; simpl; [|done].
  destruct (consolidate_tables all_tables (page_count d))
    as [consolidated|e'] eqn:Hcons; simpl; [|done].
  intros [= <-]. cbn [tables total_tables total_rows].
  apply cover_missing_Ok in Hrec as [-> Hnone].
  unfold consolidate_tables in Hcons.
  destruct (gathered_tables d ++ _) as [|t0 rest] eqn:Hall.
  - injection Hcons as <-. apply app_eq_nil in Hall as [Hg Hm].
    apply fmap_nil_inv in Hm. subst visit.
    apply Permutation_nil in Hperm. rewrite Hg in *.
    pose proof (pages_missing_nil _ Hperm) as Hn.
    rewrite Hn. split_and!; [by left|done|done|done].
  - rewrite <- Hall in *.
    destruct (mapM _ (seq 1 (page_count d))) as [data|e'] eqn:Hdata;
      simpl in Hcons; [|done].
    injection Hcons as <-.
    apply mapM_exc_Ok in Hdata as [Hlen _]. rewrite length_seq in Hlen.
    assert (Hsum : df_len (frame_of_records summary_columns data)
                   = page_count d).
    { rewrite <- Hlen. by destruct data. }
    split_and!; [|done|done|].
    + right. by eexists.
    + cbn [fmap list_fmap sum_list sum_list_with].
      rewrite fmap_app, sum_list_app, sum_placeholder_rows.
      change (id (df_len (frame_of_records summary_columns data)))
        with (df_len (frame_of_records summary_columns data)).
      rewrite Hsum. lia.
Qed.

(** ** TypeDetector: the cumulative detector of [enhanced_pdf_converter] *)

Lemma total_text_length_Ok pages : forall total n,
  total_text_length pages total = Ok n ->
  Forall (fun page => exists text, page_extract_text page = Ok text) pages /\
  n = total + sum_list (stripped_length <$> pages).
Proof.
  induction pages as [|page rest IH]; intros total n; simpl.
  - intros [= <-]. split; [done|lia].
  - unfold stripped_length at 1.
    destruct (page_extract_text page) as [text|e] eqn:Htext; simpl; [|done].
    assert (Hhead : exists text, page_extract_text page = Ok text)
      by by eexists.
    destruct text as [[|c t]|]; simpl.
    + intros [Hok ->]%IH. split; [by constructor|]. done.
    + intros [Hok ->]%IH. split; [by constructor|].
      fold (fmap (M:=list) stripped_length rest). lia.
    + intros [Hok ->]%IH. split; [by constructor|]. done.
Qed.

Lemma total_text_length_total pages : forall total,
  Forall (fun page => exists text, page_extract_text page = Ok text) pages ->
  exists n, total_text_length pages total = Ok n.
Proof.
  induction pages as [|page rest IH]; intros total Hok; simpl; [by eexists|].
  apply list.Forall_cons in Hok as [[text ->] Hok]. simpl.
  destruct text as [[|c t]|]; simpl; by apply IH.
Qed.

(** C7 (as amended): [PDFExtractor.is_text_based] answers TextBased
    exactly when the document opens and some page has more than 50
    characters of stripped text, the text of every page before it being
    read without error; so on a document whose pages are all read without
    error it answers TextBased exactly when some single page exceeds the
    threshold.  It never raises: when the document cannot be opened, or
    reading a page raises before a page over the threshold was met, it
    answers ImageBased.  The detector of [enhanced_pdf_converter] does not
    take a per-page maximum: it answers TextBased exactly when the
    document opens, the text of every page is read without error and the
    stripped texts of all the pages together have more than 50
    characters; on any error it answers ImageBased. *)
Theorem is_text_based_per_page_and_fail_safe (d : Pdf) :
  (is_text_based d = true <->
   opens d = true /\
   exists before page after,
     pdf_pages d = before ++ page :: after /\ long_text page /\
     Forall (fun p => exists text, page_extract_text p = Ok text) before) /\
  (opens d = true ->
   Forall (fun p => exists text, page_extract_text p = Ok text) (pdf_pages d) ->
   (is_text_based d = true <-> Exists long_text (pdf_pages d))) /\
  (opens d = false -> is_text_based d = false) /\
  (forall before page after e,
     pdf_pages d = before ++ page :: after ->
     Forall (fun p => ~ long_text p) before ->
     page_extract_text page = Raise e ->
     is_text_based d = false) /\
  (enhanced_is_text_based d = true <->
   opens d = true /\
   Forall (fun p => exists text, page_extract_text p = Ok text) (pdf_pages d) /\
   MIN_TEXT_LENGTH < sum_list (stripped_length <$> pdf_pages d)) /\
  (opens d = false
   \/ Exists (fun p => exists e, page_extract_text p = Raise e) (pdf_pages d) ->
   enhanced_is_text_based d = false).
Proof.
  pose proof (is_text_based_true_iff d) as Hiff.
  assert (Henh : enhanced_is_text_based d = true <->
            opens d = true /\
            Forall (fun p => exists text, page_extract_text p = Ok text)
                   (pdf_pages d) /\
            MIN_TEXT_LENGTH < sum_list (stripped_length <$> pdf_pages d)).
  { unfold enhanced_is_text_based, open_pdf.
    destruct (opens d); simpl; [|split; [done|by intros [? _]]].
    split.
    - destruct (total_text_length (pdf_pages d) 0) as [n|e] eqn:Hn; [|done].
      apply total_text_length_Ok in Hn as [Hok ->]. simpl.
      intros H%Nat.ltb_lt. by split_and!.
    - intros (_ & Hok & Hsum).
      destruct (total_text_length_total (pdf_pages d) 0 Hok) as [n Hn].
      rewrite Hn. apply total_text_length_Ok in Hn as [_ ->]. simpl.
      by apply Nat.ltb_lt. }
  split_and!; [done| | | |done|].
  - intros Hopen Hok. rewrite Hiff. split.
    + intros (_ & before & page & after & -> & Hlong & _).
      apply Exists_app. right. by left.
    + intros (page & Hin & Hlong)%list.Exists_exists. split; [done|].
      apply list_elem_of_split in Hin as (before & after & Hpages).
      exists before, page, after. split_and!; [done|done|].
      rewrite Hpages in Hok. by apply Forall_app in Hok as [? _].
  - intros Hopen. destruct (is_text_based d); [|done].
    destruct Hiff as [Hiff _]. destruct (Hiff eq_refl) as [H _]. congruence.
  - intros before page after e Hpages Hshort Hraise.
    destruct (is_text_based d); [|done]. exfalso.
    destruct Hiff as [Hiff _].
    destruct (Hiff eq_refl) as (_ & before' & page' & after' & Hpages' & Hlong & Hok).
    assert (Hpage : pdf_pages d !! length before = Some page).
    { rewrite Hpages. by apply list_lookup_middle. }
    assert (Hpage' : pdf_pages d !! length before' = Some page').
    { rewrite Hpages'. by apply list_lookup_middle. }
    destruct (Nat.lt_total (length before') (length before)) as [Hlt|[Heq|Hgt]].
    + rewrite Hpages, lookup_app_l in Hpage' by done.
      apply list_elem_of_lookup_2 in Hpage'.
      rewrite list.Forall_forall in Hshort. by apply (Hshort page').
    + rewrite Heq, Hpage in Hpage'. injection Hpage' as <-.
      destruct Hlong as (t & Ht & _). congruence.
    + rewrite Hpages', lookup_app_l in Hpage by done.
      apply list_elem_of_lookup_2 in Hpage.
      rewrite list.Forall_forall in Hok.
      destruct (Hok page Hpage) as [text Htext]. congruence.
  - intros Hfail. destruct (enhanced_is_text_based d); [|done]. exfalso.
    destruct Henh as [Henh _]. destruct (Henh eq_refl) as (Hopen & Hok & _).
    destruct Hfail as [Hfail|(page & Hin & e & He)%list.Exists_exists];
      [congruence|].
    rewrite list.Forall_forall in Hok.
    destruct (Hok page Hin) as [text Htext]. congruence.
Qed.

(** X14: the detector of [enhanced_pdf_converter] answers text-based
    exactly when the document opens, the text of every page is read
    without error, and the stripped texts of the pages hold more than 50
    characters in all; an error on any page, even after enough text has
    been counted, makes it answer image-based. *)
Theorem enhanced_is_text_based_iff (d : Pdf) :
  enhanced_is_text_based d = true <->
  opens d = true /\
  Forall (fun page => exists text, page_extract_text page = Ok text)
         (pdf_pages d) /\
  MIN_TEXT_LENGTH < sum_list (stripped_length <$> pdf_pages d).
Proof.
  unfold enhanced_is_text_based, open_pdf.
  destruct (opens d); simpl; [|split; [done|by intros [? _]]].
  split.
  - destruct (total_text_length (pdf_pages d) 0) as [n|e] eqn:Hn; [|done].
    apply total_text_length_Ok in Hn as [Hok ->]. simpl.
    intros H%Nat.ltb_lt. by split_and!.
  - intros (_ & Hok & Hsum).
    destruct (total_text_length_total (pdf_pages d) 0 Hok) as [n Hn].
    rewrite Hn. apply total_text_length_Ok in Hn as [_ ->]. simpl.
    by apply Nat.ltb_lt.
Qed.

(** X15: the two detectors compared.  On a document whose pages all yield
    their text without error, whatever [PDFExtractor.is_text_based] takes
    for text-based, the cumulative detector takes for text-based too. *)
Theorem per_page_detector_implies_cumulative (d : Pdf) :
  Forall (fun page => exists text, page_extract_text page = Ok text)
         (pdf_pages d) ->
  is_text_based d = true -> enhanced_is_text_based d = true.
Proof.
  intros Hok (Hopen & before & page & after & Hpages & Hlong & _)%is_text_based_true_iff.
  unfold enhanced_is_text_based, open_pdf. rewrite Hopen. simpl.
  destruct (total_text_length_total (pdf_pages d) 0 Hok) as [n Hn].
  rewrite Hn. apply total_text_length_Ok in Hn as [_ ->]. simpl.
  apply Nat.ltb_lt.
  rewrite Hpages, fmap_app, sum_list_app. simpl.
  destruct Hlong as (t & Ht & Hlen). unfold stripped_length at 2.
  rewrite Ht. unfold MIN_TEXT_LENGTH. lia.
Qed.

(** ** StructureClassifier: the nodes and the lines they come from *)

Lemma classify_line (st : State) (row : Line) :
  node_content (classify st row).2 = line_content row /\
  node_page (classify st row).2 = line_page row /\
  node_line_number (classify st row).2 = default 1%Z (line_number row).
Proof. classify_cases; done. Qed.

Lemma classify_all_lines (df : list Line) : forall st,
  node_content <$> classify_all st df = line_content <$> df /\
  node_page <$> classify_all st df = line_page <$> df /\
  node_line_number <$> classify_all st df
  = (fun l => default 1%Z (line_number l)) <$> df.
Proof.
  induction df as [|row rest IH]; intros st; [done|]. cbn [classify_all].
  pose proof (classify_line st row) as (Hc & Hp & Hn).
  destruct (classify st row) as [st' node]. cbn [snd] in *.
  rewrite !fmap_cons. destruct (IH st') as (-> & -> & ->).
  by rewrite Hc, Hp, Hn.
Qed.

(** X16: the classifier neither drops nor reorders nor rewrites a line.
    The nodes it returns are, one for one and in order, the lines of the
    frame after the reconstruction step: each node has the content and the
    page of its line, and its line number (1 when the frame has no such
    column). *)
Theorem organize_preserves_lines (df : list Line) (nodes : list Node) :
  organize_syllabus_structure df = Ok nodes ->
  let lines := reconstruct_words_to_sentences df in
  node_content <$> nodes = line_content <$> lines /\
  node_page <$> nodes = line_page <$> lines /\
  node_line_number <$> nodes
  = (fun l => default 1%Z (line_number l)) <$> lines.
Proof.
  intros [[-> ->]| ->]%organize_keeps_nodes; [done|].
  apply classify_all_lines.
Qed.

Lemma unit_title_nonempty (pattern : Pattern) m : unit_title pattern m <> [].
Proof.
  unfold unit_title.
  repeat match goal with
         | |- context [if ?b then _ else _] => destruct b
         end; intros [H _]%app_eq_nil; by vm_compute in H.
Qed.

Lemma topic_title_nonempty (pattern : Pattern) m : topic_title pattern m <> [].
Proof.
  unfold topic_title. case_bool_decide as Hin.
  - intros [H _]%app_eq_nil. by vm_compute in H.
  - intros [_ [H _]%app_eq_nil]%app_eq_nil. by vm_compute in H.
Qed.

Lemma subtopic_title_nonempty m : subtopic_title m <> [].
Proof.
  unfold subtopic_title.
  intros [_ [H _]%app_eq_nil]%app_eq_nil. by vm_compute in H.
Qed.

Lemma classify_consistent (st : State) (row : Line) :
  consistent (classify st row).2.
Proof.
  unfold classify.
  destruct (first_match unit_patterns (line_content row)) as [[pattern m]|].
  { unfold consistent. simpl. split_and!; [done| |done|done].
    intros [= H]. by apply unit_title_nonempty in H. }
  destruct (first_match topic_patterns (line_content row)) as [[pattern m]|].
  { unfold consistent. simpl. split_and!; [done| |done].
    intros [= H]. by apply topic_title_nonempty in H. }
  destruct (first_match subtopic_patterns (line_content row)) as [[pattern m]|].
  { unfold consistent. simpl. split; [done|].
    intros [= H]. by apply subtopic_title_nonempty in H. }
  destruct (current_unit st) as [|c unit] eqn:Hunit.
  { unfold consistent. simpl. by split_and!. }
  unfold consistent. simpl. split; [done|].
  by destruct (current_subtopic st), (current_topic st).
Qed.

Lemma classify_all_consistent (df : list Line) : forall st,
  Forall consistent (classify_all st df).
Proof.
  induction df as [|row rest IH]; intros st; simpl; [done|].
  pose proof (classify_consistent st row) as Hrow.
  destruct (classify st row) as [st' node]. by constructor.
Qed.

(** X17: in every node the classifier returns, the type, the level and
    the ancestry fields agree.  A Unit_Header has level 1, a unit and no
    topic or subtopic; a Topic_Header has level 2, a topic and no
    subtopic; a Subtopic_Header has level 3 and a subtopic; a Content
    node lies in a unit and has level 4, 3 or 2 according to whether it
    carries a subtopic, else a topic, else neither; a General_Content node
    has level 1 and no unit, topic or subtopic. *)
Theorem organize_nodes_consistent (df : list Line) (nodes : list Node) :
  organize_syllabus_structure df = Ok nodes -> Forall consistent nodes.
Proof.
  intros [[-> ->]| ->]%organize_keeps_nodes; [done|].
  apply classify_all_consistent.
Qed.

(** ** StructureClassifier: how the unit is handed down *)

Lemma classify_unit (st : State) (row : Line) :
  node_unit (classify st row).2 = VStr (current_unit (classify st row).1) /\
  (node_type_tag (classify st row).2 = Unit_Header
   \/ current_unit (classify st row).1 = current_unit st) /\
  (node_type_tag (classify st row).2 = Unit_Header ->
   current_unit (classify st row).1 <> []) /\
  (node_type_tag (classify st row).2 = General_Content -> current_unit st = []).
Proof.
  unfold classify.
  destruct (first_match unit_patterns (line_content row)) as [[pattern m]|].
  { simpl. split_and!; [done|by left| |done].
    intros _. apply unit_title_nonempty. }
  destruct (first_match topic_patterns (line_content row)) as [[pattern m]|].
  { simpl. split_and!; [done|by right|done|done]. }
  destruct (first_match subtopic_patterns (line_content row)) as [[pattern m]|].
  { simpl. split_and!; [done|by right|done|done]. }
  destruct (current_unit st) as [|c unit] eqn:Hunit; simpl.
  - rewrite Hunit. split_and!; [done|by right|done|done].
  - rewrite Hunit. split_and!; [done|by right|done|done].
Qed.

Lemma classify_all_in_unit (df : list Line) : forall st,
  current_unit st <> [] ->
  Forall (fun m => node_type_tag m <> General_Content /\ node_unit m <> VStr [])
         (classify_all st df).
Proof.
  induction df as [|row rest IH]; intros st Hst; [done|]. cbn [classify_all].
  pose proof (classify_unit st row) as (Hu & Hkeep & Hhead & Hgen).
  destruct (classify st row) as [st' node]. cbn [fst snd] in *.
  assert (Hst' : current_unit st' <> []).
  { destruct Hkeep as [Htag| ->]; [by apply Hhead|done]. }
  constructor; [|by apply IH]. split.
  - intros Htag. by apply Hgen in Htag.
  - rewrite Hu. by intros [= H].
Qed.

Lemma classify_all_units (df : list Line) : forall st i n1 n2,
  classify_all st df !! i = Some n1 -> classify_all st df !! S i = Some n2 ->
  node_type_tag n2 = Unit_Header \/ node_unit n2 = node_unit n1.
Proof.
  induction df as [|row rest IH]; intros st i n1 n2; [done|].
  cbn [classify_all].
  pose proof (classify_unit st row) as (Hu & _).
  destruct (classify st row) as [st' node]. cbn [fst snd] in *.
  destruct i as [|i]; [|apply IH]. simpl. intros [= <-].
  destruct rest as [|row2 rest]; [done|]. cbn [classify_all].
  pose proof (classify_unit st' row2) as (Hu2 & Hkeep & _).
  destruct (classify st' row2) as [st'' node2]. cbn [fst snd] in *.
  simpl. intros [= <-]. destruct Hkeep as [Htag|Hkeep]; [by left|].
  right. by rewrite Hu, Hu2, Hkeep.
Qed.

Lemma classify_all_after_unit (df : list Line) : forall st i j n m,
  i < j -> classify_all st df !! i = Some n -> classify_all st df !! j = Some m ->
  node_type_tag n = Unit_Header ->
  node_type_tag m <> General_Content /\ node_unit m <> VStr [].
Proof.
  induction df as [|row rest IH]; intros st i j n m Hij; [done|].
  cbn [classify_all].
  pose proof (classify_unit st row) as (_ & _ & Hhead & _).
  destruct (classify st row) as [st' node]. cbn [fst snd] in *.
  destruct j as [|j]; [lia|]. destruct i as [|i]; simpl.
  - intros [= <-] Hm Htag.
    pose proof (classify_all_in_unit rest st' (Hhead Htag)) as Hall.
    rewrite list.Forall_forall in Hall. apply Hall.
    by eapply list_elem_of_lookup_2.
  - apply IH. lia.
Qed.

(** X18: how the unit is handed down.  From one node to the next the
    unit changes only at a Unit_Header; and once a Unit_Header has been
    met, every later node lies in a unit and none is General_Content. *)
Theorem unit_ancestry (df : list Line) (nodes : list Node) :
  organize_syllabus_structure df = Ok nodes ->
  (forall i n1 n2, nodes !! i = Some n1 -> nodes !! S i = Some n2 ->
     node_type_tag n2 = Unit_Header \/ node_unit n2 = node_unit n1) /\
  (forall i j n m, i < j -> nodes !! i = Some n -> nodes !! j = Some m ->
     node_type_tag n = Unit_Header ->
     node_type_tag m <> General_Content /\ node_unit m <> VStr []).
Proof.
  intros [[-> ->]| ->]%organize_keeps_nodes; [by split|].
  split.
  - apply classify_all_units.
  - apply classify_all_after_unit.
Qed.

(** ** [reconstruct_words_to_sentences] *)

Lemma flush_line_numbered (page : list N) (words : list (list N))
    (acc : list Line) :
  line_number <$> acc = (fun i => Some (Z.of_nat i)) <$> seq 1 (length acc) ->
  Forall (fun l => strip (line_content l) <> []) acc ->
  line_number <$> flush_line page words acc
  = (fun i => Some (Z.of_nat i)) <$> seq 1 (length (flush_line page words acc))
  /\ Forall (fun l => strip (line_content l) <> []) (flush_line page words acc).
Proof.
  intros Hnum Hall. unfold flush_line.
  destruct words as [|w ws]; [done|].
  case_bool_decide as Hline; [|done]. split.
  - rewrite fmap_app, length_app, seq_app, fmap_app, Hnum. f_equal.
    simpl. f_equal. f_equal. f_equal. lia.
  - apply Forall_app. split; [done|]. by constructor.
Qed.

Lemma reconstruct_loop_numbered (df : list Line) : forall acc page words,
  line_number <$> acc = (fun i => Some (Z.of_nat i)) <$> seq 1 (length acc) ->
  Forall (fun l => strip (line_content l) <> []) acc ->
  let lines := reconstruct_loop df acc page words in
  line_number <$> lines = (fun i => Some (Z.of_nat i)) <$> seq 1 (length lines)
  /\ Forall (fun l => strip (line_content l) <> []) lines.
Proof.
  induction df as [|row rest IH]; intros acc page words Hnum Hall.
  - by apply flush_line_numbered.
  - cbn [reconstruct_loop].
    destruct (bool_decide (line_page row <> page)).
    + destruct (flush_line_numbered page words acc Hnum Hall) as [Hnum1 Hall1].
      destruct (is_new_sentence (strip (line_content row))
                && bool_decide (@nil (list N) <> [])).
      * destruct (flush_line_numbered (line_page row) [] _ Hnum1 Hall1).
        by apply IH.
      * by apply IH.
    + destruct (is_new_sentence (strip (line_content row))
                && bool_decide (words <> [])).
      * destruct (flush_line_numbered page words acc Hnum Hall).
        by apply IH.
      * by apply IH.
Qed.

(** X19: when [reconstruct_words_to_sentences] rebuilds the lines (the
    contents are at most 10 characters long on average), the lines it
    returns are numbered 1, 2, 3, ... in order, and none of them is
    blank. *)
Theorem reconstruct_lines_numbered (df : list Line) :
  long_on_average df = false ->
  let lines := reconstruct_words_to_sentences df in
  line_number <$> lines = (fun i => Some (Z.of_nat i)) <$> seq 1 (length lines)
  /\ Forall (fun l => strip (line_content l) <> []) lines.
Proof.
  intros Hshort. unfold reconstruct_words_to_sentences.
  destruct df as [|row rest] eqn:Hdf; [done|]. rewrite <- Hdf in *.
  rewrite Hshort. by apply reconstruct_loop_numbered.
Qed.

(** ** StructureClassifier: when it raises *)

Lemma strip_nil_spaces (s : list N) :
  strip s = [] <-> Forall (fun c => isspace c = true) s.
Proof.
  split.
  - intros Hs. apply list.Forall_forall. intros c Hc.
    destruct (isspace c) eqn:Hsp; [done|]. exfalso.
    apply (strip_nonempty s); [|done].
    apply list.Exists_exists. by exists c.
  - intros Hall. unfold strip. by rewrite lstrip_spaces.
Qed.

Lemma join_blank (words : list (list N)) :
  strip (join (lit " ") words) = [] <-> Forall (fun w => strip w = []) words.
Proof.
  induction words as [|w rest IH]; [done|].
  destruct rest as [|w' rest].
  - simpl. split; [by repeat constructor|by intros H%Forall_inv].
  - rewrite join_cons by done. rewrite list.Forall_cons, <- IH.
    rewrite !strip_nil_spaces, !Forall_app. split.
    + by intros (? & _ & ?).
    + intros [? ?]. split_and!; [done| |done]. by repeat constructor.
Qed.

Lemma flush_line_nil (page : list N) (words : list (list N)) (acc : list Line) :
  flush_line page words acc = [] <->
  acc = [] /\ Forall (fun w => strip w = []) words.
Proof.
  unfold flush_line. destruct words as [|w ws]; [by split; [|intros []]|].
  rewrite <- join_blank. case_bool_decide as Hline.
  - split; [by intros [_ H]%app_eq_nil|]. by intros [_ H].
  - split; [done|by intros []].
Qed.

Lemma reconstruct_loop_nil (df : list Line) : forall acc page words,
  reconstruct_loop df acc page words = [] <->
  acc = [] /\ Forall (fun w => strip w = []) words /\
  Forall (fun row => strip (line_content row) = []) df.
Proof.
  induction df as [|row rest IH]; intros acc page words.
  - cbn [reconstruct_loop]. rewrite flush_line_nil. split; [by intros []|].
    by intros (? & ? & _).
  - cbn [reconstruct_loop]. rewrite list.Forall_cons.
    assert (Hword : forall ws : list (list N),
              Forall (fun w => strip w = []) (ws ++ [strip (line_content row)])
              <-> Forall (fun w => strip w = []) ws
                  /\ strip (line_content row) = []).
    { intros ws. rewrite Forall_app, list.Forall_cons, strip_idemp.
      split; [by intros [? [? _]]|by intros [? ?]]. }
    destruct (bool_decide (line_page row <> page)).
    + destruct (is_new_sentence (strip (line_content row))
                && bool_decide (@nil (list N) <> [])).
      * rewrite IH, !flush_line_nil, (Hword []). split.
        -- by intros ([[? ?] _] & [_ ?] & ?).
        -- intros (? & ? & ? & ?). by split_and!.
      * rewrite IH, flush_line_nil, (Hword []). split.
        -- by intros ([? ?] & [_ ?] & ?).
        -- intros (? & ? & ? & ?). by split_and!.
    + destruct (is_new_sentence (strip (line_content row))
                && bool_decide (words <> [])).
      * rewrite IH, flush_line_nil, (Hword []). split.
        -- by intros ([? ?] & [_ ?] & ?).
        -- intros (? & ? & ? & ?). by split_and!.
      * rewrite IH, Hword. split.
        -- by intros (? & [? ?] & ?).
        -- intros (? & ? & ? & ?). by split_and!.
Qed.

Lemma classify_all_nil (df : list Line) (st : State) :
  classify_all st df = [] -> df = [].
Proof.
  destruct df as [|row rest]; [done|]. cbn [classify_all].
  by destruct (classify st row).
Qed.

(** X20: the one exception of [organize_syllabus_structure].  It raises
    exactly on a non-empty frame all of whose lines are blank and at most
    10 characters long on average: the reconstruction step then returns a
    frame without rows or columns, and looking up its [Unit] column is a
    [KeyError]. *)
Theorem organize_raises_iff (df : list Line) (e : exn) :
  organize_syllabus_structure df = Raise e <->
  e = KeyError /\ df <> [] /\ long_on_average df = false /\
  Forall (fun row => strip (line_content row) = []) df.
Proof.
  unfold organize_syllabus_structure, organized_data,
    reconstruct_words_to_sentences.
  destruct df as [|row rest] eqn:Hdf; [by split; [|intros (_ & ? & _)]|].
  rewrite <- Hdf.
  assert (Hne : df <> []) by by rewrite Hdf.
  destruct (long_on_average df) eqn:Hlong.
  - destruct (classify_all initial_state df) as [|n ns] eqn:Hnodes.
    + apply classify_all_nil in Hnodes. done.
    + split; [done|]. by intros (_ & _ & ? & _).
  - destruct (classify_all initial_state (reconstruct_loop df [] [] []))
      as [|n ns] eqn:Hnodes.
    + apply classify_all_nil, reconstruct_loop_nil in Hnodes as (_ & _ & Hall).
      split; [by intros [= <-]|]. by intros [-> _].
    + split; [done|]. intros (_ & _ & _ & Hall). exfalso.
      assert (Hnil : reconstruct_loop df [] [] [] = [])
        by by apply reconstruct_loop_nil.
      by rewrite Hnil in Hnodes.
Qed.

(** ** The sibling classifier of [syllabus_pdf_converter] *)

(** The pattern for indented lines cannot match a line that starts with a
    character other than whitespace. *)
Lemma indented_regex_stripped (c : N) (rest : list N) :
  isspace c = false -> re_match indented_regex (c :: rest) = None.
Proof.
  intros Hc. unfold re_match, indented_regex, spaces1, Plus.
  cbn [seqs rmatch]. by rewrite Hc.
Qed.

Lemma syllabus_line_no_subtopic (page_num : nat) (st : State) (c : N)
    (rest : list N) :
  isspace c = false -> current_subtopic st = [] ->
  current_subtopic (syllabus_line page_num st (c :: rest)).1 = [] /\
  row_level (syllabus_line page_num st (c :: rest)).2 <> Level_Subtopic /\
  row_subtopic (syllabus_line page_num st (c :: rest)).2 = VStr [] /\
  row_unit (syllabus_line page_num st (c :: rest)).2 <> VNone /\
  row_topic (syllabus_line page_num st (c :: rest)).2 <> VNone.
Proof.
  intros Hc Hst. unfold syllabus_line.
  rewrite (indented_regex_stripped c rest Hc).
  destruct (re_match (pattern_regex numbered_unit_pattern) (c :: rest));
    [by split_and!|].
  destruct (re_match (pattern_regex marker_pattern) (c :: rest));
    [by split_and!|].
  destruct (current_unit st); simpl; rewrite ?Hst; by split_and!.
Qed.

Lemma syllabus_lines_no_subtopic (page_num : nat) (lines : list (list N)) :
  forall st data,
    current_subtopic st = [] ->
    Forall (fun r => row_level r <> Level_Subtopic /\ row_subtopic r = VStr []
                     /\ row_unit r <> VNone /\ row_topic r <> VNone) data ->
    current_subtopic (syllabus_lines page_num st lines data).1 = [] /\
    Forall (fun r => row_level r <> Level_Subtopic /\ row_subtopic r = VStr []
                     /\ row_unit r <> VNone /\ row_topic r <> VNone)
           (syllabus_lines page_num st lines data).2.
Proof.
  induction lines as [|line rest IH]; intros st data Hst Hall; [done|].
  cbn [syllabus_lines].
  destruct (strip_head line) as [->|(c & t & -> & Hc)]; [by apply IH|].
  pose proof (syllabus_line_no_subtopic page_num st c t Hc Hst)
    as (Hst' & Hrow).
  destruct (syllabus_line page_num st (c :: t)) as [st' row].
  cbn [fst snd] in *. apply IH; [done|].
  apply Forall_app. split; [done|]. by constructor.
Qed.

Lemma syllabus_pages_no_subtopic (pages : list Page) : forall page_num st data,
  current_subtopic st = [] ->
  Forall (fun r => row_level r <> Level_Subtopic /\ row_subtopic r = VStr []
                   /\ row_unit r <> VNone /\ row_topic r <> VNone) data ->
  Forall (fun r => row_level r <> Level_Subtopic /\ row_subtopic r = VStr []
                   /\ row_unit r <> VNone /\ row_topic r <> VNone)
         (syllabus_pages page_num pages st data).
Proof.
  induction pages as [|page rest IH]; intros page_num st data Hst Hall; [done|].
  cbn [syllabus_pages].
  destruct (page_extract_text page) as [[t|]|e]; try by apply IH.
  destruct (truthy (Some t)); [|by apply IH].
  pose proof (syllabus_lines_no_subtopic page_num (split_sep [ch "010"] t)
                st data Hst Hall) as [Hst' Hall'].
  destruct (syllabus_lines page_num st (split_sep [ch "010"] t) data)
    as [st' data'].
  by apply IH.
Qed.

(** X21: [extract_syllabus_structure] never produces a row of level
    Subtopic, and the Subtopic field of every row is the empty string: a
    line is stripped before it is classified, so the pattern for indented
    lines cannot match it. *)
Theorem extract_syllabus_structure_no_subtopic (d : Pdf) :
  Forall (fun r => row_level r <> Level_Subtopic /\ row_subtopic r = VStr [])
         (extract_syllabus_structure d).
Proof.
  unfold extract_syllabus_structure. destruct (open_pdf d) as [pages|e]; [|done].
  eapply Forall_impl;
    [|apply (syllabus_pages_no_subtopic pages 1 initial_state []); done].
  by intros r (? & ? & _).
Qed.

Lemma zip_with_set_row_same {A} (set : SyllabusRow -> A -> SyllabusRow)
    (get : SyllabusRow -> A) (df : list SyllabusRow) :
  (forall r, set r (get r) = r) -> zip_with set df (get <$> df) = df.
Proof.
  intros Hset. induction df as [|r df IH]; [done|].
  csimpl. by rewrite Hset, IH.
Qed.

Lemma filter_iff_Forall {A} (P Q : A -> Prop)
    `{!forall x, Decision (P x)} `{!forall x, Decision (Q x)} (l : list A) :
  Forall (fun x => P x <-> Q x) l -> filter P l = filter Q l.
Proof.
  induction 1 as [|x l Hx _ IH]; [done|].
  destruct (decide (P x)) as [HP|HP].
  - rewrite !filter_cons_True by tauto. by rewrite IH.
  - rewrite !filter_cons_False by tauto. done.
Qed.

(** X22: the organizing step of [syllabus_pdf_to_excel], applied to what
    [extract_syllabus_structure] returns, is a plain selection: it keeps,
    unchanged and in order, exactly the rows of level Unit or Topic whose
    content is more than 2 characters long.  The forward fill changes
    nothing, since no Unit or Topic cell is missing. *)
Theorem organize_syllabus_data_selects (d : Pdf) :
  organize_syllabus_data (extract_syllabus_structure d)
  = filter (fun r => row_level r ∈ [Level_Unit; Level_Topic]
                     /\ 2 < length (row_content r))
           (extract_syllabus_structure d).
Proof.
  assert (Hrows : Forall (fun r => row_level r <> Level_Subtopic
                                   /\ row_subtopic r = VStr []
                                   /\ row_unit r <> VNone
                                   /\ row_topic r <> VNone)
                         (extract_syllabus_structure d)).
  { unfold extract_syllabus_structure.
    destruct (open_pdf d) as [pages|e]; [|done].
    by apply (syllabus_pages_no_subtopic pages 1 initial_state []). }
  generalize dependent (extract_syllabus_structure d). intros df Hrows.
  unfold organize_syllabus_data. destruct df as [|r0 rest] eqn:Hdf; [done|].
  rewrite <- Hdf in *. clear Hdf.
  set (kept := filter (fun r => 2 < length (row_content r)) df).
  assert (Hkept : Forall (fun r => row_level r <> Level_Subtopic
                                   /\ row_subtopic r = VStr []
                                   /\ row_unit r <> VNone
                                   /\ row_topic r <> VNone) kept).
  { apply list.Forall_forall. intros r [_ Hr]%list_elem_of_filter.
    rewrite list.Forall_forall in Hrows. by apply Hrows. }
  unfold ffill.
  rewrite (ffill_from_valid VNone (row_unit <$> kept)).
  2:{ apply Forall_fmap. eapply Forall_impl; [|exact Hkept].
      by intros r (_ & _ & ? & _). }
  rewrite (zip_with_set_row_same set_row_unit row_unit) by by intros [].
  rewrite (ffill_from_valid VNone (row_topic <$> kept)).
  2:{ apply Forall_fmap. eapply Forall_impl; [|exact Hkept].
      by intros r (_ & _ & _ & ?). }
  rewrite (zip_with_set_row_same set_row_topic row_topic) by by intros [].
  unfold kept. rewrite list_filter_filter.
  apply filter_iff_Forall. eapply Forall_impl; [|exact Hrows].
  intros r (Hlevel & _). simpl. rewrite !elem_of_cons, elem_of_nil.
  split; [|tauto]. intros [[?|[?|[?|[]]]] ?]; tauto.
Qed.

(** ** [sanitize_filename] *)

Lemma replace_fold_map (chars : list N) (new : N) (s : list N) :
  fold_left (fun f char => replace_char char new f) chars s
  = map (fun x => fold_left (fun y c => if (y =? c)%N then new else y) chars x)
        s.
Proof.
  revert s. induction chars as [|c chars IH]; intros s; cbn [fold_left].
  - by rewrite map_id.
  - rewrite IH. unfold replace_char. by rewrite map_map.
Qed.

Lemma replace_fold_char_valid (chars : list N) (new x : N) :
  new ∉ chars ->
  fold_left (fun y c => if (y =? c)%N then new else y) chars x ∉ chars.
Proof.
  induction chars as [|c chars IH] using rev_ind; intros Hnew.
  - by intros H; inversion H.
  - rewrite fold_left_app. cbn [fold_left].
    rewrite not_elem_of_app in Hnew. destruct Hnew as [Hnew Hc].
    rewrite list_elem_of_singleton in Hc.
    set (y := fold_left _ chars x) in *. specialize (IH Hnew).
    rewrite not_elem_of_app, list_elem_of_singleton.
    destruct (N.eqb_spec y c) as [->|Hne]; [by split|by split].
Qed.

Lemma replace_fold_char_id (chars : list N) (new x : N) :
  x ∉ chars -> fold_left (fun y c => if (y =? c)%N then new else y) chars x = x.
Proof.
  revert x. induction chars as [|c chars IH]; intros x Hx; [done|].
  cbn [fold_left]. rewrite not_elem_of_cons in Hx. destruct Hx as [Hc Hx].
  destruct (N.eqb_spec x c) as [->|_]; [done|]. by apply IH.
Qed.

Lemma replace_filename_invalid_valid (filename : list N) :
  Forall (fun c => c ∉ filename_invalid_chars)
         (replace_filename_invalid filename).
Proof.
  unfold replace_filename_invalid. rewrite replace_fold_map.
  apply Forall_map, Forall_forall. intros x _.
  apply replace_fold_char_valid. decide_by_computation.
Qed.

Lemma replace_filename_invalid_id (filename : list N) :
  Forall (fun c => c ∉ filename_invalid_chars) filename ->
  replace_filename_invalid filename = filename.
Proof.
  intros Hall. unfold replace_filename_invalid. rewrite replace_fold_map.
  rewrite <- (map_id filename) at 2. apply map_ext_Forall.
  eapply Forall_impl; [|exact Hall].
  intros x Hx. by apply replace_fold_char_id.
Qed.

Lemma lstrip_chars_Forall (P : N -> Prop) (chars s : list N) :
  Forall P s -> Forall P (lstrip_chars chars s).
Proof.
  induction 1 as [|c s Hc Hs IH]; [done|]. simpl.
  case_bool_decide; [done|by constructor].
Qed.

Lemma rstrip_chars_Forall (P : N -> Prop) (chars s : list N) :
  Forall P s -> Forall P (rstrip_chars chars s).
Proof.
  induction 1 as [|c s Hc Hs IH]; [done|]. simpl.
  destruct (rstrip_chars chars s) as [|x r].
  - case_bool_decide; [done|by repeat constructor].
  - by constructor.
Qed.

Lemma strip_chars_Forall (P : N -> Prop) (chars s : list N) :
  Forall P s -> Forall P (strip_chars chars s).
Proof. intros H. by apply rstrip_chars_Forall, lstrip_chars_Forall. Qed.

Lemma rfind_lt (c : N) (s : list N) (i : nat) :
  rfind c s = Some i -> i < length s.
Proof.
  revert i. induction s as [|x s IH]; intros i; simpl; [done|].
  destruct (rfind c s) as [j|].
  - intros [= <-]. specialize (IH j eq_refl). lia.
  - destruct (x =? c)%N; [|done]. intros [= <-]. lia.
Qed.

Lemma splitext_app (p : list N) : (splitext p).1 ++ (splitext p).2 = p.
Proof.
  unfold splitext. destruct (rfind (ch ".") p) as [i|]; simpl.
  - destruct (existsb _ _); simpl; [apply take_drop|apply app_nil_r].
  - apply app_nil_r.
Qed.

Lemma slice_to_Forall (P : N -> Prop) (k : Z) (s : list N) :
  Forall P s -> Forall P (slice_to k s).
Proof. intros H. unfold slice_to. destruct (0 <=? k)%Z; by apply Forall_take. Qed.

Lemma length_slice_to (k : Z) (s : list N) :
  length (slice_to k s)
  = if (0 <=? k)%Z then min (Z.to_nat k) (length s)
    else Z.to_nat (Z.of_nat (length s) + k).
Proof.
  unfold slice_to. destruct (Z.leb_spec 0 k); rewrite length_take; lia.
Qed.

(** X23: what [sanitize_filename] guarantees.  None of the characters
    [< > : / \ | ? *] and no double quote occurs in the name it returns.
    The name is at most 200 characters long exactly when the extension
    found in the cleaned name is: a name that is too long is cut to 200
    characters with its extension kept, and an extension of more than 200
    characters is kept in full. *)
Theorem sanitize_filename_safe (filename : list N) :
  Forall (fun c => c ∉ filename_invalid_chars) (sanitize_filename filename) /\
  (length (sanitize_filename filename) <= 200
   <-> length (filename_extension filename) <= 200) /\
  (200 < length (filename_cleaned filename) ->
   length (filename_extension filename) <= 200 ->
   length (sanitize_filename filename) = 200).
Proof.
  unfold sanitize_filename, filename_extension, filename_cleaned.
  set (cleaned := strip_chars (lit ". ") (replace_filename_invalid filename)).
  assert (Hvalid : Forall (fun c => c ∉ filename_invalid_chars) cleaned).
  { apply strip_chars_Forall, replace_filename_invalid_valid. }
  pose proof (splitext_app cleaned) as Happ.
  destruct (splitext cleaned) as [name ext] eqn:Hsplit. cbn [fst snd] in *.
  assert (Hlen : length cleaned = length name + length ext).
  { by rewrite <- Happ, length_app. }
  rewrite <- Happ in Hvalid. apply Forall_app in Hvalid as [Hname Hext].
  destruct (Nat.ltb_spec 200 (length cleaned)) as [Hlong|Hshort].
  - split_and!.
    + apply Forall_app. split; [by apply slice_to_Forall|done].
    + rewrite length_app, length_slice_to.
      destruct (Z.leb_spec 0 (200 - Z.of_nat (length ext))); lia.
    + intros _ Hext200. rewrite length_app, length_slice_to.
      destruct (Z.leb_spec 0 (200 - Z.of_nat (length ext))); lia.
  - split_and!; [by rewrite <- Happ; apply Forall_app|lia|lia].
Qed.

Lemma lstrip_chars_head (chars s : list N) :
  lstrip_chars chars s = [] \/
  exists c t, lstrip_chars chars s = c :: t /\ c ∉ chars.
Proof.
  induction s as [|c s IH]; [by left|]. simpl.
  case_bool_decide; [done|]. right. by exists c, s.
Qed.

Lemma rstrip_chars_cons (chars : list N) (c : N) (s : list N) :
  c ∉ chars -> rstrip_chars chars (c :: s) = c :: rstrip_chars chars s.
Proof.
  intros Hc. simpl. rewrite bool_decide_eq_false_2 by done.
  by destruct (rstrip_chars chars s).
Qed.

Lemma rstrip_chars_idemp (chars s : list N) :
  rstrip_chars chars (rstrip_chars chars s) = rstrip_chars chars s.
Proof.
  induction s as [|c s IH]; [done|]. simpl.
  destruct (rstrip_chars chars s) as [|c' r] eqn:Hr.
  - case_bool_decide as Hc; [done|]. simpl.
    by rewrite bool_decide_eq_false_2.
  - change (rstrip_chars chars (c :: c' :: r)) with
      (match rstrip_chars chars (c' :: r) with
       | [] => if bool_decide (c ∈ chars) then [] else [c]
       | r' => c :: r'
       end).
    by rewrite IH.
Qed.

Lemma rstrip_chars_last (chars s : list N) (c : N) :
  list.last (rstrip_chars chars s) = Some c -> c ∉ chars.
Proof.
  induction s as [|x s IH]; [done|]. simpl.
  destruct (rstrip_chars chars s) as [|c' r] eqn:Hr.
  - case_bool_decide as Hx; [done|]. by intros [= <-].
  - intros Hlast. apply IH. by rewrite last_cons_cons in Hlast.
Qed.

Lemma strip_chars_head (chars s : list N) :
  strip_chars chars s = [] \/
  exists c t, strip_chars chars s = c :: t /\ c ∉ chars.
Proof.
  unfold strip_chars.
  destruct (lstrip_chars_head chars s) as [->|(c & t & -> & Hc)]; [by left|].
  right. exists c, (rstrip_chars chars t). by rewrite rstrip_chars_cons.
Qed.

Lemma strip_chars_idemp (chars s : list N) :
  strip_chars chars (strip_chars chars s) = strip_chars chars s.
Proof.
  destruct (strip_chars_head chars s) as [->|(c & t & Hs & Hc)]; [done|].
  unfold strip_chars at 1. rewrite Hs. simpl lstrip_chars.
  rewrite bool_decide_eq_false_2 by done.
  rewrite <- Hs. unfold strip_chars. apply rstrip_chars_idemp.
Qed.

(** X24: on a name that is at most 200 characters long once cleaned,
    [sanitize_filename] is idempotent, and the name it returns neither
    starts nor ends with a dot or a blank. *)
Theorem sanitize_filename_short (filename : list N) :
  length (filename_cleaned filename) <= 200 ->
  sanitize_filename (sanitize_filename filename) = sanitize_filename filename /\
  (forall c, head (sanitize_filename filename) = Some c -> c ∉ lit ". ") /\
  (forall c, list.last (sanitize_filename filename) = Some c -> c ∉ lit ". ").
Proof.
  intros Hshort.
  assert (Hfirst : sanitize_filename filename = filename_cleaned filename).
  { unfold sanitize_filename. fold (filename_cleaned filename).
    by destruct (Nat.ltb_spec 200 (length (filename_cleaned filename)));
      [lia|]. }
  rewrite Hfirst. split_and!.
  - unfold sanitize_filename.
    rewrite (replace_filename_invalid_id (filename_cleaned filename)).
    2:{ apply strip_chars_Forall, replace_filename_invalid_valid. }
    unfold filename_cleaned at 1 2 3. rewrite strip_chars_idemp.
    fold (filename_cleaned filename).
    by destruct (Nat.ltb_spec 200 (length (filename_cleaned filename)));
      [lia|].
  - intros c Hc. unfold filename_cleaned in Hc.
    destruct (strip_chars_head (lit ". ") (replace_filename_invalid filename))
      as [Hnil|(c' & t & Heq & Hc')]; rewrite ?Hnil, ?Heq in Hc; [done|].
    by injection Hc as <-.
  - intros c. apply rstrip_chars_last.
Qed.

(** ** [extract_tables_enhanced] *)

Lemma cleaned_cell_stripped (cell : option (list N)) :
  strip (cleaned_cell cell) = cleaned_cell cell.
Proof. destruct cell as [s|]; [apply strip_idemp|done]. Qed.

Lemma any_cell_Exists (row : list (list N)) :
  any_cell row = true <-> Exists (fun cell => cell <> []) row.
Proof.
  unfold any_cell. rewrite existsb_exists, list.Exists_exists. split.
  - intros (cell & Hin & Hcell). exists cell.
    split; [by apply list_elem_of_In|by apply bool_decide_eq_true in Hcell].
  - intros (cell & Hin & Hcell). exists cell.
    split; [by apply list_elem_of_In|by apply bool_decide_eq_true].
Qed.

(** X25: the tables [extract_tables_enhanced] returns.  There are at most
    as many as the page yields; none is empty; every row has a cell that
    is not empty; every cell is a string without leading or trailing
    whitespace ([None] has become the empty string); and every row is as
    wide as a row of the table it comes from, so that no cell is dropped
    or added. *)
Theorem extract_tables_enhanced_clean
    (extracted : exc (list (list (list (option (list N)))))) :
  Forall (fun table =>
            table <> [] /\
            Forall (fun row => Exists (fun cell => cell <> []) row /\
                               Forall (fun cell => strip cell = cell) row)
                   table)
         (extract_tables_enhanced extracted) /\
  forall tables, extracted = Ok tables ->
    length (extract_tables_enhanced extracted) <= length tables /\
    Forall (fun table => exists source, source ∈ tables /\
              length table <= length source /\
              Forall (fun row => exists cells,
                        cells ∈ source /\ length row = length cells) table)
           (extract_tables_enhanced extracted).
Proof.
  unfold extract_tables_enhanced. destruct extracted as [tables|e];
    [|by split].
  split.
  - apply list.Forall_forall.
    intros table [Hne (source & -> & _)%list_elem_of_fmap]%list_elem_of_filter.
    split; [done|]. apply list.Forall_forall.
    intros row [Hany (cells & -> & _)%list_elem_of_fmap]%list_elem_of_filter.
    split; [by apply any_cell_Exists, Is_true_true|].
    apply Forall_fmap, Forall_true. intros cell. apply cleaned_cell_stripped.
  - intros tables' [= <-]. split.
    + etrans; [apply length_filter|]. rewrite length_fmap. apply length_filter.
    + apply list.Forall_forall.
      intros table [Hne (source & -> & Hsrc)%list_elem_of_fmap]%list_elem_of_filter.
      apply list_elem_of_filter in Hsrc as [_ Hsrc].
      exists source. split_and!; [done| |].
      * unfold cleaned_table. etrans; [apply length_filter|].
        by rewrite length_fmap.
      * apply list.Forall_forall.
        intros row [_ (cells & -> & Hcells)%list_elem_of_fmap]%list_elem_of_filter.
        exists cells. split; [done|]. by rewrite length_fmap.
Qed.

(** ** [convert_to_excel]: the order of the columns *)

Lemma column_order_loop (cols : list (list N)) : forall order,
  NoDup order -> NoDup cols ->
  fold_left (fun column_order col =>
               if bool_decide (col ∈ column_order) then column_order
               else column_order ++ [col]) cols order
  = order ++ filter (fun col => col ∉ order) cols.
Proof.
  induction cols as [|col cols IH]; intros order Hnd Hcols.
  - by rewrite app_nil_r.
  - apply list.NoDup_cons in Hcols as [Hcol Hcols]. cbn [fold_left].
    case_bool_decide as Hin.
    + rewrite IH by done. by rewrite filter_cons_False by tauto.
    + rewrite IH; [|apply list.NoDup_app; split_and!;
                      [done|set_solver|apply NoDup_singleton] |done].
      rewrite filter_cons_True by done. rewrite <- app_assoc. simpl.
      f_equal. f_equal. apply filter_iff_Forall, list.Forall_forall.
      intros c Hc. rewrite not_elem_of_app, list_elem_of_singleton.
      split; [by intros [? _]|]. intros Hout. split; [done|].
      by intros ->.
Qed.

(** X26: the order in which [convert_to_excel] writes the columns of the
    consolidated frame, whose labels are pairwise distinct: [Page] first
    and [Table_Index] next, when the frame has them, then all the other
    columns in the order they had.  No column is lost and none is written
    twice. *)
Theorem column_order_spec (cols : list (list N)) :
  NoDup cols ->
  column_order cols
  = (if bool_decide (lit "Page" ∈ cols) then [lit "Page"] else [])
    ++ (if bool_decide (lit "Table_Index" ∈ cols) then [lit "Table_Index"]
        else [])
    ++ filter (fun col => col <> lit "Page" /\ col <> lit "Table_Index") cols
  /\ column_order cols ≡ₚ cols.
Proof.
  intros Hnd.
  assert (Hne : lit "Page" <> lit "Table_Index") by by vm_compute.
  assert (Heq : column_order cols
    = (if bool_decide (lit "Page" ∈ cols) then [lit "Page"] else [])
      ++ (if bool_decide (lit "Table_Index" ∈ cols) then [lit "Table_Index"]
          else [])
      ++ filter (fun col => col <> lit "Page" /\ col <> lit "Table_Index")
                cols).
  { unfold column_order. rewrite column_order_loop; [|
      repeat case_bool_decide; simpl; repeat constructor; set_solver|done].
    destruct (bool_decide (lit "Page" ∈ cols)) eqn:HP;
      [apply bool_decide_eq_true in HP|apply bool_decide_eq_false in HP];
      (destruct (bool_decide (lit "Table_Index" ∈ cols)) eqn:HT;
       [apply bool_decide_eq_true in HT|apply bool_decide_eq_false in HT]);
      simpl; repeat f_equal;
      apply filter_iff_Forall, list.Forall_forall; intros c Hc;
      rewrite ?not_elem_of_cons, ?elem_of_nil; (split; [|tauto]);
      intros H; split_and!; try tauto; by intros ->. }
  split; [done|]. clear Heq. unfold column_order.
  assert (Horder : forall order : list (list N),
            NoDup order -> (forall c, c ∈ order -> c ∈ cols) ->
            order ++ filter (fun col => col ∉ order) cols ≡ₚ cols).
  { intros order Horder Hsub. apply NoDup_Permutation; [|done|].
    - apply list.NoDup_app. split_and!; [done| |by apply list.NoDup_filter].
      by intros x Hx [Hout _]%list_elem_of_filter.
    - intros c. rewrite elem_of_app, list_elem_of_filter.
      destruct (decide (c ∈ order)); naive_solver. }
  repeat case_bool_decide; simpl;
    (rewrite column_order_loop; [apply Horder| |done]);
    repeat constructor; set_solver.
Qed.

(** ** Regular expressions: sufficient conditions for a match *)

Lemma rmatch_Chr (p : N -> bool) (c : N) (s : list N) caps k :
  p c = true -> rmatch (Chr p) (c :: s) caps k = k s caps.
Proof. intros Hc. cbn [rmatch]. by rewrite Hc. Qed.

Lemma rmatch_Chr_fail (p : N -> bool) (c : N) (s : list N) caps k :
  p c = false -> rmatch (Chr p) (c :: s) caps k = None.
Proof. intros Hc. cbn [rmatch]. by rewrite Hc. Qed.

(** A star may stop at once, and an optional part may be skipped. *)
Lemma rmatch_Star_skip (r : regex) (s : list N) caps k :
  is_Some (k s caps) -> is_Some (rmatch (Star r) s caps k).
Proof.
  intros Hk. cbn [rmatch]. destruct (length s) as [|turns]; [done|].
  by destruct (rmatch r s caps _).
Qed.

Lemma rmatch_Opt_skip (r : regex) (s : list N) caps k :
  is_Some (k s caps) -> is_Some (rmatch (Opt r) s caps k).
Proof. intros Hk. cbn [rmatch]. by destruct (rmatch r s caps k). Qed.

(** A star over a class takes a string of characters of the class to its
    end. *)
Lemma rmatch_Star_all (p : N -> bool) (s : list N) caps k :
  Forall (fun c => p c = true) s ->
  (forall caps', is_Some (k [] caps')) ->
  is_Some (rmatch (Star (Chr p)) s caps k).
Proof.
  intros Hp Hk. cbn [rmatch].
  assert (Hturns : length s <= length s) by lia. revert Hturns.
  generalize (length s) at 2 3. intros turns. revert s caps Hp.
  induction turns as [|turns IH]; intros s caps Hp Hlen.
  - destruct s; [apply Hk|simpl in Hlen; lia].
  - destruct s as [|c s]; [apply Hk|].
    apply list.Forall_cons in Hp as [Hc Hp]. rewrite Hc.
    simpl in Hlen.
    destruct (Nat.ltb_spec (length s) (length (c :: s))) as [_|Hge];
      [|simpl in Hge; lia].
    specialize (IH s caps Hp ltac:(lia)).
    by destruct IH as [m ->].
Qed.

Lemma no_newline_any (s : list N) :
  ch "010" ∉ s -> Forall (fun c => is_any c = true) s.
Proof.
  intros Hs. apply list.Forall_forall. intros c Hc. unfold is_any.
  apply negb_true_iff, N.eqb_neq. by intros ->.
Qed.

Lemma rmatch_Seq (r1 r2 : regex) (s : list N) caps k :
  rmatch (Seq r1 r2) s caps k
  = rmatch r1 s caps (fun s' caps' => rmatch r2 s' caps' k).
Proof. done. Qed.

Lemma rmatch_Group (n : nat) (r : regex) (s : list N) caps k :
  rmatch (Group n r) s caps k
  = rmatch r s caps
      (fun s' caps' => k s' (<[n := take (length s - length s') s]> caps')).
Proof. done. Qed.

Lemma rmatch_Eos_nil caps k : rmatch Eos [] caps k = k [] caps.
Proof. done. Qed.

(** A line of two characters or more without line break matches
    [^(C+)\.?\s*(.+)$] as soon as its first character is in the class
    [C]. *)
Lemma numbered_shape_matches (p : N -> bool) (c : N) (rest : list N) :
  p c = true -> rest <> [] -> ch "010" ∉ rest ->
  is_Some (re_match (seqs [Group 1 (Plus (Chr p)); Opt (Chr (is_char "."));
                           spaces0; rest_of_line 2; Eos]) (c :: rest)).
Proof.
  intros Hc Hne Hnl. destruct rest as [|x rest]; [done|].
  apply no_newline_any, list.Forall_cons in Hnl as [Hx Hrest].
  unfold re_match, rest_of_line, spaces0, Plus. cbn [seqs].
  rewrite rmatch_Seq, rmatch_Group, rmatch_Seq, rmatch_Chr by done.
  apply rmatch_Star_skip. cbv beta.
  rewrite rmatch_Seq. apply rmatch_Opt_skip. cbv beta.
  rewrite rmatch_Seq. apply rmatch_Star_skip. cbv beta.
  rewrite rmatch_Seq, rmatch_Group, rmatch_Seq, rmatch_Chr by done.
  apply rmatch_Star_all; [done|]. intros caps'. by rewrite rmatch_Eos_nil.
Qed.

Lemma first_match_Some (patterns : list Pattern) (content : list N)
    (pattern : Pattern) :
  pattern ∈ patterns ->
  is_Some (re_match (pattern_regex pattern) content) ->
  is_Some (first_match patterns content).
Proof.
  induction patterns as [|p0 patterns IH]; intros Hin Hm; [by inversion Hin|].
  cbn [first_match].
  destruct (re_match (pattern_regex p0) content) as [m|] eqn:Hp0; [done|].
  apply IH; [|done]. apply elem_of_cons in Hin as [->|Hin]; [|done].
  rewrite Hp0 in Hm. by destruct Hm.
Qed.

Lemma first_match_None (patterns : list Pattern) (content : list N)
    (pattern : Pattern) :
  first_match patterns content = None -> pattern ∈ patterns ->
  re_match (pattern_regex pattern) content = None.
Proof.
  intros Hnone Hin.
  destruct (re_match (pattern_regex pattern) content) as [m|] eqn:Hm; [|done].
  destruct (first_match_Some patterns content pattern Hin) as [x Hx];
    [by rewrite Hm|congruence].
Qed.

Lemma classify_unit_header (st : State) (row : Line) :
  is_Some (first_match unit_patterns (line_content row)) ->
  node_type_tag (classify st row).2 = Unit_Header.
Proof.
  intros [[pattern m] Hm]. unfold classify. by rewrite Hm.
Qed.

(** X27: which lines the first and the third unit pattern take.  A line
    of two characters or more, without line break, whose first character
    is a digit or one of the letters I, V, X in either case, is classified
    as a Unit_Header, whatever follows: so are a numbered topic such as
    1.1 and any line that begins with a word in i, v or x. *)
Theorem leading_digit_or_numeral_is_unit_header (st : State) (row : Line)
    (c : N) (rest : list N) :
  line_content row = c :: rest -> rest <> [] -> ch "010" ∉ rest ->
  is_digit c || is_char_i "I" c || is_char_i "V" c || is_char_i "X" c = true ->
  node_type_tag (classify st row).2 = Unit_Header.
Proof.
  intros Hrow Hne Hnl Hc. apply classify_unit_header. rewrite Hrow.
  destruct (is_digit c) eqn:Hd.
  - apply (first_match_Some _ _ numbered_unit_pattern); [by left|].
    by apply numbered_shape_matches.
  - simpl in Hc.
    eapply (first_match_Some _ _
              {| pattern_source := lit "^([IVX]+)\.?\s*(.+)$";
                 pattern_regex := _ |}); [by right; right; left|].
    cbn [pattern_regex]. by apply (numbered_shape_matches _ c rest).
Qed.

(** ** StructureClassifier: the subtopic patterns on plain lines *)

Lemma rmatch_Chr_nil (p : N -> bool) caps k : rmatch (Chr p) [] caps k = None.
Proof. done. Qed.

(** The pattern for indented content asks for a whitespace character at
    the start. *)
Lemma indented_needs_space (pattern : Pattern) (content : list N) :
  subtopic_patterns !! 0 = Some pattern ->
  is_Some (re_match (pattern_regex pattern) content) ->
  exists c rest, content = c :: rest /\ isspace c = true.
Proof.
  intros [= <-]. cbn [pattern_regex]. unfold re_match. cbn [seqs].
  rewrite rmatch_Seq, rmatch_Group, rmatch_Seq.
  destruct content as [|c rest]; [rewrite rmatch_Chr_nil; by intros [? [=]]|].
  destruct (isspace c) eqn:Hc; [by exists c, rest|].
  rewrite rmatch_Chr_fail by done. by intros [? [=]].
Qed.

(** The pattern for numbers such as 1.1.1 asks for a digit at the start
    and for more after it. *)
Lemma dotted_needs_digit (pattern : Pattern) (content : list N) :
  subtopic_patterns !! 1 = Some pattern ->
  is_Some (re_match (pattern_regex pattern) content) ->
  exists c rest, content = c :: rest /\ is_digit c = true /\ rest <> [].
Proof.
  intros [= <-]. cbn [pattern_regex]. unfold re_match, digits1, Plus.
  cbn [seqs]. rewrite rmatch_Seq, rmatch_Group, !rmatch_Seq.
  destruct content as [|c rest]; [rewrite rmatch_Chr_nil; by intros [? [=]]|].
  destruct (is_digit c) eqn:Hc; [|rewrite rmatch_Chr_fail by done;
                                   by intros [? [=]]].
  destruct rest as [|x rest]; [|by exists c, (x :: rest)].
  rewrite rmatch_Chr by done. intros [m Hm]. by vm_compute in Hm.
Qed.

Lemma classify_plain_line (st : State) (row : Line) :
  plain_line (line_content row) -> current_subtopic st = [] ->
  current_subtopic (classify st row).1 = [] /\
  node_type_tag (classify st row).2 <> Subtopic_Header /\
  node_subtopic (classify st row).2 = VStr [] /\
  node_level (classify st row).2 <> 4.
Proof.
  intros [Hnl Hstrip] Hst. unfold classify.
  destruct (first_match unit_patterns (line_content row))
    as [[pattern m]|] eqn:Hunit; [by split_and!|].
  destruct (first_match topic_patterns (line_content row))
    as [[pattern m]|] eqn:Htopic; [by split_and!|].
  destruct (first_match subtopic_patterns (line_content row))
    as [[pattern m]|] eqn:Hsub.
  - exfalso. unfold subtopic_patterns in Hsub. cbn [first_match] in Hsub.
    match type of Hsub with
    | context [re_match (pattern_regex ?p) _] =>
        destruct (re_match (pattern_regex p) (line_content row)) as [m1|] eqn:H1
    end.
    { destruct (indented_needs_space _ (line_content row) eq_refl)
        as (c & rest & Hc & Hsp); [by rewrite H1|].
      destruct (strip_head (line_content row)) as [Hnil|(c' & t & Hs & Hc')];
        rewrite Hstrip in *; [by rewrite Hc in Hnil|].
      rewrite Hc in Hs. injection Hs as <- <-. congruence. }
    match type of Hsub with
    | context [re_match (pattern_regex ?p) _] =>
        destruct (re_match (pattern_regex p) (line_content row)) as [m2|] eqn:H2
    end.
    { destruct (dotted_needs_digit _ (line_content row) eq_refl)
        as (c & rest & Hc & Hd & Hne); [by rewrite H2|].
      destruct (first_match_Some unit_patterns (line_content row)
                  numbered_unit_pattern) as [x Hx]; [by left| |congruence].
      rewrite Hc. apply numbered_shape_matches; [done|done|].
      rewrite Hc in Hnl. by apply not_elem_of_cons in Hnl as [_ ?]. }
    rewrite (first_match_None topic_patterns (line_content row)
               numbered_pattern Htopic) in Hsub; [done|].
    by right; right; left.
  - destruct (current_unit st) as [|c unit] eqn:Hu; simpl; rewrite ?Hst.
    + by split_and!.
    + split_and!; [done|done|done|]. by destruct (current_topic st).
Qed.

Lemma classify_all_plain_lines (df : list Line) : forall st,
  Forall (fun l => plain_line (line_content l)) df ->
  current_subtopic st = [] ->
  Forall (fun n => node_type_tag n <> Subtopic_Header
                   /\ node_subtopic n = VStr [] /\ node_level n <> 4)
         (classify_all st df).
Proof.
  induction df as [|row rest IH]; intros st Hall Hst; [done|].
  apply list.Forall_cons in Hall as [Hrow Hall]. cbn [classify_all].
  pose proof (classify_plain_line st row Hrow Hst) as (Hst' & Hnode).
  destruct (classify st row) as [st' node]. cbn [fst snd] in *.
  constructor; [done|by apply IH].
Qed.

(** X28: on plain lines the classifier knows no subtopics.  When the
    lines handed to the classification are stripped and hold no line
    break, as the lines the extractors of the application produce, no
    node is a Subtopic_Header, the Subtopic of every node is empty, and no
    node has level 4: an indented line cannot occur, a number such as
    1.1.1 is taken by the first unit pattern, and a number in parentheses
    by the topic patterns. *)
Theorem organize_plain_lines_no_subtopic (df : list Line) (nodes : list Node) :
  organize_syllabus_structure df = Ok nodes ->
  Forall (fun l => plain_line (line_content l))
         (reconstruct_words_to_sentences df) ->
  Forall (fun n => node_type_tag n <> Subtopic_Header
                   /\ node_subtopic n = VStr [] /\ node_level n <> 4) nodes.
Proof.
  intros [[-> ->]| ->]%organize_keeps_nodes Hplain; [done|].
  by apply classify_all_plain_lines.
Qed.

(** ** [extract] on documents whose text can be read *)




(** ** [extract] on text-based documents without tables *)

Lemma column_values_second (name c0 : str) (cols : list str)
    (rws : list (list value)) :
  c0 <> name ->
  column_values name {| columns := c0 :: name :: cols; rows := rws |}
  = (fun row => default VNone (row !! 1)) <$> rws.
Proof.
  intros Hne. unfold column_values. cbn [columns rows index_of].
  rewrite bool_decide_eq_false_2 by done.
  by rewrite bool_decide_eq_true_2.
Qed.

Lemma typed_rows (cols : list str) (rws : list (list value)) :
  Forall (fun row => exists s, row !! 1 = Some (VStr s)) rws ->
  typed_content {| columns := lit "Page" :: lit "Content_Type" :: cols;
                   rows := rws |}.
Proof.
  intros Hrows. unfold typed_content.
  rewrite column_values_second by (by intros H; vm_compute in H).
  apply list.Forall_forall. intros v (row & -> & Hrow)%list_elem_of_fmap.
  rewrite list.Forall_forall in Hrows. destruct (Hrows row Hrow) as [s ->].
  by exists s.
Qed.

Lemma typed_imap_rows {A} (f : nat -> A -> list value) (l : list A)
    (cols : list str) :
  (forall i x, exists s, f i x !! 1 = Some (VStr s)) ->
  typed_content {| columns := lit "Page" :: lit "Content_Type" :: cols;
                   rows := imap f l |}.
Proof.
  intros Hf. apply typed_rows, list.Forall_forall.
  intros row (i & x & -> & _)%elem_of_lookup_imap. apply Hf.
Qed.

Lemma comprehensive_page_typed p text words :
  Forall typed_content (comprehensive_page p text words).
Proof.
  unfold comprehensive_page. repeat apply Forall_app_2.
  - destruct text as [t|]; [|done]. destruct (has_text (Some t)); [|done].
    destruct (text_lines t) as [|line lines]; [done|].
    constructor; [|done]. apply typed_imap_rows. intros. by eexists.
  - destruct words as [|w ws]; [done|].
    constructor; [|done]. apply typed_imap_rows. intros. by eexists.
  - destruct (negb (truthy text) && bool_decide (words = [])); [|done].
    constructor; [|done]. apply typed_rows. repeat constructor. by eexists.
Qed.

Lemma comprehensive_loop_typed pages : forall p tables,
  Forall typed_content tables ->
  Forall typed_content (comprehensive_loop p pages tables).
Proof.
  induction pages as [|page rest IH]; intros p tables Hall; simpl; [done|].
  destruct (page_extract_text page) as [text|e]; [|done].
  apply IH, Forall_app. split; [done|apply comprehensive_page_typed].
Qed.

Lemma remaining_content_typed (d : Pdf) :
  Forall typed_content (extract_remaining_content d).
Proof.
  unfold extract_remaining_content. destruct (open_pdf d); [|done].
  apply list.Forall_forall. intros t [frames [Ht Hl]]%list_elem_of_join.
  apply elem_of_lookup_imap in Hl as (i & page & -> & _).
  unfold remaining_page in Ht. apply elem_of_app in Ht as [Ht|Ht].
  - destruct (page_images page) as [|img imgs]; [by inversion Ht|].
    apply list_elem_of_singleton in Ht as ->.
    apply typed_imap_rows. intros. by eexists.
  - destruct (page_annots page) as [|ann anns]; [by inversion Ht|].
    apply list_elem_of_singleton in Ht as ->.
    apply typed_imap_rows. intros. by eexists.
Qed.

(** The frame made of the text of a page has no content type column and
    carries the number of the page. *)
Lemma lines_table_frame (p : nat) text df :
  lines_table p text = Some df ->
  typed_content df /\ page_values df = {[ VInt (Z.of_nat p) ]}.
Proof.
  unfold lines_table. destruct text as [t|]; [|done].
  destruct (has_text (Some t)); [|done].
  destruct (text_lines t) as [|line lines]; [done|]. intros [= <-].
  rewrite add_page_and_index_text_frame. split.
  - unfold typed_content.
    change (column_values (lit "Content_Type")
              {| columns := [lit "Page"; lit "Table_Index"; lit "Text"];
                 rows := _ |}) with (@nil value).
    constructor.
  - apply page_values_rows; [done|]. apply list.Forall_forall.
    by intros row (line' & -> & _)%list_elem_of_fmap.
Qed.

Lemma no_content_placeholder_typed (p : nat) :
  typed_content (no_content_placeholder p).
Proof.
  unfold typed_content.
  change (column_values (lit "Content_Type") (no_content_placeholder p))
    with (@nil value).
  constructor.
Qed.

(** On pages without tables the first stage appends at most one frame per
    page, made of the text of the page; when it appends one for every
    page, every page number is present. *)
Lemma text_tables_loop_no_tables pages : forall p tables,
  Forall (fun page => page_extract_tables page = Ok []) pages ->
  exists frames,
    text_tables_loop p pages tables = (tables ++ frames, None) /\
    length frames <= length pages /\
    Forall typed_content frames /\
    (length frames = length pages ->
     forall k, k < length pages ->
       VInt (Z.of_nat (p + k)) ∈ pages_present frames).
Proof.
  induction pages as [|page rest IH]; intros p tables Hnone.
  - exists []. simpl. rewrite app_nil_r. split_and!; [done|done|done|].
    intros _ k Hk. lia.
  - apply list.Forall_cons in Hnone as [Hpage Hnone].
    cbn [text_tables_loop]. rewrite Hpage. cbn [page_tables_loop].
    cbv iota beta. unfold page_text_table.
    destruct (page_extract_text page) as [text|e].
    + destruct (lines_table p text) as [df|] eqn:Hdf; cbn [append_if].
      * destruct (IH (S p) (tables ++ [df]) Hnone)
          as (frames & -> & Hlen & Htyped & Hcover).
        apply lines_table_frame in Hdf as [Hdf Hvalues].
        exists (df :: frames). rewrite <- app_assoc.
        split_and!; [done|simpl; lia|by constructor|].
        intros Hfull k Hk. simpl in Hfull, Hk.
        apply elem_of_pages_present. destruct k as [|k].
        -- exists df. split; [by left|]. rewrite Hvalues, Nat.add_0_r.
           by apply elem_of_singleton.
        -- assert (Hk' : VInt (Z.of_nat (S p + k)) ∈ pages_present frames)
             by (apply Hcover; lia).
           apply elem_of_pages_present in Hk' as (t & Ht & Hv).
           exists t. split; [by right|].
           by replace (p + S k) with (S p + k) by lia.
      * destruct (IH (S p) tables Hnone)
          as (frames & -> & Hlen & Htyped & Hcover).
        exists frames. split_and!; [done|simpl; lia|done|].
        simpl. intros Hfull. lia.
    + cbn [append_if].
      destruct (IH (S p) tables Hnone)
        as (frames & -> & Hlen & Htyped & Hcover).
      exists frames. split_and!; [done|simpl; lia|done|].
      simpl. intros Hfull. lia.
Qed.

(** Without tables the first stage covers every page, with the text of
    the page or with a placeholder. *)
Lemma extract_text_tables_no_tables (d : Pdf) :
  opens d = true ->
  Forall (fun page => page_extract_tables page = Ok []) (pdf_pages d) ->
  page_range (length (pdf_pages d)) ⊆ pages_present (extract_text_tables d) /\
  Forall typed_content (extract_text_tables d).
Proof.
  intros Hopen Hnone. unfold extract_text_tables, open_pdf. rewrite Hopen.
  destruct (text_tables_loop_no_tables (pdf_pages d) 1 [] Hnone)
    as (frames & -> & Hlen & Htyped & Hcover).
  rewrite app_nil_l.
  pose proof (ensure_pages_coverage frames (length (pdf_pages d))) as Hens.
  cbv zeta in Hens.
  destruct (length frames <? length (pdf_pages d)) eqn:Hlt.
  - split.
    + destruct Hens as [Hens|Hens]; [|done].
      apply Nat.ltb_lt in Hlt. rewrite length_app in Hens.
      intros v (p & -> & Hp)%elem_of_page_range.
      rewrite pages_present_app.
      destruct (decide (VInt (Z.of_nat p) ∈ pages_present frames))
        as [Hin|Hout]; [by apply elem_of_union_l|].
      apply elem_of_union_r, elem_of_pages_present.
      exists (no_content_placeholder p). split.
      * apply list_elem_of_fmap. exists p. split; [done|].
        by apply elem_of_pages_missing.
      * rewrite no_content_placeholder_pages. by apply elem_of_singleton.
    + apply Forall_app. split; [done|].
      apply list.Forall_forall. intros t (p & -> & _)%list_elem_of_fmap.
      apply no_content_placeholder_typed.
  - split; [|done]. apply Nat.ltb_ge in Hlt.
    intros v (p & -> & Hp)%elem_of_page_range.
    replace p with (1 + (p - 1)) by lia. apply Hcover; lia.
Qed.

(** X30: on a text-based document that exists, opens and none of whose
    pages has a table, [extract] returns a result.  The first stage
    already covers every page, so no page is missing and no placeholder is
    added; the tables are the summary followed by the gathered tables,
    every page counts as extracted and the completeness score is 100. *)
Theorem extract_succeeds_on_text_documents (d : Pdf) :
  path_exists d = true -> opens d = true -> is_text_based d = true ->
  Forall (fun page => page_extract_tables page = Ok []) (pdf_pages d) ->
  exists r summary,
    extract d = Ok r /\
    pages_missing (gathered_tables d) (page_count d) = [] /\
    tables r = summary :: gathered_tables d /\
    total_pages r = length (pdf_pages d) /\
    extracted_pages r = total_pages r /\
    completeness_score r = Qc_of_nat 100.
Proof.
  intros Hexists Hopen Htext Hnone.
  assert (Hcount : page_count d = length (pdf_pages d)).
  { unfold page_count, open_pdf. by rewrite Hopen. }
  assert (Hpos : 1 <= length (pdf_pages d)).
  { apply is_text_based_true_iff in Htext
      as (_ & before & page & after & -> & _).
    rewrite length_app. simpl. lia. }
  destruct (extract_text_tables_no_tables d Hopen Hnone) as [Hcover Htyped].
  assert (Hsub : page_range (length (pdf_pages d))
                 ⊆ pages_present (gathered_tables d)).
  { unfold gathered_tables. rewrite Htext, pages_present_app. set_solver. }
  assert (Hmissing : pages_missing (gathered_tables d) (page_count d) = []).
  { destruct (pages_missing (gathered_tables d) (page_count d))
      as [|p missing] eqn:Hm; [done|]. exfalso.
    assert (Hp : p ∈ pages_missing (gathered_tables d) (page_count d)).
    { rewrite Hm. by left. }
    apply elem_of_pages_missing in Hp as [Hp Hout]. apply Hout, Hsub.
    apply elem_of_page_range. exists p. split; [done|]. by rewrite <- Hcount. }
  destruct (extract_returns d) as [r Hr]; [done|by rewrite Hmissing| |].
  { unfold gathered_tables. rewrite Htext. repeat apply Forall_app_2.
    - done.
    - unfold extract_all_text_comprehensive. destruct (open_pdf d); [|done].
      by apply comprehensive_loop_typed.
    - apply remaining_content_typed. }
  pose proof (extract_pages d r Hr) as [Hpages _].
  pose proof (gathered_pages_in_range d Hopen Htext Hnone) as Hin.
  apply extract_Ok in Hr as Hr'.
  destruct Hr' as (all_tables & Hrec & Hcons & Htotal & Hextracted & Hscore).
  apply cover_missing_Ok in Hrec as [-> _].
  rewrite Hmissing, app_nil_r in Hcons.
  assert (Hsize : size (pages_present (tables r)) = total_pages r).
  { rewrite Hpages, Htotal. rewrite Hcount in *.
    replace (page_range (length (pdf_pages d))
             ∪ pages_present (gathered_tables d))
      with (page_range (length (pdf_pages d))) by set_solver.
    apply size_page_range. }
  apply consolidate_pages in Hcons as [[Hnil _]|[_ (summary & Htables & _)]].
  - exfalso. rewrite Hnil in Hsub.
    assert (Hone : VInt (Z.of_nat 1) ∈ page_range (length (pdf_pages d))).
    { apply elem_of_page_range. exists 1. split; [done|lia]. }
    apply Hsub, elem_of_pages_present in Hone as (t & Ht & _).
    by inversion Ht.
  - exists r, summary. split_and!; [done|done|done|congruence|congruence|].
    rewrite Hscore, Hsize. apply score_full. rewrite Htotal, Hcount. done.
Qed.

(** ** The properties at concrete inputs *)

(** The header row of the specification's example. *)
Example name_headers_clean :
  _clean_column_names name_headers
  = [lit "Column_1"; lit "Name"; lit "Name_1"].
Proof. by vm_compute. Qed.

(** The third label of the example is the base label of the third cell
    with a suffix. *)
Lemma clean_column_names_positional_witness :
  name_headers !! 2 = Some (CStr (lit "Name")) /\
  exists k, _clean_column_names name_headers !! 2
            = Some (candidate (base_label 2 (CStr (lit "Name"))) k) /\
            (forall m, m < k ->
               candidate (base_label 2 (CStr (lit "Name"))) m
               ∈ take 2 (_clean_column_names name_headers)) /\
            candidate (base_label 2 (CStr (lit "Name"))) k
            ∉ take 2 (_clean_column_names name_headers).
Proof.
  split; [reflexivity|].
  apply (proj2 (clean_column_names_positional name_headers) 2
           (CStr (lit "Name"))).
  reflexivity.
Defined.

(** The example row is a fixed point of the sanitizer; the second of two
    equal 50-character headers comes out 52 characters long, as the first
    with the suffix [_1]. *)
Lemma clean_column_names_idempotent_short_witness :
  (Forall (fun l => length l <= 50) (_clean_column_names name_headers) /\
   _clean_column_names (CStr <$> _clean_column_names name_headers)
   = _clean_column_names name_headers) /\
  (exists l, _clean_column_names long_headers !! 1 = Some l /\
     50 < length l /\
     (l = column_label 1 \/
      exists k, 1 <= k /\
        l = lit "Opening balance carried forward from previous year"
            ++ lit "_" ++ dec k)).
Proof.
  split.
  - assert (H : Forall (fun l => length l <= 50)
                       (_clean_column_names name_headers)).
    { vm_compute. repeat constructor. }
    split; [exact H|].
    apply (proj1 (clean_column_names_idempotent_short name_headers) H).
  - eexists. split; [reflexivity|].
    assert (Hlong : 50 < 52) by lia. split; [exact Hlong|].
    destruct (proj2 (clean_column_names_idempotent_short long_headers) 1
                (CStr (lit "Opening balance carried forward from previous year"))
                _ eq_refl eq_refl Hlong) as [Hl|(k & Hk & Hl & _)].
    + left. exact Hl.
    + right. exists k. split; [exact Hk|exact Hl].
Defined.

(** C5, as stated, fails: the suffix given to the second of two equal
    50-character headers is cut off again by a second pass. *)
Lemma clean_column_names_not_idempotent :
  _clean_column_names (CStr <$> _clean_column_names long_headers)
  <> _clean_column_names long_headers.
Proof. vm_compute. intros H. discriminate H. Qed.

Lemma is_text_based_witness :
  (is_text_based two_page_document = true <->
   Exists long_text (pdf_pages two_page_document)) /\
  is_text_based (document [broken_page]) = false.
Proof.
  split.
  - apply (proj1 (proj2 (is_text_based_per_page_and_fail_safe
                           two_page_document))); [reflexivity|].
    repeat constructor; by eexists.
  - apply (proj1 (proj2 (proj2 (proj2 (is_text_based_per_page_and_fail_safe
                                         (document [broken_page])))))
             [] broken_page [] ValueError); [reflexivity|constructor|reflexivity].
Defined.

(** C7, as stated, fails.  For the detector of [enhanced_pdf_converter]
    two pages of 30 characters each are text-based although no single page
    exceeds the threshold (the per-page detector takes them for
    image-based).  For [PDFExtractor.is_text_based] a page over the
    threshold does not make the document text-based when a page before it
    cannot be read. *)
Lemma is_text_based_not_per_page :
  (~ Exists long_text (pdf_pages short_pages_document) /\
   enhanced_is_text_based short_pages_document = true /\
   is_text_based short_pages_document = false) /\
  (Exists long_text (pdf_pages unreadable_first_document) /\
   is_text_based unreadable_first_document = false).
Proof.
  split_and!; [|reflexivity|reflexivity| |reflexivity].
  - intros (page & Hin & t & Ht & Hlen)%list.Exists_exists.
    apply elem_of_cons in Hin as [->|Hin];
      [|apply list_elem_of_singleton in Hin as ->];
      injection Ht as <-; vm_compute in Hlen; lia.
  - apply Exists_cons_tl, Exists_cons_hd. eexists. split; [reflexivity|].
    vm_compute. lia.
Qed.

(** The two policies differ: two pages of 30 characters each are
    image-based for the per-page detector and text-based for the
    cumulative one. *)
Example detectors_differ :
  let d := document [plain_page "Thirty characters of text here";
                     plain_page "Thirty characters of text here"] in
  is_text_based d = false /\ enhanced_is_text_based d = true.
Proof. by vm_compute. Qed.

Lemma consolidate_tables_witness :
  gathered_tables two_page_document <> [] /\ 1 <= 2 /\
  exists result summary,
    consolidate_tables (gathered_tables two_page_document) 2 = Ok result /\
    result = summary :: gathered_tables two_page_document.
Proof.
  assert (Hne : gathered_tables two_page_document <> []).
  { vm_compute. intros H. discriminate H. }
  assert (Hpages : 1 <= 2) by lia.
  split; [exact Hne|]. split; [exact Hpages|].
  destruct (consolidate_tables_summary_first
              (gathered_tables two_page_document) 2 Hne Hpages)
    as [Hreturns Hshape].
  destruct (consolidate_tables (gathered_tables two_page_document) 2)
    as [result|e] eqn:Hresult.
  - destruct (Hshape result eq_refl) as (summary & Heq & _).
    exists result, summary. split; [reflexivity|exact Heq].
  - vm_compute in Hresult. discriminate Hresult.
Defined.

(** C9, as stated, fails: the segments keep the order in which the stages
    emitted them, so a segment of page 2 (stage A) comes before one of
    page 1 (stage B). *)
Lemma consolidate_tables_not_page_ordered :
  exists result,
    consolidate_tables (gathered_tables two_page_document) 2 = Ok result /\
    ~ in_page_order (drop 1 result).
Proof.
  destruct (consolidate_tables (gathered_tables two_page_document) 2)
    as [result|e] eqn:Hresult; [|vm_compute in Hresult; discriminate Hresult].
  exists result. split; [reflexivity|].
  vm_compute in Hresult. injection Hresult as <-.
  intros Horder.
  specialize (Horder 1 2 _ _ 2%Z 1%Z ltac:(lia) eq_refl eq_refl eq_refl eq_refl).
  lia.
Qed.

Lemma extract_covers_every_page_witness :
  exists r, extract two_page_document = Ok r /\
            page_range (total_pages r) ⊆ pages_present (tables r).
Proof.
  destruct (extract two_page_document) as [r|e] eqn:Hr.
  - exists r. split; [reflexivity|].
    apply (extract_covers_every_page two_page_document r Hr).
  - vm_compute in Hr. discriminate Hr.
Defined.

(** C1, as stated, fails: the table of a contents page has a Page column
    of its own, and its cell "12" is a page value of the result of a
    one-page document. *)
Lemma extract_pages_not_exact :
  exists r, extract contents_document = Ok r /\
            total_pages r = 1 /\
            VStr (lit "12") ∈ pages_present (tables r) /\
            pages_present (tables r) <> page_range (total_pages r).
Proof.
  destruct (extract contents_document) as [r|e] eqn:Hr;
    [|vm_compute in Hr; discriminate Hr].
  exists r. split; [reflexivity|].
  assert (Htotal : total_pages r = 1).
  { apply extract_Ok in Hr as (_ & _ & _ & -> & _). reflexivity. }
  assert (Hin : VStr (lit "12") ∈ pages_present (tables r)).
  { apply extract_pages in Hr as [-> _]. apply elem_of_union_r.
    decide_by_computation. }
  split_and!; [done|done|].
  intros Heq. rewrite Heq, Htotal in Hin.
  apply elem_of_page_range in Hin as (p & Hp & _). discriminate Hp.
Qed.

Lemma completeness_score_formula_witness :
  exists r, extract two_page_document = Ok r /\
            extracted_pages r = size (pages_present (tables r)) /\
            (1 <= total_pages r -> (Qc_of_nat 100 <= completeness_score r)%Qc).
Proof.
  destruct (extract two_page_document) as [r|e] eqn:Hr.
  - exists r. split; [reflexivity|].
    destruct (completeness_score_formula two_page_document r Hr)
      as (Hext & _ & _ & _ & Hleast & _).
    split; [exact Hext|exact Hleast].
  - vm_compute in Hr. discriminate Hr.
Defined.

(** C2, as stated, fails: the one-page contents document is scored 200. *)
Lemma completeness_score_above_100 :
  exists r, extract contents_document = Ok r /\
            1 <= total_pages r /\
            completeness_score r = Qc_of_nat 200 /\
            completeness_score r <> Qc_of_nat 100.
Proof.
  destruct (extract contents_document) as [r|e] eqn:Hr;
    [|vm_compute in Hr; discriminate Hr].
  exists r. split; [reflexivity|].
  vm_compute in Hr. injection Hr as <-.
  split_and!; [simpl; lia|by apply Qc_is_canon|].
  intros H. apply (f_equal this) in H. vm_compute in H. discriminate H.
Qed.

Lemma blank_page_gets_no_text_content_witness :
  yields_nothing blank_page /\
  (2 ∉ pages_missing (gathered_tables blank_middle_document) 3) /\
  filter (fun t => on_page 2 t)
    (extract_all_text_comprehensive blank_middle_document)
  = [no_text_frame 2].
Proof.
  assert (Hblank : yields_nothing blank_page).
  { split; [reflexivity|]. split; [|split; reflexivity].
    exists None. split; reflexivity. }
  split; [exact Hblank|].
  destruct (blank_page_gets_no_text_content blank_middle_document
              (plain_page "The first page of the document carries one line of text.")
              blank_page
              (plain_page "The third page of the document carries the last line.")
              eq_refl eq_refl Hblank
              (ex_intro _ _ eq_refl)) as (Hstage & Hmissing & _).
  split; [exact Hmissing|exact Hstage].
Defined.

(** C8, as stated, fails: for the document whose middle page is blank,
    [extract] returns a result without any record tagged Empty_Page;
    page 2 carries the No_Text_Content record of the comprehensive stage,
    and no page is missing before reconciliation. *)
Lemma blank_middle_page_no_empty_page :
  exists r, extract blank_middle_document = Ok r /\
    Forall (fun t => VStr (lit "Empty_Page")
                     ∉ column_values (lit "Content_Type") t) (tables r) /\
    no_text_frame 2 ∈ tables r /\
    pages_missing (gathered_tables blank_middle_document) 3 = [] /\
    score (size (pages_present (gathered_tables blank_middle_document))) 3
    = Qc_of_nat 100.
Proof.
  destruct (extract blank_middle_document) as [r|e] eqn:Hr;
    [|vm_compute in Hr; discriminate Hr].
  exists r. split; [reflexivity|].
  vm_compute in Hr. injection Hr as <-.
  split_and!.
  - decide_by_computation.
  - decide_by_computation.
  - by vm_compute.
  - apply Qc_is_canon. by vm_compute.
Qed.

Lemma clean_header_idempotent_witness :
  clean_header 1 (CStr (lit "Unit_Price (net)")) = Ok (lit "Unit_Price (net)").
Proof.
  apply (clean_header_idempotent 0 1 (lit "  Unit/Price   (net) "));
    by vm_compute.
Defined.

Lemma clean_column_names_distinct_unchanged_witness :
  _clean_column_names [CStr (lit "Name"); CNone; CStr (lit "Unit/Price")]
  = [lit "Name"; lit "Column_2"; lit "Unit_Price"].
Proof.
  apply (clean_column_names_distinct_unchanged
           [CStr (lit "Name"); CNone; CStr (lit "Unit/Price")]).
  decide_by_computation.
Defined.

Lemma table_frame_rows_witness :
  exists df, table_frame 1 0 contents_table = Ok (Some df) /\ df_len df = 1.
Proof.
  eexists. split; [by vm_compute|].
  exact (proj1 (proj2 (proj2 (proj2 (table_frame_rows 1 0 contents_table))))
           _ eq_refl).
Defined.

Lemma parse_ocr_text_rows_witness :
  _parse_ocr_text ocr_lines
  = Some [[lit "Name"; lit "Age"]; [lit "Bob"; lit "42"]] /\
  length [[lit "Name"; lit "Age"]; [lit "Bob"; lit "42"]] <= length ocr_lines /\
  Forall (fun row => 2 <= length row /\
                     Forall (fun col : list N => col <> [] /\ strip col = col) row)
         [[lit "Name"; lit "Age"]; [lit "Bob"; lit "42"]].
Proof.
  assert (H : _parse_ocr_text ocr_lines
              = Some [[lit "Name"; lit "Age"]; [lit "Bob"; lit "42"]])
    by by vm_compute.
  split; [exact H|]. exact (proj2 (parse_ocr_text_rows _ _ H)).
Defined.

Lemma comprehensive_stage_coverage_witness :
  (VInt 1 ∈ pages_present (extract_all_text_comprehensive whitespace_document)
   <-> ~ whitespace_only whitespace_page) /\
  (VInt 2 ∈ pages_present (extract_all_text_comprehensive two_page_document)
   <-> ~ whitespace_only
         (plain_page "The second page of the document carries another line.")).
Proof.
  split.
  - apply (comprehensive_stage_coverage whitespace_document 0 whitespace_page);
      [reflexivity| |reflexivity].
    repeat constructor. by eexists.
  - apply (comprehensive_stage_coverage two_page_document 1);
      [reflexivity| |reflexivity].
    repeat constructor; by eexists.
Defined.

Lemma extract_page_content_frame_witness :
  (extract_page_content whitespace_document 1 = None
   <-> ~ has_residual_content whitespace_page) /\
  forall t, extract_page_content whitespace_document 1 = Some t ->
    1 <= df_len t <= 3 /\ page_values t = {[ VInt 1 ]} /\ typed_content t.
Proof.
  apply (extract_page_content_frame whitespace_document 0 whitespace_page);
    reflexivity.
Defined.

Lemma extract_raises_witness :
  extract whitespace_document = Raise ValueError /\
  exists p, p ∈ pages_missing (gathered_tables whitespace_document)
                              (page_count whitespace_document) /\
            extract_page_content whitespace_document p <> None.
Proof.
  assert (Hr : extract whitespace_document = Raise ValueError) by by vm_compute.
  split; [exact Hr|].
  destruct (extract_raises whitespace_document ValueError Hr)
    as [[H _]|[(_ & _ & H)|[H _]]]; [discriminate H|exact H|discriminate H].
Defined.

(** Two pages whose text cannot be read, visited last page first. *)
Lemma extract_accounting_witness :
  exists r summary,
    extract_visiting [2; 1] (document [broken_page; broken_page]) = Ok r /\
    tables r = [summary; empty_page_placeholder 2; empty_page_placeholder 1] /\
    total_rows r = 4.
Proof.
  assert (Hperm : [2; 1] ≡ₚ pages_missing
                    (gathered_tables (document [broken_page; broken_page]))
                    (page_count (document [broken_page; broken_page]))).
  { change (pages_missing _ _) with [1; 2]. apply Permutation_swap. }
  destruct (extract_visiting [2; 1] (document [broken_page; broken_page]))
    as [r|e] eqn:Hr; [|vm_compute in Hr; discriminate Hr].
  destruct (extract_accounting (document [broken_page; broken_page]) [2; 1] r
              Hperm Hr) as ([[_ [_ Hn]]|(summary & Htables & _)] & _ & _ & Hrows).
  - discriminate Hn.
  - exists r, summary. split; [reflexivity|]. split; [exact Htables|exact Hrows].
Defined.

Lemma per_page_detector_implies_cumulative_witness :
  enhanced_is_text_based two_page_document = true.
Proof.
  apply (per_page_detector_implies_cumulative two_page_document);
    [|reflexivity].
  repeat constructor; by eexists.
Defined.

Lemma organize_preserves_lines_witness :
  exists nodes, organize_syllabus_structure methods_lines = Ok nodes /\
    node_content <$> nodes
    = line_content <$> reconstruct_words_to_sentences methods_lines.
Proof.
  destruct (organize_syllabus_structure methods_lines) as [nodes|e] eqn:H.
  - exists nodes. split; [reflexivity|].
    exact (proj1 (organize_preserves_lines methods_lines nodes H)).
  - vm_compute in H. discriminate H.
Defined.

Lemma organize_nodes_consistent_witness :
  exists nodes, organize_syllabus_structure methods_lines = Ok nodes /\
                Forall consistent nodes.
Proof.
  destruct (organize_syllabus_structure methods_lines) as [nodes|e] eqn:H.
  - exists nodes. split; [reflexivity|].
    exact (organize_nodes_consistent methods_lines nodes H).
  - vm_compute in H. discriminate H.
Defined.

Lemma unit_ancestry_witness :
  exists nodes, organize_syllabus_structure methods_lines = Ok nodes /\
    forall i j n m, i < j -> nodes !! i = Some n -> nodes !! j = Some m ->
      node_type_tag n = Unit_Header ->
      node_type_tag m <> General_Content /\ node_unit m <> VStr [].
Proof.
  destruct (organize_syllabus_structure methods_lines) as [nodes|e] eqn:H.
  - exists nodes. split; [reflexivity|].
    exact (proj2 (unit_ancestry methods_lines nodes H)).
  - vm_compute in H. discriminate H.
Defined.

Lemma reconstruct_lines_numbered_witness :
  line_number <$> reconstruct_words_to_sentences word_lines
  = [Some 1%Z; Some 2%Z] /\
  Forall (fun l => strip (line_content l) <> [])
         (reconstruct_words_to_sentences word_lines).
Proof.
  apply (reconstruct_lines_numbered word_lines). reflexivity.
Defined.

Lemma sanitize_filename_short_witness :
  sanitize_filename (sanitize_filename (lit "  my/report: v2.pdf. "))
  = sanitize_filename (lit "  my/report: v2.pdf. ") /\
  sanitize_filename (lit "  my/report: v2.pdf. ") = lit "my_report_ v2.pdf".
Proof.
  split; [|by vm_compute].
  apply (sanitize_filename_short (lit "  my/report: v2.pdf. ")).
  vm_compute. lia.
Defined.
Lemma sanitize_filename_safe_witness :
  length (sanitize_filename (replicate 250 (ch "a") ++ lit ".pdf")) = 200.
Proof.
  apply (proj2 (proj2 (sanitize_filename_safe
                         (replicate 250 (ch "a") ++ lit ".pdf"))));
    vm_compute; lia.
Defined.

Lemma column_order_spec_witness :
  column_order [lit "Text"; lit "Table_Index"; lit "Page"; lit "X"]
  = [lit "Page"; lit "Table_Index"; lit "Text"; lit "X"].
Proof.
  assert (Hnd : NoDup [lit "Text"; lit "Table_Index"; lit "Page"; lit "X"])
    by decide_by_computation.
  exact (proj1 (column_order_spec _ Hnd)).
Defined.

Lemma leading_digit_or_numeral_is_unit_header_witness :
  node_type_tag
    (classify initial_state
       (text_line (lit "Page 1") None "Introduction to sets")).2
  = Unit_Header /\
  node_type_tag
    (classify initial_state (text_line (lit "Page 1") None "1.1 Sets")).2
  = Unit_Header.
Proof.
  split.
  - apply (leading_digit_or_numeral_is_unit_header initial_state
             (text_line (lit "Page 1") None "Introduction to sets")
             (ch "I") (lit "ntroduction to sets"));
      [reflexivity|by vm_compute|decide_by_computation|reflexivity].
  - apply (leading_digit_or_numeral_is_unit_header initial_state
             (text_line (lit "Page 1") None "1.1 Sets")
             (ch "1") (lit ".1 Sets"));
      [reflexivity|by vm_compute|decide_by_computation|reflexivity].
Defined.

Lemma organize_plain_lines_no_subtopic_witness :
  exists nodes, organize_syllabus_structure numbered_lines = Ok nodes /\
    Forall (fun n => node_type_tag n <> Subtopic_Header
                     /\ node_subtopic n = VStr [] /\ node_level n <> 4) nodes.
Proof.
  destruct (organize_syllabus_structure numbered_lines) as [nodes|e] eqn:H.
  - exists nodes. split; [reflexivity|].
    apply (organize_plain_lines_no_subtopic numbered_lines nodes H).
    repeat constructor; try decide_by_computation.
  - vm_compute in H. discriminate H.
Defined.


Lemma extract_succeeds_on_text_documents_witness :
  exists r summary,
    extract two_page_document = Ok r /\
    pages_missing (gathered_tables two_page_document)
                  (page_count two_page_document) = [] /\
    tables r = summary :: gathered_tables two_page_document /\
    total_pages r = length (pdf_pages two_page_document) /\
    extracted_pages r = total_pages r /\
    completeness_score r = Qc_of_nat 100.
Proof.
  apply (extract_succeeds_on_text_documents two_page_document);
    [reflexivity|reflexivity|by vm_compute|].
  repeat constructor.
Defined.
